(** * The Wealth Observatory: ingestion pipeline, comparison engine, readers

    A shallow embedding of the TypeScript sources

    - [src/app/api/cron/update-billionaires/route.ts]  (the cron trigger [GET],
      [timingSafeEqual], [createSlug], [normalizeImageUrl]),
    - [src/lib/queries/billionaires.ts]  ([upsertBillionaire],
      [insertDailySnapshot], [getBillionaireHistory],
      [getCurrentTopBillionaires], [getBillionaireBySlug], [getLatestSnapshot]),
    - [src/lib/queries/comparisons.ts]  ([getAggregateComparisons],
      [calculateAndStoreComparisons], [getActiveComparisonCosts],
      [getCalculatedComparisons]),
    - [src/lib/queries/stats.ts]  ([getAggregateStats], lines 146 to 181 of
      [src/lib/formatters.ts]),
    - [src/lib/queries/config.ts], [src/lib/queries/metadata.ts] and
      [src/lib/queries/data-sources.ts],
    - [src/lib/db.ts]  ([query] and its retries),
    - [src/lib/formatters.ts]  ([pluralizeUnit], [formatNetWorth],
      [formatChange]),
    - [src/app/page.tsx]  (the data computed by [HomePage]),

    together with the relational schema they run against.

    Modelling conventions.
    - A JavaScript [number] is a rational or one of NaN, +Infinity, -Infinity;
      the results of [-], [*] and [/] and the values read from decimal text
      (number literals of JSON, NUMERIC and BIGINT columns) are rounded to
      the nearest binary64 double, ties to even; the sign of zero is not
      tracked.
    - A JavaScript string is, for [timingSafeEqual], its sequence of UTF-16
      code units; text stored in tables is a [string] of 8-bit characters, and
      [toLowerCase] acts on the letters A to Z.
    - A calendar day ([DATE]) is a day number in [Z], and the server runs in
      UTC: the day of an instant is its quotient by the 86,400,000
      milliseconds of a day.  A table is the list of its rows; [INSERT ... ON
      CONFLICT ... DO UPDATE] updates the conflicting row in place and
      appends otherwise; [ORDER BY] is a stable sort of the rows in table
      order, and [LIMIT] keeps its first rows.  The properties proved do not
      rely on the order in which rows of equal sort key come.
    - Every call of [query] from [src/lib/db.ts] reaches the store and is
      counted; a statement fails where the schema refuses it: a NULL in a NOT
      NULL column, a text longer than its VARCHAR column or holding the
      character NUL, a number whose decimal text ([String(x)], as the driver
      sends it) is not that of an integer within the range of its INTEGER or
      BIGINT column, or a negative LIMIT.  The ids passed to a statement are
      ids read from the store in the same run, so the foreign keys hold, and
      the id sequences are ahead of the ids stored.  The retries of [query]
      after connection errors are modelled on their own, in [Db].
    - An element of the feed is [null] or a record whose fields are missing
      or of the type that the interface [ForbesPerson] declares.
    - The trigger reads one instant when it starts and one when it logs the
      run, less than 2^31 milliseconds later; the rows of [update_metadata]
      are those written by [logUpdateMetadata], whose [completed_at] is
      never NULL. *)

From Stdlib Require Import ZArith QArith Qround List String Ascii Bool Lia Lqa Sorted.
Import ListNotations.

Local Open Scope Z_scope.

(* ================================================================= *)
(** ** JavaScript values *)

Module JS.

(** A [number]: a rational (the value of a finite double) or one of the
    three special values. *)
Inductive number : Type :=
| Num (q : Q)
| NaN
| Infinity
| NegInfinity.

Definition of_Z (z : Z) : number := Num (inject_Z z).

(** Strings as sequences of UTF-16 code units. *)
Definition code_unit := Z.
Definition jsstring := list code_unit.

Definition is_code_unit (c : Z) : Prop := 0 <= c < 65536.
Definition well_formed (s : jsstring) : Prop := Forall is_code_unit s.

(** [s.charCodeAt(i)]: the code unit at index [i], NaN ([None]) out of range. *)
Definition charCodeAt (s : jsstring) (i : nat) : option Z := nth_error s i.

(** ToInt32 of the ECMAScript specification, on integers. *)
Definition ToInt32 (z : Z) : Z :=
  let m := z mod 4294967296 in
  if 2147483648 <=? m then m - 4294967296 else m.

(** ToInt32 of the result of [charCodeAt]: NaN converts to 0. *)
Definition ToInt32_opt (o : option Z) : Z :=
  match o with
  | Some z => ToInt32 z
  | None => 0
  end.

(** The operators [^] and [|] on already converted operands. *)
Definition bitxor (x y : Z) : Z := Z.lxor x y.
Definition bitor (x y : Z) : Z := Z.lor x y.

(** A string literal as code units. *)
Fixpoint of_string (s : string) : jsstring :=
  match s with
  | EmptyString => []
  | String c r => Z.of_N (N_of_ascii c) :: of_string r
  end.

End JS.

(** Arithmetic of [number]s. *)
Module Number.
Import JS.
Local Open Scope Q_scope.

(** *** Rounding to binary64

    The result of an arithmetic operation, and the value of a decimal
    literal, is the double nearest to the exact result, ties going to the
    even significand; a result of magnitude 2^1024 or more after rounding
    is an infinity.  A double is [m * 2^e] with [m] below 2^53 and [e] at
    least -1074. *)

(** The floor of the binary logarithm of [n / d], for positive [n] and [d]. *)
Definition ilog2 (n d : Z) : Z :=
  let k := (Z.log2 n - Z.log2 d)%Z in
  if (if 0 <=? k then 2 ^ k * d <=? n else d <=? n * 2 ^ (- k))%Z
  then k else (k - 1)%Z.

(** The integer nearest to [a / b] for a positive [b], ties to the even one. *)
Definition nearest_even (a b : Z) : Z :=
  let q := (a / b)%Z in
  match (2 * (a mod b) ?= b)%Z with
  | Lt => q
  | Gt => (q + 1)%Z
  | Eq => if Z.even q then q else (q + 1)%Z
  end.

Definition neg (x : number) : number :=
  match x with
  | Num a => Num (- a)
  | NaN => NaN
  | Infinity => NegInfinity
  | NegInfinity => Infinity
  end.

(** The double nearest to [n / d], for positive [n] and [d]. *)
Definition round_pos (n d : Z) : number :=
  let e := Z.max (ilog2 n d - 52) (-1074) in
  if (0 <=? e)%Z
  then
    let m := nearest_even n (d * 2 ^ e) in
    if (2 ^ 1024 <=? m * 2 ^ e)%Z then Infinity
    else Num (inject_Z (m * 2 ^ e))
  else
    let m := nearest_even (n * 2 ^ (- e)) d in
    Num (Qred (m # Z.to_pos (2 ^ (- e)))).

(** The double nearest to [q]. *)
Definition round (q : Q) : number :=
  let r := Qred q in
  match Qnum r with
  | Z0 => Num 0
  | Zpos n => round_pos (Zpos n) (Zpos (Qden r))
  | Zneg n => neg (round_pos (Zpos n) (Zpos (Qden r)))
  end.

(** [Number(s)] for the decimal text [s] of a rational, as the store returns
    NUMERIC and BIGINT columns, and the value of a number literal of JSON. *)
Definition of_decimal (q : Q) : number := round q.

Definition of_integer (z : Z) : number := round (inject_Z z).

(** *** Arithmetic *)

Definition sub (x y : number) : number :=
  match x, y with
  | Num a, Num b => round (a - b)
  | NaN, _ | _, NaN => NaN
  | Infinity, Infinity | NegInfinity, NegInfinity => NaN
  | Infinity, _ => Infinity
  | NegInfinity, _ => NegInfinity
  | Num _, Infinity => NegInfinity
  | Num _, NegInfinity => Infinity
  end.

(** The infinity whose sign is that of [s] (for [s] different from zero). *)
Definition signed_infinity (s : Q) : number :=
  if Qlt_le_dec 0 s then Infinity else NegInfinity.

Definition mul (x y : number) : number :=
  match x, y with
  | Num a, Num b => round (a * b)
  | NaN, _ | _, NaN => NaN
  | Infinity, Num b => if Qeq_bool b 0 then NaN else signed_infinity b
  | NegInfinity, Num b => if Qeq_bool b 0 then NaN else neg (signed_infinity b)
  | Num a, Infinity => if Qeq_bool a 0 then NaN else signed_infinity a
  | Num a, NegInfinity => if Qeq_bool a 0 then NaN else neg (signed_infinity a)
  | Infinity, Infinity | NegInfinity, NegInfinity => Infinity
  | Infinity, NegInfinity | NegInfinity, Infinity => NegInfinity
  end.

Definition div (x y : number) : number :=
  match x, y with
  | Num a, Num b =>
      if Qeq_bool b 0
      then (if Qeq_bool a 0 then NaN else signed_infinity a)
      else round (a / b)
  | NaN, _ | _, NaN => NaN
  | Num _, Infinity | Num _, NegInfinity => Num 0
  | Infinity, Num b => if Qlt_le_dec b 0 then NegInfinity else Infinity
  | NegInfinity, Num b => if Qlt_le_dec b 0 then Infinity else NegInfinity
  | Infinity, _ | NegInfinity, _ => NaN
  end.

(** [Math.max(0, x)]. *)
Definition Math_max0 (x : number) : number :=
  match x with
  | Num a => if Qlt_le_dec 0 a then Num a else Num 0
  | NaN => NaN
  | Infinity => Infinity
  | NegInfinity => Num 0
  end.

(** [Math.floor(x)]. *)
Definition Math_floor (x : number) : number :=
  match x with
  | Num a => Num (inject_Z (Qfloor a))
  | other => other
  end.

(** [x > 0]. *)
Definition gt0 (x : number) : bool :=
  match x with
  | Num a => if Qlt_le_dec 0 a then true else false
  | Infinity => true
  | NaN | NegInfinity => false
  end.

(** [Math.round] on a finite number: the nearest integer, ties upwards. *)
Definition Math_round (a : Q) : Z := Qfloor (a + (1 # 2)).

(** [Number.isInteger(x)]. *)
Definition isInteger (x : number) : bool :=
  match x with
  | Num a => Qeq_bool a (inject_Z (Qfloor a))
  | _ => false
  end.

(** [x < k] and [x > k] against a finite constant. *)
Definition lt (x : number) (k : Q) : bool :=
  match x with
  | Num a => if Qlt_le_dec a k then true else false
  | NegInfinity => true
  | NaN | Infinity => false
  end.

Definition gt (x : number) (k : Q) : bool :=
  match x with
  | Num a => if Qlt_le_dec k a then true else false
  | Infinity => true
  | NaN | NegInfinity => false
  end.

(** [Math.round(x)] as an integer; 2^1024 stands for an infinite result,
    which no integer column accepts, and 0 for NaN, which is as falsy. *)
Definition Math_round_number (x : number) : Z :=
  match x with
  | Num a => Math_round a
  | NaN => 0%Z
  | Infinity => (2 ^ 1024)%Z
  | NegInfinity => (- 2 ^ 1024)%Z
  end.

(** *** The decimal text of an integer-valued number

    [String(x)], which is what the driver sends for a number parameter, shows
    the fewest digits that still denote [x]: up to 2^53 these are the digits
    of [x] itself; beyond, the digits of the shortest decimal that rounds to
    [x], followed by zeros.  From 10^21 on the text has an exponent. *)

Definition safe (z : Z) : bool := (Z.abs z <=? 2 ^ 53)%Z.

Fixpoint count_digits (fuel : nat) (z : Z) : nat :=
  match fuel with
  | O => O
  | S f => if (z <? 10)%Z then 1%nat else S (count_digits f (z / 10))
  end.

Definition rounds_to (z v : Z) : bool :=
  match round (inject_Z v) with
  | Num a => Qeq_bool a (inject_Z z)
  | _ => false
  end.

(** The multiple of [scale] that denotes [z], the nearest if there are two. *)
Definition candidate (z scale : Z) : option Z :=
  let lo := (z / scale * scale)%Z in
  let hi := (lo + scale)%Z in
  match rounds_to z lo, rounds_to z hi with
  | true, true =>
      Some (if (z - lo <? hi - z)%Z then lo
            else if (hi - z <? z - lo)%Z then hi
            else if Z.even (lo / scale) then lo else hi)
  | true, false => Some lo
  | false, true => Some hi
  | false, false => None
  end.

Fixpoint shortest_from (zeros : nat) (z : Z) : Z :=
  match candidate z (10 ^ Z.of_nat zeros) with
  | Some v => v
  | None =>
      match zeros with
      | O => z
      | S fewer => shortest_from fewer z
      end
  end.

(** The integer that the text of the positive double [z] denotes. *)
Definition shortest (z : Z) : Z := shortest_from (count_digits 22 z - 1) z.

(** The integer read from [String(x)] by a column of an integer type, if
    the text is that of an integer. *)
Definition integer_text (x : number) : option Z :=
  match x with
  | Num a =>
      let z := Qfloor a in
      if Qeq_bool a (inject_Z z)
      then if safe z then Some z
           else if (Z.abs z <? 10 ^ 21)%Z then Some (Z.sgn z * shortest (Z.abs z))%Z
           else None
      else None
  | _ => None
  end.

End Number.

(** Text helpers: [parseInt], [toLowerCase], and the helpers of route.ts. *)
Module Text.
Import JS.

Definition is_white (c : ascii) : bool :=
  let n := nat_of_ascii c in
  ((9 <=? n)%nat && (n <=? 13)%nat)%bool || (n =? 32)%nat.

Fixpoint trim_start (s : list ascii) : list ascii :=
  match s with
  | c :: r => if is_white c then trim_start r else s
  | [] => []
  end.

(** The value of a digit in the given radix, if it is one. *)
Definition digit_value (radix : Z) (c : ascii) : option Z :=
  let n := Z.of_nat (nat_of_ascii c) in
  let v :=
    if ((48 <=? n) && (n <=? 57))%bool then Some (n - 48)
    else if ((97 <=? n) && (n <=? 122))%bool then Some (n - 87)
    else if ((65 <=? n) && (n <=? 90))%bool then Some (n - 55)
    else None in
  match v with
  | Some d => if d <? radix then Some d else None
  | None => None
  end.

(** Longest prefix of digits, accumulated; [None] when there is no digit. *)
Fixpoint digits (radix : Z) (acc : option Z) (s : list ascii) : option Z :=
  match s with
  | c :: r =>
      match digit_value radix c with
      | Some d =>
          digits radix (Some (match acc with Some a => a * radix + d | None => d end)) r
      | None => acc
      end
  | [] => acc
  end.

(** [parseInt(s)] with the radix left out. *)
Definition parseInt (s : string) : number :=
  let t := trim_start (list_ascii_of_string s) in
  let '(sign, t) :=
    match t with
    | "-"%char :: r => (-1, r)
    | "+"%char :: r => (1, r)
    | _ => (1, t)
    end in
  let '(radix, t) :=
    match t with
    | "0"%char :: "x"%char :: r => (16, r)
    | "0"%char :: "X"%char :: r => (16, r)
    | _ => (10, t)
    end in
  match digits radix None t with
  | Some v => Number.of_integer (sign * v)
  | None => NaN
  end.

Definition lower (c : ascii) : ascii :=
  let n := nat_of_ascii c in
  if ((65 <=? n)%nat && (n <=? 90)%nat)%bool then ascii_of_nat (n + 32) else c.

(** Membership in the character class [a-z0-9]. *)
Definition is_alnum (c : ascii) : bool :=
  let n := nat_of_ascii c in
  ((97 <=? n)%nat && (n <=? 122)%nat)%bool || ((48 <=? n)%nat && (n <=? 57)%nat)%bool.

(** [.replace(/[^a-z0-9]+/g, '-')]; [in_run] tells that the previous
    character already belonged to the run being replaced. *)
Fixpoint replace_runs (in_run : bool) (s : list ascii) : list ascii :=
  match s with
  | [] => []
  | c :: r =>
      if is_alnum c then c :: replace_runs false r
      else if in_run then replace_runs true r
      else "-"%char :: replace_runs true r
  end.

Definition strip_leading_dash (s : list ascii) : list ascii :=
  match s with
  | "-"%char :: r => r
  | _ => s
  end.

Definition strip_trailing_dash (s : list ascii) : list ascii :=
  rev (strip_leading_dash (rev s)).

(** [createSlug] of route.ts. *)
Definition createSlug (name : string) : string :=
  let lowered := map lower (list_ascii_of_string name) in
  let dashed := replace_runs false lowered in
  string_of_list_ascii (strip_trailing_dash (strip_leading_dash dashed)).

(** Truthiness of an optional string: [undefined], [null] and [''] are falsy. *)
Definition truthy (o : option string) : option string :=
  match o with
  | Some EmptyString => None
  | other => other
  end.

(** [a || b] on optional strings. *)
Definition or_else (a b : option string) : option string :=
  match truthy a with
  | Some s => Some s
  | None => b
  end.

(** [normalizeImageUrl] of route.ts. *)
Definition normalizeImageUrl (url : option string) : option string :=
  match truthy url with
  | None => None
  | Some u =>
      if String.prefix "//" u then Some (String.append "https:" u) else Some u
  end.

End Text.

(* ================================================================= *)
(** ** Exceptions and the state-and-exception monad *)

Module Effect.

Inductive exn : Type :=
| TypeError (msg : string)        (* a JavaScript TypeError *)
| Error (msg : string)            (* [throw new Error(msg)] *)
| DatabaseError (msg : string).   (* an error raised by the store *)

Inductive outcome (A : Type) : Type :=
| Returned (a : A)
| Thrown (e : exn).
Arguments Returned {A} a.
Arguments Thrown {A} e.

(** A computation over a state [S]: the state reached is kept when an
    exception is thrown, as writes already made are not rolled back. *)
Definition M (S A : Type) : Type := S -> outcome A * S.

Definition ret {S A} (a : A) : M S A := fun s => (Returned a, s).

Definition bind {S A B} (m : M S A) (k : A -> M S B) : M S B :=
  fun s =>
    match m s with
    | (Returned a, s') => k a s'
    | (Thrown e, s') => (Thrown e, s')
    end.

Definition throw {S A} (e : exn) : M S A := fun s => (Thrown e, s).

(** [try { m } catch (e) { h e }]. *)
Definition try_catch {S A} (m : M S A) (h : exn -> M S A) : M S A :=
  fun s =>
    match m s with
    | (Returned a, s') => (Returned a, s')
    | (Thrown e, s') => h e s'
    end.

Definition get {S} : M S S := fun s => (Returned s, s).
Definition modify {S} (f : S -> S) : M S unit := fun s => (Returned tt, f s).

(** Run a computation on a component of a larger state. *)
Definition zoom {S T A} (proj : T -> S) (inj : S -> T -> T) (m : M S A) : M T A :=
  fun t =>
    match m (proj t) with
    | (o, s') => (o, inj s' t)
    end.

(** [for (const x of l) { acc = body(acc, x) }]. *)
Fixpoint foldM {S A B} (body : B -> A -> M S B) (l : list A) (acc : B) : M S B :=
  match l with
  | [] => ret acc
  | x :: r => bind (body acc x) (fun acc' => foldM body r acc')
  end.

(** [for (const x of l) { body(x) }]. *)
Fixpoint forM {S A} (l : list A) (body : A -> M S unit) : M S unit :=
  match l with
  | [] => ret tt
  | x :: r => bind (body x) (fun _ => forM r body)
  end.

End Effect.

Declare Scope eff_scope.
Delimit Scope eff_scope with eff.
Notation "x <- m ;; k" := (Effect.bind m (fun x => k))
  (at level 61, m at next level, right associativity) : eff_scope.
Notation "m ;;; k" := (Effect.bind m (fun _ => k))
  (at level 61, right associativity) : eff_scope.

(* ================================================================= *)
(** ** The relational store (schema.sql) *)

Module Store.
Import JS Effect.

(** Columns that the functions under study neither read nor write are left
    out: the surrogate ids and [created_at] of the dependent tables, and the
    descriptive columns of [comparison_costs] and [data_sources] that no
    query of these modules selects by. *)

(** Table [billionaires]. *)
Record Billionaire : Type := mkBillionaire {
  b_id : Z;
  person_name : string;
  slug : string;
  gender : option string;
  country_of_citizenship : option string;
  industries : list string;
  birth_date : option Z;         (* DATE: a day number *)
  image_url : option string;
  bio : option string;
  forbes_uri : option string;
  b_created_at : Z;
  b_updated_at : Z
}.

(** Table [daily_snapshots]; UNIQUE (billionaire_id, snapshot_date). *)
Record DailySnapshot : Type := mkDailySnapshot {
  ds_billionaire_id : Z;
  snapshot_date : Z;
  net_worth : Z;                 (* USD millions *)
  rank : option Z;
  daily_change : option Z;       (* USD millions, NULL when unknown *)
  data_source_id : option Z
}.

(** Table [comparison_costs]. *)
Record ComparisonCost : Type := mkComparisonCost {
  cc_id : Z;
  display_name : string;
  cost : Q;                      (* USD *)
  cost_unit : string;
  description : string;
  region : option string;
  category : string;
  active : bool;
  display_order : Z
}.

(** Table [calculated_comparisons];
    UNIQUE (billionaire_id, comparison_cost_id, calculation_date). *)
Record CalculatedComparison : Type := mkCalculatedComparison {
  calc_billionaire_id : Z;
  comparison_cost_id : Z;
  calculation_date : Z;
  net_worth_used : Z;            (* BIGINT *)
  quantity : Z                   (* BIGINT *)
}.

(** Table [site_config]. *)
Record SiteConfig : Type := mkSiteConfig {
  key : string;
  value : string;
  sc_updated_at : Z
}.

(** Table [data_sources]. *)
Record DataSource : Type := mkDataSource {
  src_id : Z;
  src_name : string;
  last_accessed : option Z
}.

Inductive Status : Type := success | partial | failed.

(** Table [update_metadata]. *)
Record UpdateMetadata : Type := mkUpdateMetadata {
  update_type : string;
  um_data_source_id : option Z;
  records_updated : Z;
  records_created : Z;
  records_failed : Z;
  status : Status;
  error_message : option string;
  execution_time_ms : Z;
  started_at : Z;
  completed_at : Z
}.

(** The whole store, with the clock of the database server and the number
    of statements it has executed. *)
Record t : Type := mkStore {
  billionaires : list Billionaire;
  billionaires_id_seq : Z;
  daily_snapshots : list DailySnapshot;
  comparison_costs : list ComparisonCost;
  calculated_comparisons : list CalculatedComparison;
  site_config : list SiteConfig;
  data_sources : list DataSource;
  update_metadata : list UpdateMetadata;
  current_date : Z;
  current_timestamp : Z;
  queries : nat
}.

Definition set_billionaires (l : list Billionaire) (seq : Z) (s : t) : t :=
  mkStore l seq (daily_snapshots s) (comparison_costs s)
          (calculated_comparisons s) (site_config s) (data_sources s)
          (update_metadata s) (current_date s) (current_timestamp s) (queries s).

Definition set_daily_snapshots (l : list DailySnapshot) (s : t) : t :=
  mkStore (billionaires s) (billionaires_id_seq s) l (comparison_costs s)
          (calculated_comparisons s) (site_config s) (data_sources s)
          (update_metadata s) (current_date s) (current_timestamp s) (queries s).

Definition set_calculated_comparisons (l : list CalculatedComparison) (s : t) : t :=
  mkStore (billionaires s) (billionaires_id_seq s) (daily_snapshots s)
          (comparison_costs s) l (site_config s) (data_sources s)
          (update_metadata s) (current_date s) (current_timestamp s) (queries s).

Definition set_site_config (l : list SiteConfig) (s : t) : t :=
  mkStore (billionaires s) (billionaires_id_seq s) (daily_snapshots s)
          (comparison_costs s) (calculated_comparisons s) l (data_sources s)
          (update_metadata s) (current_date s) (current_timestamp s) (queries s).

Definition set_data_sources (l : list DataSource) (s : t) : t :=
  mkStore (billionaires s) (billionaires_id_seq s) (daily_snapshots s)
          (comparison_costs s) (calculated_comparisons s) (site_config s) l
          (update_metadata s) (current_date s) (current_timestamp s) (queries s).

Definition set_update_metadata (l : list UpdateMetadata) (s : t) : t :=
  mkStore (billionaires s) (billionaires_id_seq s) (daily_snapshots s)
          (comparison_costs s) (calculated_comparisons s) (site_config s)
          (data_sources s) l (current_date s) (current_timestamp s) (queries s).

(** One more statement has been executed. *)
Definition tick (s : t) : t :=
  mkStore (billionaires s) (billionaires_id_seq s) (daily_snapshots s)
          (comparison_costs s) (calculated_comparisons s) (site_config s)
          (data_sources s) (update_metadata s) (current_date s)
          (current_timestamp s) (S (queries s)).

(** [query] of db.ts for a SELECT: the rows, read from the current state. *)
Definition query_select {A} (rows : t -> A) : M t A :=
  fun s => (Returned (rows s), tick s).

(** [query] of db.ts for a statement that writes and may be refused. *)
Definition query_write {A} (stmt : t -> outcome A * t) : M t A :=
  fun s => let '(o, s') := stmt s in (o, tick s').

(** The shape shared by the three [INSERT ... ON CONFLICT ... DO UPDATE]:
    conflicting rows are rewritten in place, a row is appended otherwise. *)
Definition upsert {A} (conflict : A -> bool) (repl : A -> A) (new : A)
    (l : list A) : list A :=
  if existsb conflict l
  then map (fun r => if conflict r then repl r else r) l
  else l ++ [new].

(** ORDER BY an integer column, ascending: a stable insertion sort, rows of
    equal key staying in table order. *)
Fixpoint insert_by {A} (k : A -> Z) (x : A) (l : list A) : list A :=
  match l with
  | [] => [x]
  | y :: r => if k y <? k x then y :: insert_by k x r else x :: l
  end.

Definition order_by {A} (k : A -> Z) (l : list A) : list A :=
  fold_right (insert_by k) [] l.

(** [MAX(col)] over rows: NULL for no row. *)
Definition max_of (l : list Z) : option Z :=
  match l with
  | [] => None
  | x :: r => Some (fold_left Z.max r x)
  end.

Definition sum_of (l : list Z) : Z := fold_left Z.add l 0.

(** The ranges of the column types INTEGER and BIGINT, and the length limit
    of VARCHAR(n); a value outside makes the statement fail. *)
Definition int4 (z : Z) : bool := (- 2 ^ 31 <=? z) && (z <? 2 ^ 31).
Definition int8 (z : Z) : bool := (- 2 ^ 63 <=? z) && (z <? 2 ^ 63).
(** A text column holds any text without the character NUL. *)
Definition text (s : string) : bool :=
  negb (existsb (Ascii.eqb Ascii.zero) (list_ascii_of_string s)).

Definition varchar (n : nat) (s : string) : bool :=
  text s && Nat.leb (String.length s) n.

Definition text_or_null (s : option string) : bool :=
  match s with
  | Some x => text x
  | None => true
  end.

Definition varchar_or_null (n : nat) (s : option string) : bool :=
  match s with
  | Some x => varchar n x
  | None => true
  end.

(** The value that a column of type BIGINT or INTEGER takes from a number
    parameter: the integer of its text, when it is one within the range. *)
Definition as_int8 (x : number) : option Z :=
  match Number.integer_text x with
  | Some z => if int8 z then Some z else None
  | None => None
  end.

Definition as_int4 (x : number) : option Z :=
  match Number.integer_text x with
  | Some z => if int4 z then Some z else None
  | None => None
  end.

(** The same for a parameter that may be NULL. *)
Definition nullable {A} (f : number -> option A) (x : option number)
  : option (option A) :=
  match x with
  | None => Some None
  | Some n => option_map Some (f n)
  end.

(** The day ([DATE]) of an instant given in milliseconds. *)
Definition day_of_instant (ms : Z) : Z := ms / 86400000.

End Store.

(* ================================================================= *)
(** ** src/lib/queries/billionaires.ts *)

Module Billionaires.
Import JS Effect Store Text.
Local Open Scope eff_scope.

(** The argument of [upsertBillionaire].  The field [name] is declared a
    string; a feed record without [personName] makes it [undefined].
    [birthDate] is a [Date], given by its instant in milliseconds. *)
Record UpsertData : Type := mkUpsertData {
  u_name : option string;
  u_slug : string;
  u_gender : option string;
  u_country : option string;
  u_industries : option (list string);
  u_birthDate : option Z;
  u_imageUrl : option string;
  u_bio : option string;
  u_forbesUri : option string
}.

(** The row written for [data]: [x || null] for the optional columns,
    [data.industries || []]; [birth_date] keeps the day of the instant. *)
Definition row_of (data : UpsertData) (name : string) (id created now : Z)
  : Billionaire :=
  mkBillionaire id name (u_slug data)
    (truthy (u_gender data)) (truthy (u_country data))
    (match u_industries data with Some l => l | None => [] end)
    (option_map day_of_instant (u_birthDate data))
    (truthy (u_imageUrl data)) (truthy (u_bio data))
    (truthy (u_forbesUri data)) created now.

(** The texts fit their columns: VARCHAR(255) for [person_name], [slug] and
    [country_of_citizenship], VARCHAR(50) for [gender], VARCHAR(500) for
    [forbes_uri], TEXT for [image_url], [bio] and the elements of
    [industries]. *)
Definition fits (data : UpsertData) (name : string) : bool :=
  varchar 255 name && varchar 255 (u_slug data)
  && varchar_or_null 50 (truthy (u_gender data))
  && varchar_or_null 255 (truthy (u_country data))
  && varchar_or_null 500 (truthy (u_forbesUri data))
  && text_or_null (truthy (u_imageUrl data))
  && text_or_null (truthy (u_bio data))
  && forallb text (match u_industries data with Some l => l | None => [] end).

(** The rows with the given slug. *)
Definition has_slug (sl : string) (b : Billionaire) : bool := String.eqb (slug b) sl.

(** [SELECT id FROM billionaires WHERE slug = $1 LIMIT 1]. *)
Definition select_id_by_slug (sl : string) (s : Store.t) : list Z :=
  firstn 1 (map b_id (filter (has_slug sl) (billionaires s))).

(** The table after [INSERT INTO billionaires ... ON CONFLICT (slug) DO
    UPDATE SET ...]: a conflicting row keeps its id and [created_at]. *)
Definition upserted_rows (data : UpsertData) (name : string) (s : Store.t)
  : list Billionaire :=
  upsert (has_slug (u_slug data))
    (fun b => row_of data name (b_id b) (b_created_at b) (current_timestamp s))
    (row_of data name (billionaires_id_seq s) (current_timestamp s) (current_timestamp s))
    (billionaires s).

(** [INSERT INTO billionaires ... ON CONFLICT (slug) DO UPDATE SET ...
    RETURNING id].  A value is drawn from the id sequence in every case;
    a NULL [person_name] violates NOT NULL, and a text that does not fit its
    column is refused. *)
Definition insert_on_conflict_update (data : UpsertData) (s : Store.t)
  : outcome (list Z) * Store.t :=
  let id := billionaires_id_seq s in
  match u_name data with
  | None =>
      (Thrown (DatabaseError "null value in column person_name violates not-null constraint"),
       set_billionaires (billionaires s) (id + 1) s)
  | Some name =>
      if fits data name
      then
        let rows := upserted_rows data name s in
        (Returned (map b_id (filter (has_slug (u_slug data)) rows)),
         set_billionaires rows (id + 1) s)
      else
        (Thrown (DatabaseError "text not accepted by its column"),
         set_billionaires (billionaires s) (id + 1) s)
  end.

(** [upsertBillionaire]: returns [(id, wasCreated)]. *)
Definition upsertBillionaire (data : UpsertData) : M Store.t (Z * bool) :=
  existingResult <- query_select (select_id_by_slug (u_slug data)) ;;
  let wasCreated := Nat.eqb (List.length existingResult) 0 in
  result <- query_write (insert_on_conflict_update data) ;;
  match result with
  | id :: _ => ret (id, wasCreated)
  | [] => throw (TypeError "Cannot read properties of undefined (reading 'id')")
  end.

(** The argument of [insertDailySnapshot]; [billionaireId] and
    [dataSourceId] are ids read from the store, as at the call site. *)
Record SnapshotData : Type := mkSnapshotData {
  billionaireId : Z;
  snapshotDate : Z;
  netWorth : number;
  s_rank : option number;
  dailyChange : option number;
  dataSourceId : option Z
}.

(** [x || null] on an optional number: [undefined], [null] and [0] give NULL. *)
Definition or_null (x : option Z) : option Z :=
  match x with
  | Some 0 => None
  | other => other
  end.

(** The same where the number need not be whole: NaN is falsy too. *)
Definition number_or_null (x : option number) : option number :=
  match x with
  | Some (Num a) => if Qeq_bool a 0 then None else Some (Num a)
  | Some NaN => None
  | other => other
  end.

Definition same_day (a b : DailySnapshot) : bool :=
  (ds_billionaire_id a =? ds_billionaire_id b) && (snapshot_date a =? snapshot_date b).

(** [INSERT INTO daily_snapshots ... ON CONFLICT (billionaire_id,
    snapshot_date) DO UPDATE SET ...]. *)
Definition upsert_snapshot (row : DailySnapshot) (l : list DailySnapshot)
  : list DailySnapshot :=
  upsert (same_day row) (fun _ => row) row l.

(** The row that the parameters of [insertDailySnapshot] denote, when the
    columns accept them: [net_worth] and [daily_change] are BIGINT, [rank]
    is INTEGER. *)
Definition snapshot_of (data : SnapshotData) : option DailySnapshot :=
  match as_int8 (netWorth data),
        nullable as_int4 (number_or_null (s_rank data)),
        nullable as_int8 (number_or_null (dailyChange data)) with
  | Some worth, Some rk, Some change =>
      Some (mkDailySnapshot (billionaireId data) (snapshotDate data) worth rk
              change (or_null (dataSourceId data)))
  | _, _, _ => None
  end.

(** [insertDailySnapshot]. *)
Definition insertDailySnapshot (data : SnapshotData) : M Store.t unit :=
  query_write (fun s =>
    match snapshot_of data with
    | Some row =>
        (Returned tt, set_daily_snapshots (upsert_snapshot row (daily_snapshots s)) s)
    | None =>
        (Thrown (DatabaseError "value not accepted by an integer column"), s)
    end).

(** A row of the result of [getBillionaireHistory]. *)
Record HistoryRow : Type := mkHistoryRow {
  h_snapshot_date : Z;
  h_net_worth : Z;
  h_rank : option Z
}.

(** The whole number of days carried by a validated [days]. *)
Definition days_of (days : number) : Z :=
  match days with
  | Num a => Qfloor a
  | _ => 0
  end.

(** [SELECT snapshot_date, net_worth, rank FROM daily_snapshots
     WHERE billionaire_id = $1
       AND snapshot_date >= CURRENT_DATE - ($2 || ' days')::INTERVAL
     ORDER BY snapshot_date ASC]. *)
Definition select_history (id : Z) (days : Z) (s : Store.t) : list HistoryRow :=
  map (fun ds => mkHistoryRow (snapshot_date ds) (net_worth ds) (rank ds))
      (order_by snapshot_date
         (filter (fun ds => (ds_billionaire_id ds =? id)
                            && (current_date s - days <=? snapshot_date ds))
                 (daily_snapshots s))).

(** [getBillionaireHistory]. *)
Definition getBillionaireHistory (id : Z) (days : number)
  : M Store.t (list HistoryRow) :=
  if negb (Number.isInteger days) || Number.lt days 1 || Number.gt days 365
  then throw (Error "Invalid days parameter. Must be an integer between 1 and 365.")
  else query_select (select_history id (days_of days)).

End Billionaires.

(* ================================================================= *)
(** ** src/lib/queries/comparisons.ts *)

Module Comparisons.
Import JS Effect Store Text.
Local Open Scope eff_scope.

Definition VALID_REGIONS : list string :=
  ["Global"; "United States"; "Sub-Saharan Africa"]%string.

(** [VALID_REGIONS.includes(region)]. *)
Definition includes (l : list string) (x : string) : bool :=
  existsb (String.eqb x) l.

(** An element of the result of [getAggregateComparisons]. *)
Record AggregateComparison : Type := mkAggregateComparison {
  displayName : string;
  ac_quantity : number;
  ac_unit : string;
  ac_description : string;
  costPerUnit : number
}.

(** [SELECT value FROM site_config WHERE key = 'wealth_threshold' LIMIT 1]. *)
Definition select_threshold (s : Store.t) : list string :=
  firstn 1 (map value
              (filter (fun c => String.eqb (key c) "wealth_threshold") (site_config s))).

Definition in_region (r : string) (c : ComparisonCost) : bool :=
  match region c with
  | Some x => String.eqb x r
  | None => false
  end.

(** The rows [WHERE active = true AND region = $1] of [comparison_costs]. *)
Definition active_in_region (r : string) (s : Store.t) : list ComparisonCost :=
  filter (fun c => active c && in_region r c) (comparison_costs s).

(** [SELECT * FROM comparison_costs WHERE active = true AND region = $1
     ORDER BY display_order ASC LIMIT 6]. *)
Definition select_costs_by_region (r : string) (s : Store.t) : list ComparisonCost :=
  firstn 6 (order_by display_order (active_in_region r s)).

(** The wealth above the threshold, in millions and in USD, as both functions
    of the module compute it. *)
Definition usableWealthMillions (wealthMillions thresholdUSD : number) : number :=
  let thresholdMillions := Number.div thresholdUSD (of_Z 1000000) in
  Number.Math_max0 (Number.sub wealthMillions thresholdMillions).

Definition usableWealthUSD (wealthMillions thresholdUSD : number) : number :=
  Number.mul (usableWealthMillions wealthMillions thresholdUSD) (of_Z 1000000).

(** [Math.floor(usableWealthUSD / Number(cost.cost))], for the value [c] of
    the column [cost]. *)
Definition quantity_of (wealthMillions thresholdUSD : number) (c : Q) : number :=
  Number.Math_floor
    (Number.div (usableWealthUSD wealthMillions thresholdUSD) (Number.of_decimal c)).

(** The callback of [costs.map]: the element computed for a catalog entry. *)
Definition comparison_of (totalWealthMillions thresholdUSD : number)
    (c : ComparisonCost) : AggregateComparison :=
  mkAggregateComparison (display_name c)
    (quantity_of totalWealthMillions thresholdUSD (cost c))
    (cost_unit c) (description c) (Number.of_decimal (cost c)).

(** [getAggregateComparisons]. *)
Definition getAggregateComparisons (totalWealthMillions : number) (region : string)
  : M Store.t (list AggregateComparison) :=
  let validatedRegion :=
    if includes VALID_REGIONS region then region else "Global"%string in
  thresholdResult <- query_select select_threshold ;;
  match thresholdResult with
  | [] => throw (TypeError "Cannot read properties of undefined (reading 'value')")
  | v :: _ =>
      let thresholdUSD := parseInt v in
      costs <- query_select (select_costs_by_region validatedRegion) ;;
      costs <- (if Nat.eqb (List.length costs) 0
                   && negb (String.eqb validatedRegion "Global")
                then query_select (select_costs_by_region "Global")
                else ret costs) ;;
      if Nat.eqb (List.length costs) 0
      then throw (Error "No active comparison costs found in database. Please seed comparison_costs table.")
      else ret (map (comparison_of totalWealthMillions thresholdUSD) costs)
  end.

(** [SELECT MAX(snapshot_date) FROM daily_snapshots WHERE billionaire_id = b.id]. *)
Definition max_snapshot_date (id : Z) (s : Store.t) : option Z :=
  max_of (map snapshot_date
            (filter (fun ds => ds_billionaire_id ds =? id) (daily_snapshots s))).

Definition is_date (d : option Z) (x : Z) : bool :=
  match d with
  | Some m => x =? m
  | None => false
  end.

(** [SELECT b.id, ds.net_worth FROM billionaires b
     JOIN daily_snapshots ds ON b.id = ds.billionaire_id
     WHERE ds.snapshot_date = (SELECT MAX(snapshot_date) ...)]. *)
Definition select_latest_net_worth (s : Store.t) : list (Z * Z) :=
  flat_map
    (fun b =>
       map (fun ds => (b_id b, net_worth ds))
           (filter (fun ds => (ds_billionaire_id ds =? b_id b)
                              && is_date (max_snapshot_date (b_id b) s) (snapshot_date ds))
                   (daily_snapshots s)))
    (billionaires s).

(** [SELECT id, cost FROM comparison_costs WHERE active = true]. *)
Definition select_active_costs (s : Store.t) : list (Z * Q) :=
  map (fun c => (cc_id c, cost c)) (filter active (comparison_costs s)).

Definition same_calculation (a b : CalculatedComparison) : bool :=
  (calc_billionaire_id a =? calc_billionaire_id b)
  && (comparison_cost_id a =? comparison_cost_id b)
  && (calculation_date a =? calculation_date b).

(** [INSERT INTO calculated_comparisons ... ON CONFLICT (billionaire_id,
    comparison_cost_id, calculation_date) DO UPDATE SET quantity = ...,
    net_worth_used = ...]. *)
Definition upsert_comparison (row : CalculatedComparison)
    (l : list CalculatedComparison) : list CalculatedComparison :=
  upsert (same_calculation row) (fun _ => row) row l.

(** The row that the parameters of the INSERT denote, when the columns
    accept them: [net_worth_used] and [quantity] are BIGINT. *)
Definition comparison_row (billionaireId costId calculationDate : Z)
    (usableWealthMillions quantity : number) : option CalculatedComparison :=
  match as_int8 usableWealthMillions, as_int8 quantity with
  | Some used, Some q =>
      Some (mkCalculatedComparison billionaireId costId calculationDate used q)
  | _, _ => None
  end.

Definition insert_comparison (row : option CalculatedComparison) : M Store.t unit :=
  query_write (fun s =>
    match row with
    | Some r =>
        (Returned tt,
         set_calculated_comparisons (upsert_comparison r (calculated_comparisons s)) s)
    | None =>
        (Thrown (DatabaseError "invalid input syntax for type bigint"), s)
    end).

(** The body of the inner loop for one billionaire and one cost. *)
Definition store_one (calculationDate : Z) (thresholdUSD : number)
    (billionaire : Z * Z) (comparisonsCreated : Z) (c : Z * Q) : M Store.t Z :=
  let netWorthMillions := Number.of_integer (snd billionaire) in
  let q := quantity_of netWorthMillions thresholdUSD (snd c) in
  if Number.gt0 q then
    insert_comparison
      (comparison_row (fst billionaire) (fst c) calculationDate
         (usableWealthMillions netWorthMillions thresholdUSD) q) ;;;
    ret (comparisonsCreated + 1)
  else ret comparisonsCreated.

(** [calculateAndStoreComparisons]. *)
Definition calculateAndStoreComparisons (calculationDate : Z) : M Store.t Z :=
  thresholdResult <- query_select select_threshold ;;
  match thresholdResult with
  | [] => throw (TypeError "Cannot read properties of undefined (reading 'value')")
  | v :: _ =>
      let thresholdUSD := parseInt v in
      billionaires <- query_select select_latest_net_worth ;;
      costs <- query_select select_active_costs ;;
      foldM (fun created billionaire =>
               foldM (store_one calculationDate thresholdUSD billionaire) costs created)
            billionaires 0
  end.

End Comparisons.

(* ================================================================= *)
(** ** src/lib/queries/stats.ts *)

Module Stats.
Import JS Effect Store Text.
Local Open Scope eff_scope.

Record AggregateStatsData : Type := mkAggregateStatsData {
  totalWealth : Z;
  billionaireCount : Z;
  topComparisons : list Comparisons.AggregateComparison;
  lastUpdated : Z
}.

(** The rows of [daily_snapshots ds WHERE ds.snapshot_date =
    (SELECT MAX(snapshot_date) FROM daily_snapshots)
    AND ds.rank IS NOT NULL AND ds.rank <= 50]. *)
Definition top_rows (s : Store.t) : list DailySnapshot :=
  let latest := max_of (map snapshot_date (daily_snapshots s)) in
  filter (fun ds => Comparisons.is_date latest (snapshot_date ds)
                    && match rank ds with
                       | Some r => r <=? 50
                       | None => false
                       end)
         (daily_snapshots s).

(** [SELECT SUM(ds.net_worth) as total, COUNT( * ) as count ...]: one row;
    the sum of no row is NULL. *)
Definition select_wealth (s : Store.t) : option Z * Z :=
  let rows := top_rows s in
  (match rows with
   | [] => None
   | _ => Some (sum_of (map net_worth rows))
   end,
   Z.of_nat (List.length rows)).

(** [SELECT updated_at FROM site_config WHERE key = 'last_manual_update' LIMIT 1]. *)
Definition select_last_update (s : Store.t) : list Z :=
  firstn 1 (map sc_updated_at
              (filter (fun c => String.eqb (key c) "last_manual_update") (site_config s))).

(** [getAggregateStats]; [now] is the value of [new Date()]. *)
Definition getAggregateStats (now : Z) : M Store.t AggregateStatsData :=
  wealthResult <- query_select select_wealth ;;
  let totalWealth := match fst wealthResult with Some t => t | None => 0 end in
  let billionaireCount := snd wealthResult in
  lastUpdateResult <- query_select select_last_update ;;
  let lastUpdated := match lastUpdateResult with u :: _ => u | [] => now end in
  topComparisons <- Comparisons.getAggregateComparisons (of_Z totalWealth) "Global" ;;
  ret (mkAggregateStatsData totalWealth billionaireCount
         (firstn 6 topComparisons) lastUpdated).

End Stats.

(* ================================================================= *)
(** ** The credential check of the cron trigger *)

Module Auth.
Import JS.

(** One iteration of the loop body:
    [result |= a.charCodeAt(i) ^ b.charCodeAt(i)]. *)
Definition step (a b : jsstring) (result : Z) (i : nat) : Z :=
  bitor (ToInt32 result)
        (bitxor (ToInt32_opt (charCodeAt a i)) (ToInt32_opt (charCodeAt b i))).

(** [timingSafeEqual] of route.ts. *)
Definition timingSafeEqual (a b : jsstring) : bool :=
  if negb (Nat.eqb (List.length a) (List.length b)) then false
  else
    let result := fold_left (step a b) (seq 0 (List.length a)) 0 in
    result =? 0.

(** Outcome of the two checks that guard the pipeline. *)
Inductive gate : Type :=
| ConfigError      (* HTTP 500, 'Server configuration error' *)
| Unauthorized     (* HTTP 401 *)
| Authorized.

(** [!s] for a possibly missing string: true for null and for the empty string. *)
Definition falsy (s : option jsstring) : bool :=
  match s with
  | None => true
  | Some [] => true
  | Some (_ :: _) => false
  end.

Definition bearer : jsstring := of_string "Bearer ".

(** The first two guards of [GET]. *)
Definition authorize (cronSecret authHeader : option jsstring) : gate :=
  match cronSecret with
  | None => ConfigError
  | Some secret =>
    if (falsy cronSecret || Nat.ltb (List.length secret) 32)%bool then ConfigError
    else
      let expectedAuth := bearer ++ secret in
      match authHeader with
      | None => Unauthorized
      | Some h =>
        if (falsy authHeader || negb (timingSafeEqual h expectedAuth))%bool
        then Unauthorized
        else Authorized
      end
  end.

End Auth.

(* ================================================================= *)
(** ** src/lib/queries/metadata.ts, config.ts and data-sources.ts *)

Module Admin.
Import JS Effect Store Text.
Local Open Scope eff_scope.

(** The argument of [logUpdateMetadata]. *)
Record LogUpdateParams : Type := mkLogUpdateParams {
  updateType : string;
  l_dataSourceId : option Z;
  l_recordsUpdated : Z;
  l_recordsCreated : Z;
  l_recordsFailed : Z;
  l_status : Status;
  errorMessage : option string;
  executionTimeMs : Z;
  startedAt : Z;
  completedAt : Z
}.

(** [logUpdateMetadata]: appends one row and returns its id (the serial of
    the table is the number of rows logged so far). *)
Definition logUpdateMetadata (params : LogUpdateParams) : M Store.t Z :=
  query_write (fun s =>
    let row := mkUpdateMetadata (updateType params)
                 (Billionaires.or_null (l_dataSourceId params))
                 (l_recordsUpdated params) (l_recordsCreated params)
                 (l_recordsFailed params) (l_status params)
                 (truthy (errorMessage params)) (executionTimeMs params)
                 (startedAt params) (completedAt params) in
    let rows := update_metadata s ++ [row] in
    (Returned (Z.of_nat (List.length rows)), set_update_metadata rows s)).

(** [updateConfigValue]. *)
Definition updateConfigValue (k v : string) : M Store.t unit :=
  query_write (fun s =>
    (Returned tt,
     set_site_config
       (map (fun c => if String.eqb (key c) k
                      then mkSiteConfig (key c) v (current_timestamp s)
                      else c)
            (site_config s)) s)).

(** [getDataSourceByName]: the first matching row or null. *)
Definition getDataSourceByName (name : string) : M Store.t (option DataSource) :=
  rows <- query_select (fun s =>
            filter (fun d => String.eqb (src_name d) name) (data_sources s)) ;;
  ret (hd_error rows).

(** [updateDataSourceAccessed]. *)
Definition updateDataSourceAccessed (id : Z) : M Store.t unit :=
  query_write (fun s =>
    (Returned tt,
     set_data_sources
       (map (fun d => if src_id d =? id
                      then mkDataSource (src_id d) (src_name d) (Some (current_timestamp s))
                      else d)
            (data_sources s)) s)).

End Admin.

(* ================================================================= *)
(** ** src/app/api/cron/update-billionaires/route.ts *)

Module Route.
Import JS Effect Store Text Billionaires Admin.
Local Open Scope eff_scope.

(** A record of the feed.  All fields may be missing from the JSON; a
    number is given by the rational that its literal writes. *)
Record ForbesPerson : Type := mkForbesPerson {
  uri : option string;
  personName : option string;
  squareImage : option string;
  countryOfCitizenship : option string;
  p_industries : option (list string);
  finalWorth : option Q;
  p_rank : option Q;
  p_gender : option string;
  birthDate : option Q;
  p_bio : option (list string)
}.

(** What [fetchForbesData] does: it throws, or returns the list (empty when
    the payload has none).  An element of the list is a record or [null]. *)
Inductive Fetch : Type :=
| FetchFailed
| Fetched (persons : list (option ForbesPerson)).

Definition MIN_INTERVAL_MS : Z := 60000.

(** The local variables of [GET] that the [try] block and its handler share,
    next to the store. *)
Record Run : Type := mkRun {
  store : Store.t;
  recordsUpdated : Z;
  recordsCreated : Z;
  recordsFailed : Z;
  dataSourceId : option Z
}.

Definition set_store (s : Store.t) (r : Run) : Run :=
  mkRun s (recordsUpdated r) (recordsCreated r) (recordsFailed r) (dataSourceId r).

Definition on_store {A} (m : M Store.t A) : M Run A := zoom store set_store m.

Definition count_created (r : Run) : Run :=
  mkRun (store r) (recordsUpdated r) (recordsCreated r + 1) (recordsFailed r) (dataSourceId r).
Definition count_updated (r : Run) : Run :=
  mkRun (store r) (recordsUpdated r + 1) (recordsCreated r) (recordsFailed r) (dataSourceId r).
Definition count_failed (r : Run) : Run :=
  mkRun (store r) (recordsUpdated r) (recordsCreated r) (recordsFailed r + 1) (dataSourceId r).
Definition set_dataSourceId (d : option Z) (r : Run) : Run :=
  mkRun (store r) (recordsUpdated r) (recordsCreated r) (recordsFailed r) d.

(** [SELECT net_worth FROM daily_snapshots WHERE billionaire_id = $1
     AND snapshot_date = $2::date - INTERVAL '1 day' LIMIT 1]. *)
Definition select_yesterday (id today : Z) (s : Store.t) : list Z :=
  firstn 1 (map net_worth
              (filter (fun ds => (ds_billionaire_id ds =? id)
                                 && (snapshot_date ds =? today - 1))
                      (daily_snapshots s))).

(** [Math.round(person.finalWorth || 0)]; see [Number.Math_round_number]
    for a worth beyond the range of the doubles. *)
Definition currentWorthMillions (person : ForbesPerson) : Z :=
  Number.Math_round_number
    (match finalWorth person with
     | Some w => Number.of_decimal w
     | None => Num 0
     end).

(** The daily change computed from the rows of [select_yesterday]:
    [Math.round(currentWorthMillions - Number(rows[0].net_worth))]. *)
Definition dailyChangeMillions (current : Z) (yesterdaySnapshot : list Z) : option Z :=
  match yesterdaySnapshot with
  | yesterdayWorth :: _ =>
      Some (Number.Math_round_number
              (Number.sub (of_Z current) (Number.of_integer yesterdayWorth)))
  | [] => None
  end.

(** [person.uri || person.personName], the argument of [createSlug]. *)
Definition slug_source (person : ForbesPerson) : option string :=
  or_else (uri person) (personName person).

(** The validated [birthDate]: a Unix timestamp in seconds within the sane
    range, as the instant of [new Date(person.birthDate * 1000)]. *)
Definition validBirthDate (person : ForbesPerson) : option Z :=
  match birthDate person with
  | Some literal =>
      let b := Number.of_decimal literal in
      if (Number.gt b 0 && Number.lt b 4000000000)%bool
      then match Number.mul b (of_Z 1000) with
           | Num ms => Some (Qfloor ms)
           | _ => None
           end
      else None
  | None => None
  end.

(** The argument passed to [upsertBillionaire]. *)
Definition upsert_data (person : ForbesPerson) (slug : string) : UpsertData :=
  mkUpsertData (personName person) slug (p_gender person)
    (countryOfCitizenship person) (p_industries person) (validBirthDate person)
    (normalizeImageUrl (squareImage person))
    (match p_bio person with Some l => hd_error l | None => None end)
    (uri person).

(** The argument passed to [insertDailySnapshot]. *)
Definition snapshot_data (today : Z) (person : ForbesPerson) (billionaireId : Z)
    (yesterdaySnapshot : list Z) (dataSourceId : option Z) : SnapshotData :=
  let current := currentWorthMillions person in
  mkSnapshotData billionaireId today (of_Z current)
    (option_map Number.of_decimal (p_rank person))
    (option_map of_Z (dailyChangeMillions current yesterdaySnapshot))
    dataSourceId.

(** The body of the [try] inside the loop, for one record. *)
Definition process_person (today : Z) (person : ForbesPerson) : M Run unit :=
  slug <- match slug_source person with
          | Some n => ret (createSlug n)
          | None => throw (TypeError "Cannot read properties of undefined (reading 'toLowerCase')")
          end ;;
  r <- on_store (upsertBillionaire (upsert_data person slug)) ;;
  let '(billionaireId, wasCreated) := r in
  modify (if wasCreated : bool then count_created else count_updated) ;;;
  yesterdaySnapshot <- on_store (query_select (select_yesterday billionaireId today)) ;;
  run <- get ;;
  on_store (insertDailySnapshot
              (snapshot_data today person billionaireId yesterdaySnapshot
                 (dataSourceId run))).

(** The snapshot row written for a record, when the store accepts it: its
    delta is the computed daily change passed through [x || null]. *)
Definition snapshot_row (today : Z) (p : ForbesPerson) (id : Z) (r : Run)
  : option DailySnapshot :=
  snapshot_of (snapshot_data today p id (select_yesterday id today (store r))
                 (dataSourceId r)).

(** The slug and the name under which the store accepts the entity of a
    record: the record has a source for its slug and a display name, and
    its texts fit their columns. *)
Definition entity_of (p : ForbesPerson) : option (string * string) :=
  match slug_source p, personName p with
  | Some n, Some name =>
      if fits (upsert_data p (createSlug n)) name
      then Some (createSlug n, name)
      else None
  | _, _ => None
  end.

(** The tables and clocks that the loop over the records does not write. *)
Definition reference_data (s : Store.t) :=
  (comparison_costs s, calculated_comparisons s, site_config s, data_sources s,
   update_metadata s, current_date s, current_timestamp s).

(** One iteration of the loop for a record: the body in its own [try], the
    handler counting the failure. *)
Definition process_record (today : Z) (person : ForbesPerson) : M Run unit :=
  try_catch (process_person today person) (fun _ => modify count_failed).

(** One iteration of the loop for an element of the list.  On [null] the
    body throws at [person.uri]; the handler then reads [person.personName]
    for its message before it counts, and throws in its turn. *)
Definition process_element (today : Z) (element : option ForbesPerson) : M Run unit :=
  match element with
  | Some person => process_record today person
  | None => throw (TypeError "Cannot read properties of null (reading 'personName')")
  end.

(** The loop over the first fifty elements. *)
Definition process_batch (today : Z) (forbesData : list (option ForbesPerson))
  : M Run unit :=
  forM (firstn 50 forbesData) (process_element today).

(** The elements that the loop of a run goes through. *)
Definition batch_of (feed : Fetch) : list (option ForbesPerson) :=
  match feed with
  | Fetched l => firstn 50 l
  | FetchFailed => []
  end.

(** The run as the loop finds it: the data source looked up, no record
    counted yet. *)
Definition initial_run (s : Store.t) : Run :=
  set_dataSourceId
    (option_map src_id
       (hd_error (filter (fun d => String.eqb (src_name d) "Forbes Real-Time Billionaires")
                         (data_sources s))))
    (mkRun (tick s) 0 0 0 None).

(** The instants read from the clock of the server process. *)
Record Clock : Type := mkClock {
  startTime : Z;          (* [Date.now()] on entry *)
  now : Z;                (* [Date.now()] at the rate limit check *)
  endTime : Z;            (* [Date.now()] when the run is logged *)
  isoNow : string         (* [new Date().toISOString()] *)
}.

Inductive Response : Type :=
| ServerConfigurationError                     (* 500 *)
| UnauthorizedResponse                         (* 401 *)
| RateLimitExceeded (retryAfter : Z)           (* 429 *)
| UpdateDone (recordsCreated recordsUpdated recordsFailed
              comparisonsCreated executionTimeMs : Z)          (* 200, success: true *)
| UpdateFailed (message : string)
               (recordsCreated recordsUpdated recordsFailed : Z)  (* 500 *)
| Unhandled (e : Effect.exn).                  (* an exception leaves [GET] *)

Definition message_of (e : exn) : string :=
  match e with
  | TypeError m | Error m | DatabaseError m => m
  end.

(** The [try] block of [GET]. *)
Definition try_block (clock : Clock) (today : Z) (feed : Fetch) : M Run Response :=
  dataSource <- on_store (getDataSourceByName "Forbes Real-Time Billionaires") ;;
  modify (set_dataSourceId (option_map src_id dataSource)) ;;;
  forbesData <- match feed with
                | FetchFailed => throw (Error "Forbes API is unavailable")
                | Fetched l => ret l
                end ;;
  if Nat.eqb (List.length forbesData) 0
  then throw (Error "No data received from Forbes API")
  else
    process_batch today forbesData ;;;
    comparisonsCreated <- on_store (Comparisons.calculateAndStoreComparisons today) ;;
    on_store (updateConfigValue "last_manual_update" (isoNow clock)) ;;;
    run <- get ;;
    match or_null (dataSourceId run) with
    | Some id => on_store (updateDataSourceAccessed id)
    | None => ret tt
    end ;;;
    let executionTimeMs := endTime clock - startTime clock in
    run <- get ;;
    on_store (logUpdateMetadata
      (mkLogUpdateParams "daily_update" (dataSourceId run)
         (recordsUpdated run) (recordsCreated run) (recordsFailed run)
         (if recordsFailed run =? 0 then success else partial)
         None executionTimeMs (startTime clock) (endTime clock))) ;;;
    ret (UpdateDone (recordsCreated run) (recordsUpdated run) (recordsFailed run)
                    comparisonsCreated executionTimeMs).

(** The handler of the outer [catch]. *)
Definition catch_block (clock : Clock) (error : exn) : M Run Response :=
  let executionTimeMs := endTime clock - startTime clock in
  run <- get ;;
  on_store (logUpdateMetadata
    (mkLogUpdateParams "daily_update" (dataSourceId run)
       (recordsUpdated run) (recordsCreated run) (recordsFailed run)
       failed (Some (message_of error)) executionTimeMs
       (startTime clock) (endTime clock))) ;;;
  ret (UpdateFailed (message_of error)
         (recordsCreated run) (recordsUpdated run) (recordsFailed run)).

(** [Math.ceil(ms / 1000)]. *)
Definition ceil_seconds (ms : Z) : Z := - ((- ms) / 1000).

(** [GET]: the response, the entry of [lastRunTime] and the store afterwards. *)
Definition GET (cronSecret authHeader : option jsstring) (clock : Clock)
    (today : Z) (feed : Fetch) (lastRunTime : option Z) (s : Store.t)
  : Response * option Z * Store.t :=
  match Auth.authorize cronSecret authHeader with
  | Auth.ConfigError => (ServerConfigurationError, lastRunTime, s)
  | Auth.Unauthorized => (UnauthorizedResponse, lastRunTime, s)
  | Auth.Authorized =>
      let lastRun := match lastRunTime with Some t => t | None => 0 end in
      if now clock - lastRun <? MIN_INTERVAL_MS
      then (RateLimitExceeded (ceil_seconds (MIN_INTERVAL_MS - (now clock - lastRun))),
            lastRunTime, s)
      else
        let '(o, run) :=
          try_catch (try_block clock today feed) (catch_block clock)
                    (mkRun s 0 0 0 None) in
        (match o with
         | Returned resp => resp
         | Thrown e => Unhandled e
         end,
         Some (now clock), store run)
  end.

End Route.

(* ================================================================= *)
(** ** Sample data *)

Module Examples.
Import JS Store Billionaires Route.

Definition catalog : list ComparisonCost :=
  [ mkComparisonCost 1 "Water wells" 15000 "well" "A drilled well"
      (Some "Global"%string) "water" true 1;
    mkComparisonCost 2 "Primary schools" 500000 "school" "A school building"
      (Some "Global"%string) "education" true 2;
    mkComparisonCost 3 "Homes" 350000 "home" "A family home"
      (Some "United States"%string) "housing" true 1;
    mkComparisonCost 4 "Clinics" 80000 "clinic" "A rural clinic"
      (Some "Sub-Saharan Africa"%string) "healthcare" false 1 ]%string.

Definition config : list SiteConfig :=
  [ mkSiteConfig "wealth_threshold" "10000000" 0;
    mkSiteConfig "last_manual_update" "never" 0 ]%string.

Definition sources : list DataSource :=
  [ mkDataSource 1 "Forbes Real-Time Billionaires" None ]%string.

(** A seeded store without any billionaire; the day is day 100. *)
Definition seeded : Store.t :=
  mkStore [] 1 [] catalog [] config sources [] 100 8640000000 0.

Definition entity (id : Z) (name sl : string) : Billionaire :=
  mkBillionaire id name sl None None [] None None None (Some sl) 0 0.

Definition with_entities (bs : list Billionaire) (ds : list DailySnapshot) : Store.t :=
  mkStore bs (1 + Z.of_nat (List.length bs)) ds catalog [] config sources []
          100 8640000000 0.

Definition person (u name : string) (worth : Q) (rk : Z) : ForbesPerson :=
  mkForbesPerson (Some u) (Some name) None None None (Some worth)
                 (Some (inject_Z rk)) None None None.

(** A record without display name. *)
Definition nameless (u : string) (worth : Q) (rk : Z) : ForbesPerson :=
  mkForbesPerson (Some u) None None None None (Some worth)
                 (Some (inject_Z rk)) None None None.

Definition ada : Billionaire := entity 1 "Ada Lovelace" "ada-lovelace".
Definition bob : Billionaire := entity 2 "Bob Noyce" "bob-noyce".

(** Ada had 500 yesterday (day 99). *)
Definition ada_yesterday : Store.t :=
  with_entities [ada] [mkDailySnapshot 1 99 500 (Some 1) None (Some 1)].

(** Ada has snapshots on day 1 (100) and on day 3 (200). *)
Definition ada_two_days : Store.t :=
  with_entities [ada]
    [mkDailySnapshot 1 1 100 (Some 1) None None;
     mkDailySnapshot 1 3 200 (Some 1) (Some 100) None].

(** Ada was last seen on day 1, Bob on day 2. *)
Definition ada_stale : Store.t :=
  with_entities [ada; bob]
    [mkDailySnapshot 1 1 100 (Some 1) None None;
     mkDailySnapshot 2 2 200 (Some 2) None None].

(** Ada has one snapshot on each of the days 70 to 100; today is day 100. *)
Definition ada_month : Store.t :=
  with_entities [ada]
    (map (fun i => mkDailySnapshot 1 (70 + Z.of_nat i) (500 + Z.of_nat i) (Some 1) None None)
         (seq 0 31)).

Definition clock : Clock := mkClock 8640000000 8640000000 8640001500 "2025-11-10T00:00:00.000Z".

(** Fifty records of distinct names, the thirty-seventh being [odd]. *)
Definition batch_of_50 (odd : string -> Z -> ForbesPerson)
  : list (option ForbesPerson) :=
  map (fun i =>
         let u := String "p" (String (ascii_of_nat (48 + i / 10))
                                (String (ascii_of_nat (48 + i mod 10)) "")) in
         Some (if Nat.eqb i 36 then odd u (Z.of_nat (i + 1))
               else person u u 1000 (Z.of_nat (i + 1))))
      (seq 0 50).

(** The thirty-seventh record has no display name. *)
Definition batch50 : list (option ForbesPerson) :=
  batch_of_50 (fun u rk => nameless u 1000 rk).

(** The thirty-seventh record has a net worth of 1e19, which no BIGINT
    column holds. *)
Definition batch50_overflow : list (option ForbesPerson) :=
  batch_of_50 (fun u rk => person u u (inject_Z (10 ^ 19)) rk).

(** A second run of the trigger, one minute and a half after [clock]. *)
Definition clock_later : Clock :=
  mkClock 8640090000 8640090000 8640091500 "2025-11-10T00:01:30.000Z".

Definition small_batch : list (option ForbesPerson) :=
  [Some (person "ada-lovelace" "Ada Lovelace" 500 1);
   Some (nameless "anonymous" 300 2);
   Some (person "bob-noyce" "Bob Noyce" 200 3)]%string.

(** A list whose second element is [null]. *)
Definition batch_with_null : list (option ForbesPerson) :=
  [Some (person "ada-lovelace" "Ada Lovelace" 500 1);
   None;
   Some (person "bob-noyce" "Bob Noyce" 200 3)]%string.

(** The threshold set to 10.5 million USD. *)
Definition config_fractional : list SiteConfig :=
  [ mkSiteConfig "wealth_threshold" "10500000" 0;
    mkSiteConfig "last_manual_update" "never" 0 ]%string.

(** Ada with 500 (millions) yesterday, under that threshold. *)
Definition ada_fractional_threshold : Store.t :=
  set_site_config config_fractional ada_yesterday.

(** A catalog entry costing 1.10 USD, and one costing 0.07 USD. *)
Definition cheap_catalog : list ComparisonCost :=
  [ mkComparisonCost 1 "Pencils" (11 # 10) "pencil" "A pencil"
      (Some "Global"%string) "education" true 1;
    mkComparisonCost 2 "Nails" (7 # 100) "nail" "A nail"
      (Some "Global"%string) "housing" true 2 ]%string.

(** Ada with 1000 (millions) on day 99, the catalog being [cheap_catalog]. *)
Definition ada_cheap : Store.t :=
  mkStore [ada] 2 [mkDailySnapshot 1 99 1000 (Some 1) None (Some 1)]
          cheap_catalog [] config sources [] 100 8640000000 0.

Definition secret : jsstring := of_string "0123456789abcdef0123456789abcdef".
Definition header : jsstring := of_string "Bearer 0123456789abcdef0123456789abcdef".

End Examples.

(* ================================================================= *)
(** ** The quantities the specification speaks of *)

Module Spec.
Import JS Store.
Local Open Scope Q_scope.

(** Usable wealth in USD: net worth minus the living reserve, floored at zero. *)
Definition usable_wealth_usd (netWorthUSD thresholdUSD : Q) : Q :=
  if Qlt_le_dec 0 (netWorthUSD - thresholdUSD) then netWorthUSD - thresholdUSD else 0.

(** The quantity affordable: floor of usable wealth over unit cost. *)
Definition affordable (netWorthUSD thresholdUSD unitCost : Q) : Z :=
  Qfloor (usable_wealth_usd netWorthUSD thresholdUSD / unitCost).

(** A number above zero. *)
Definition positive (x : number) : Prop :=
  match x with
  | Num a => 0 < a
  | Infinity => True
  | NaN | NegInfinity => False
  end.

(** The most recent snapshot of an entity at or before a day: its net worth. *)
Definition net_worth_on_or_before (id day : Z) (s : Store.t) : option Z :=
  let eligible :=
    filter (fun ds => (ds_billionaire_id ds =? id)%Z && (snapshot_date ds <=? day)%Z)
           (daily_snapshots s) in
  match max_of (map snapshot_date eligible) with
  | Some m =>
      hd_error (map net_worth (filter (fun ds => (snapshot_date ds =? m)%Z) eligible))
  | None => None
  end.

(** The entities having a snapshot on or before the day, each with the net
    worth of its most recent such snapshot. *)
Definition covered_on_or_before (day : Z) (s : Store.t) : list (Z * Z) :=
  flat_map (fun b => match net_worth_on_or_before (b_id b) day s with
                     | Some w => [(b_id b, w)]
                     | None => []
                     end)
           (billionaires s).


(** [ds] carries the latest date among the snapshots of the entity [id]. *)
Definition latest_for (s : Store.t) (id : Z) (ds : DailySnapshot) : Prop :=
  In ds (daily_snapshots s) /\ ds_billionaire_id ds = id /\
  forall other, In other (daily_snapshots s) -> ds_billionaire_id other = id ->
                (snapshot_date other <= snapshot_date ds)%Z.

(** The key of the uniqueness constraint of [daily_snapshots]. *)
Definition snap_key (ds : DailySnapshot) : Z * Z :=
  (ds_billionaire_id ds, snapshot_date ds).

(** [ds] is the most recent snapshot of its entity. *)
Definition is_latest_of_entity (s : Store.t) (ds : DailySnapshot) : bool :=
  forallb (fun other => negb (ds_billionaire_id other =? ds_billionaire_id ds)%Z
                        || (snapshot_date other <=? snapshot_date ds)%Z)
          (daily_snapshots s).

(** The current top entities by latest rank: the latest snapshot of each
    entity, when its rank is within the top fifty. *)
Definition top_by_latest_rank (s : Store.t) : list DailySnapshot :=
  filter (fun ds => is_latest_of_entity s ds
                    && match rank ds with
                       | Some r => (r <=? 50)%Z
                       | None => false
                       end)
         (daily_snapshots s).

End Spec.

(* ================================================================= *)
(** ** What the bulk pre-computation writes *)

Module Plan.
Import JS Store Comparisons.

(** The statement issued for one billionaire and one cost, if the quantity
    is positive: the row it writes, or [None] when the store refuses it. *)
Definition attempt_for (calculationDate : Z) (thresholdUSD : number)
    (billionaire : Z * Z) (c : Z * Q) : list (option CalculatedComparison) :=
  let netWorthMillions := Number.of_integer (snd billionaire) in
  let q := quantity_of netWorthMillions thresholdUSD (snd c) in
  if Number.gt0 q
  then [comparison_row (fst billionaire) (fst c) calculationDate
          (usableWealthMillions netWorthMillions thresholdUSD) q]
  else [].

(** The statements issued, in the order of the two nested loops. *)
Definition attempts (calculationDate : Z) (thresholdUSD : number)
    (billionaires : list (Z * Z)) (costs : list (Z * Q))
  : list (option CalculatedComparison) :=
  flat_map (fun b => flat_map (attempt_for calculationDate thresholdUSD b) costs)
           billionaires.

(** The rows written by a sequence of statements: those before the first
    refusal, which ends the run. *)
Fixpoint accepted {A} (l : list (option A)) : list A :=
  match l with
  | Some r :: rest => r :: accepted rest
  | _ => []
  end.

Definition is_refusal {A} (o : option A) : bool :=
  match o with
  | Some _ => false
  | None => true
  end.

Definition refused {A} (l : list (option A)) : bool := existsb is_refusal l.

(** The rows written by the run. *)
Definition rows (calculationDate : Z) (thresholdUSD : number)
    (billionaires : list (Z * Z)) (costs : list (Z * Q)) : list CalculatedComparison :=
  accepted (attempts calculationDate thresholdUSD billionaires costs).

(** The store after the statements that write the given rows, one each. *)
Definition write_all (l : list CalculatedComparison) (s : Store.t) : Store.t :=
  fold_left
    (fun s row =>
       tick (set_calculated_comparisons
               (upsert_comparison row (calculated_comparisons s)) s))
    l s.

(** What a sequence of statements makes of the counter and of the store:
    the first refusal is thrown, after the rows before it are written. *)
Definition run_statements (l : list (option CalculatedComparison)) (n : Z)
    (s : Store.t) : Effect.outcome Z * Store.t :=
  if refused l
  then (Effect.Thrown (Effect.DatabaseError "invalid input syntax for type bigint"),
        tick (write_all (accepted l) s))
  else (Effect.Returned (n + Z.of_nat (List.length l)), write_all (accepted l) s).

Definition calc_key (r : CalculatedComparison) : Z * Z * Z :=
  (calc_billionaire_id r, comparison_cost_id r, calculation_date r).

(** The slugs of the entities, alone and with the id of their row, and the
    keys of the snapshots. *)
Definition slugs (s : Store.t) : list string := map slug (billionaires s).

Definition slug_ids (s : Store.t) : list (string * Z) :=
  map (fun b => (slug b, b_id b)) (billionaires s).

Definition snap_keys (s : Store.t) : list (Z * Z) :=
  map Spec.snap_key (daily_snapshots s).

(** The two uniqueness constraints the ingestion relies on. *)
Definition unique_keys (s : Store.t) : Prop :=
  NoDup (slugs s) /\ NoDup (snap_keys s).


(** The store holds what the ingestion of the record [p] on the day [today]
    leaves: the entity under its slug when the store accepts it, and then
    the snapshot of the day when the store accepts that. *)
Definition ingested (today : Z) (p : Route.ForbesPerson) (s : Store.t) : Prop :=
  forall sl name,
    Route.entity_of p = Some (sl, name) ->
    exists id,
      In (sl, id) (slug_ids s) /\
      forall source row,
        Billionaires.snapshot_of
          (Route.snapshot_data today p id (Route.select_yesterday id today s) source)
        = Some row ->
        In (id, today) (snap_keys s).

End Plan.

(* ================================================================= *)
(** ** src/lib/db.ts: [query] and its retries *)

Module Db.

(** What [pool.query] does at one attempt: it resolves with a result or
    rejects with an error, of which [query] only reads the message (an error
    may have none). *)
Inductive Attempt (R : Type) : Type :=
| Resolves (result : R)
| Rejects (message : option string).
Arguments Resolves {R} result.
Arguments Rejects {R} message.

(** [hay.includes(needle)]. *)
Fixpoint includes (needle hay : string) : bool :=
  String.prefix needle hay
  || match hay with
     | EmptyString => false
     | String _ rest => includes needle rest
     end.

(** [isConnectionError]; [message?.includes(...)] of a missing message is
    [undefined], which is falsy. *)
Definition isConnectionError (message : option string) : bool :=
  match message with
  | None => false
  | Some m =>
      includes "Connection terminated" m
      || includes "connection timeout" m
      || includes "ECONNREFUSED" m
  end.

Definition maxRetries : nat := 2.

(** How a call of [query] ends. *)
Inductive Settled (R : Type) : Type :=
| Fulfilled (result : R)                         (* [return result] *)
| Rethrown (message : option string)             (* [throw error] in the handler *)
| FellThrough (lastError : option (option string)).  (* the [throw] after the loop *)
Arguments Fulfilled {R} result.
Arguments Rethrown {R} message.
Arguments FellThrough {R} lastError.

(** A call of [query]: how it ends, how many times [pool.query] was called
    and the delays slept through, in milliseconds. *)
Record Trace (R : Type) : Type := mkTrace {
  settled : Settled R;
  calls : nat;
  waits : list Z
}.
Arguments mkTrace {R} settled calls waits.
Arguments settled {R} t.
Arguments calls {R} t.
Arguments waits {R} t.

(** The loop [for (attempt = 0; attempt <= maxRetries; attempt++)], over the
    values that [attempt] still has to take. *)
Fixpoint attempts {R} (pool : nat -> Attempt R) (todo : list nat)
    (lastError : option (option string)) (waited : list Z) : Trace R :=
  match todo with
  | [] => mkTrace (FellThrough lastError) (S maxRetries) waited
  | attempt :: rest =>
      match pool attempt with
      | Resolves result => mkTrace (Fulfilled result) (S attempt) waited
      | Rejects message =>
          if Nat.eqb attempt maxRetries || negb (isConnectionError message)
          then mkTrace (Rethrown message) (S attempt) waited
          else attempts pool rest (Some message)
                 (waited ++ [100 * 2 ^ Z.of_nat attempt])
      end
  end.

(** [query]; [pool n] is what the [n]-th call of [pool.query] does. *)
Definition query {R} (pool : nat -> Attempt R) : Trace R :=
  attempts pool (seq 0 (S maxRetries)) None [].

End Db.

(* ================================================================= *)
(** ** The readers of src/lib/queries/billionaires.ts *)

Module Readers.
Import JS Effect Store Text Billionaires.
Local Open Scope eff_scope.









(** [SELECT * FROM daily_snapshots WHERE billionaire_id = $1
     ORDER BY snapshot_date DESC LIMIT 1]. *)
Definition select_latest_snapshot (id : Z) (s : Store.t) : list DailySnapshot :=
  firstn 1 (order_by (fun ds => - snapshot_date ds)
              (filter (fun ds => ds_billionaire_id ds =? id) (daily_snapshots s))).

(** [getLatestSnapshot]. *)
Definition getLatestSnapshot (id : Z) : M Store.t (option DailySnapshot) :=
  rows <- query_select (select_latest_snapshot id) ;;
  ret (hd_error rows).

End Readers.

(* ================================================================= *)
(** ** The readers of src/lib/queries/comparisons.ts *)

Module ComparisonReaders.
Import JS Effect Store Text Comparisons.
Local Open Scope eff_scope.

(** [getActiveComparisonCosts]: [SELECT * FROM comparison_costs WHERE
    active = true ORDER BY display_order ASC]. *)
Definition getActiveComparisonCosts : M Store.t (list ComparisonCost) :=
  query_select (fun s => order_by display_order (filter active (comparison_costs s))).

(** A row of the result of [getCalculatedComparisons]: the stored comparison
    with the columns of its catalog entry. *)
Record ComparisonWithCost : Type := mkComparisonWithCost {
  stored : CalculatedComparison;
  cost_display_name : string;
  cost_cost_unit : string;
  cost_description : string;
  cost_category : string;
  cost_display_order : Z;
  cost_per_unit : Q
}.

(** ORDER BY with an arbitrary precedence: a stable insertion sort, rows
    that the precedence does not separate staying in table order. *)
Fixpoint insert_before {A} (before : A -> A -> bool) (x : A) (l : list A) : list A :=
  match l with
  | [] => [x]
  | y :: r => if before y x then y :: insert_before before x r else x :: l
  end.

Definition order_with {A} (before : A -> A -> bool) (l : list A) : list A :=
  fold_right (insert_before before) [] l.

(** [calculated_comparisons cc JOIN comparison_costs cost
     ON cc.comparison_cost_id = cost.id]. *)
Definition joined (s : Store.t) : list ComparisonWithCost :=
  flat_map
    (fun cc =>
       map (fun c => mkComparisonWithCost cc (display_name c) (cost_unit c)
                       (description c) (category c) (display_order c) (cost c))
           (filter (fun c => cc_id c =? comparison_cost_id cc) (comparison_costs s)))
    (calculated_comparisons s).

(** [SELECT MAX(calculation_date) FROM calculated_comparisons
     WHERE billionaire_id = $1]. *)
Definition max_calculation_date (id : Z) (s : Store.t) : option Z :=
  max_of (map calculation_date
            (filter (fun cc => calc_billionaire_id cc =? id) (calculated_comparisons s))).

Section Collation.

(** The order of the database on text, which [ORDER BY cost.category] uses. *)
Variable collate : string -> string -> comparison.

(** [ORDER BY cost.category ASC, cost.display_order ASC]. *)
Definition by_category_then_order (x y : ComparisonWithCost) : bool :=
  match collate (cost_category x) (cost_category y) with
  | Lt => true
  | Eq => cost_display_order x <? cost_display_order y
  | Gt => false
  end.

(** The statement of [getCalculatedComparisons], for the date condition
    selected by [calculationDate]. *)
Definition select_calculated (id : Z) (calculationDate : option Z) (s : Store.t)
  : list ComparisonWithCost :=
  let wanted :=
    match calculationDate with
    | Some d => Some d
    | None => max_calculation_date id s
    end in
  order_with by_category_then_order
    (filter (fun row => (calc_billionaire_id (stored row) =? id)
                        && is_date wanted (calculation_date (stored row)))
            (joined s)).

(** [getCalculatedComparisons]. *)
Definition getCalculatedComparisons (id : Z) (calculationDate : option Z)
  : M Store.t (list ComparisonWithCost) :=
  query_select (select_calculated id calculationDate).

End Collation.

End ComparisonReaders.

(* ================================================================= *)
(** ** The readers of src/lib/queries/config.ts *)

Module Reports.
Import JS Effect Store Text.
Local Open Scope eff_scope.

(** [getConfigValue]: [SELECT value FROM site_config WHERE key = $1 LIMIT 1],
    then [rows[0]?.value || null]. *)
Definition getConfigValue (k : string) : M Store.t (option string) :=
  rows <- query_select (fun s =>
            firstn 1 (map value (filter (fun c => String.eqb (key c) k) (site_config s)))) ;;
  ret (truthy (hd_error rows)).

Definition is_success (m : UpdateMetadata) : bool :=
  match status m with
  | success => true
  | _ => false
  end.

(** [update_type IN ('daily_update', 'initial_seed')]. *)
Definition is_data_update (m : UpdateMetadata) : bool :=
  String.eqb (update_type m) "daily_update" || String.eqb (update_type m) "initial_seed".

(** [SELECT completed_at FROM update_metadata WHERE status = 'success'
     AND update_type IN ('daily_update', 'initial_seed')
     ORDER BY completed_at DESC LIMIT 1]. *)
Definition select_last_completed (s : Store.t) : list Z :=
  firstn 1 (map completed_at
              (order_by (fun m => - completed_at m)
                 (filter (fun m => is_success m && is_data_update m) (update_metadata s)))).

(** [getLastUpdateTimestamp] of config.ts. *)
Definition getLastUpdateTimestamp : M Store.t (option Z) :=
  rows <- query_select select_last_completed ;;
  ret (hd_error rows).

End Reports.

(* ================================================================= *)
(** ** src/lib/formatters.ts *)

Module Formatters.
Import JS.
Local Open Scope string_scope.

(** [x <= k] and [x >= k] against a finite constant. *)
Definition le (x : number) (k : Q) : bool :=
  match x with
  | Num a => if Qlt_le_dec k a then false else true
  | NegInfinity => true
  | NaN | Infinity => false
  end.

Definition ge (x : number) (k : Q) : bool :=
  match x with
  | Num a => if Qlt_le_dec a k then false else true
  | Infinity => true
  | NaN | NegInfinity => false
  end.

(** [Math.abs(x)]. *)
Definition Math_abs (x : number) : number :=
  match x with
  | Num a => if Qlt_le_dec a 0 then Num (- a) else Num a
  | NaN => NaN
  | Infinity | NegInfinity => Infinity
  end.

Fixpoint starts_with (p l : list ascii) : bool :=
  match p, l with
  | [], _ => true
  | a :: p', b :: l' => Ascii.eqb a b && starts_with p' l'
  | _ :: _, [] => false
  end.

(** [s.endsWith(suffix)]. *)
Definition endsWith (s suffix : string) : bool :=
  starts_with (rev (list_ascii_of_string suffix)) (rev (list_ascii_of_string s)).

(** [s.slice(0, -1)]. *)
Definition drop_last (s : string) : string :=
  string_of_list_ascii (removelast (list_ascii_of_string s)).

(** [pluralizeUnit]. *)
Definition pluralizeUnit (unit : string) (quantity : number) : string :=
  if le quantity 1 then unit
  else if endsWith unit "s" || endsWith unit "ies" then unit
  else if endsWith unit "y" then drop_last unit ++ "ies"
  else unit ++ "s".

Section ToFixed.

(** [x.toFixed(digits)], the decimal rendering of the platform. *)
Variable toFixed : number -> nat -> string.

(** [formatNetWorth]. *)
Definition formatNetWorth (millions : number) : string :=
  if ge millions 1000
  then "$" ++ toFixed (Number.div millions (of_Z 1000)) 1 ++ "B"
  else "$" ++ toFixed millions 1 ++ "M".

(** [formatChange]. *)
Definition formatChange (millions : option number) : string :=
  match millions with
  | None => "No change"
  | Some m =>
      let sign := if ge m 0 then "+" else "" in
      let formatted := formatNetWorth (Math_abs m) in
      sign ++ formatted
  end.

End ToFixed.

End Formatters.

(* ================================================================= *)
(** ** src/app/page.tsx: the data of the home page *)

Module HomePage.
Import JS Effect Store Text Comparisons Readers ComparisonReaders Stats.
Local Open Scope eff_scope.










End HomePage.

(* ================================================================= *)
(** ** Shapes of values that the properties below speak of *)

Module Shape.
Import JS Store Text.

Definition is_dash (c : ascii) : bool := Ascii.eqb c "-"%char.

(** A character allowed in a slug: a lowercase letter, a digit or a dash. *)
Definition slug_char (c : ascii) : bool := is_alnum c || is_dash c.

Definition starts_with_dash (l : list ascii) : bool :=
  match l with
  | c :: _ => is_dash c
  | [] => false
  end.

Definition ends_with_dash (l : list ascii) : bool := starts_with_dash (rev l).

(** No two dashes in a row. *)
Fixpoint no_double_dash (l : list ascii) : bool :=
  match l with
  | c :: r => negb (is_dash c && starts_with_dash r) && no_double_dash r
  | [] => true
  end.

(** A slug in normal form: words of lowercase letters and digits separated
    by single dashes. *)
Definition slug_shaped (s : string) : bool :=
  let l := list_ascii_of_string s in
  forallb slug_char l && no_double_dash l
  && negb (starts_with_dash l) && negb (ends_with_dash l).

(** The success rows that count as a data update, and their completion times. *)
Definition completed_updates (s : Store.t) : list Z :=
  map completed_at
    (filter (fun m => Reports.is_success m && Reports.is_data_update m)
            (update_metadata s)).

End Shape.

(* ================================================================= *)
(** ** What repeated upserts leave in [calculated_comparisons] *)

Module Overwrite.
Import JS Store Comparisons.

(** The last of the rows [rs] that has the key of [x], if there is one: the
    row that the upserts of [rs], made in order, leave under that key. *)
Fixpoint last_with (rs : list CalculatedComparison) (x : CalculatedComparison)
  : option CalculatedComparison :=
  match rs with
  | [] => None
  | r :: rest =>
      match last_with rest x with
      | Some y => Some y
      | None => if same_calculation r x then Some r else None
      end
  end.

(** The row found in the place of [x] after the upserts of [rs], when the
    key of every row of [rs] was present. *)
Definition overwritten (rs : list CalculatedComparison) (x : CalculatedComparison)
  : CalculatedComparison :=
  match last_with rs x with
  | Some y => y
  | None => x
  end.

(** The stored comparisons of one entity. *)
Definition of_entity (id : Z) (cc : CalculatedComparison) : bool :=
  calc_billionaire_id cc =? id.

End Overwrite.

(* ================================================================= *)
(** ** Properties of the credential check *)

Module AuthFacts.
Import JS Auth.

Lemma ToInt32_small (z : Z) : 0 <= z < 65536 -> ToInt32 z = z.
Proof.
  intros H. unfold ToInt32.
  rewrite Z.mod_small by lia.
  destruct (2147483648 <=? z) eqn:E; [apply Z.leb_le in E; lia | reflexivity].
Qed.

Lemma lor_code_unit (x y : Z) :
  is_code_unit x -> is_code_unit y -> is_code_unit (Z.lor x y).
Proof.
  unfold is_code_unit. intros Hx Hy.
  assert (Hn : 0 <= Z.lor x y) by (apply Z.lor_nonneg; lia).
  split; [exact Hn|].
  destruct (Z.eq_dec (Z.lor x y) 0) as [->|Hnz]; [lia|].
  change 65536 with (2 ^ 16).
  apply Z.log2_lt_pow2; [lia|].
  rewrite Z.log2_lor by lia.
  destruct (Z.eq_dec x 0) as [->|Hx0]; destruct (Z.eq_dec y 0) as [->|Hy0];
    cbn; try lia.
  - apply Z.max_lub_lt; [cbn; lia | apply Z.log2_lt_pow2; lia].
  - apply Z.max_lub_lt; [apply Z.log2_lt_pow2; lia | cbn; lia].
  - apply Z.max_lub_lt; apply Z.log2_lt_pow2; lia.
Qed.

Lemma lxor_code_unit (x y : Z) :
  is_code_unit x -> is_code_unit y -> is_code_unit (Z.lxor x y).
Proof.
  unfold is_code_unit. intros Hx Hy.
  assert (Hn : 0 <= Z.lxor x y) by (apply Z.lxor_nonneg; lia).
  split; [exact Hn|].
  destruct (Z.eq_dec (Z.lxor x y) 0) as [->|Hnz]; [lia|].
  change 65536 with (2 ^ 16).
  apply Z.log2_lt_pow2; [lia|].
  eapply Z.le_lt_trans; [apply Z.log2_lxor; lia|].
  destruct (Z.eq_dec x 0) as [->|Hx0]; destruct (Z.eq_dec y 0) as [->|Hy0];
    cbn; try lia.
  - apply Z.max_lub_lt; [cbn; lia | apply Z.log2_lt_pow2; lia].
  - apply Z.max_lub_lt; [apply Z.log2_lt_pow2; lia | cbn; lia].
  - apply Z.max_lub_lt; apply Z.log2_lt_pow2; lia.
Qed.

Lemma step_in_range (a b : jsstring) (r x y : Z) (i : nat) :
  is_code_unit r -> is_code_unit x -> is_code_unit y ->
  nth_error a i = Some x -> nth_error b i = Some y ->
  step a b r i = Z.lor r (Z.lxor x y).
Proof.
  intros Hr Hx Hy Ha Hb. unfold step, charCodeAt, bitor, bitxor.
  rewrite Ha, Hb. cbn [ToInt32_opt].
  now rewrite !ToInt32_small.
Qed.

Lemma nth_error_code_unit (s : jsstring) (i : nat) (x : Z) :
  well_formed s -> nth_error s i = Some x -> is_code_unit x.
Proof.
  intros Hs Hx. unfold well_formed in Hs.
  rewrite Forall_forall in Hs. apply Hs.
  eapply nth_error_In; eassumption.
Qed.

(** The accumulator is zero after the loop exactly when it was zero before
    and the two strings agree on every index visited. *)
Lemma loop_zero_iff (a b : jsstring) :
  well_formed a -> well_formed b -> List.length a = List.length b ->
  forall (n s : nat) (r : Z),
    is_code_unit r -> (s + n <= List.length a)%nat ->
    fold_left (step a b) (seq s n) r = 0 <->
    r = 0 /\ forall i, (s <= i < s + n)%nat -> nth_error a i = nth_error b i.
Proof.
  intros Ha Hb Hlen. induction n as [|n IH]; intros s r Hr Hbound.
  - cbn. split; [intros ->; split; [reflexivity | intros i Hi; lia] | tauto].
  - cbn [seq fold_left].
    destruct (nth_error a s) as [x|] eqn:Ex;
      [| apply nth_error_None in Ex; lia].
    destruct (nth_error b s) as [y|] eqn:Ey;
      [| apply nth_error_None in Ey; lia].
    pose proof (nth_error_code_unit a s x Ha Ex) as Hx.
    pose proof (nth_error_code_unit b s y Hb Ey) as Hy.
    rewrite (step_in_range a b r x y s Hr Hx Hy Ex Ey).
    rewrite IH; [| apply lor_code_unit; [exact Hr | now apply lxor_code_unit]
                 | lia].
    rewrite Z.lor_eq_0_iff. split.
    + intros [[Hr0 Hxy] Hrest]. split; [exact Hr0|].
      intros i Hi. destruct (Nat.eq_dec i s) as [->|Hne].
      * rewrite Ex, Ey. f_equal. now apply Z.lxor_eq.
      * apply Hrest. lia.
    + intros [Hr0 Hall]. split; [split; [exact Hr0|] |].
      * assert (Hs : nth_error a s = nth_error b s) by (apply Hall; lia).
        rewrite Ex, Ey in Hs. injection Hs as ->. apply Z.lxor_nilpotent.
      * intros i Hi. apply Hall. lia.
Qed.

Lemma nth_error_ext_eq (a b : jsstring) :
  (forall i, nth_error a i = nth_error b i) -> a = b.
Proof.
  revert b. induction a as [|x a IH]; intros [|y b] H.
  - reflexivity.
  - specialize (H 0%nat). discriminate.
  - specialize (H 0%nat). discriminate.
  - pose proof (H 0%nat) as H0. cbn in H0. injection H0 as ->.
    f_equal. apply IH. intros i. exact (H (S i)).
Qed.

Lemma timingSafeEqual_spec (a b : jsstring) :
  well_formed a -> well_formed b ->
  timingSafeEqual a b = true <-> a = b.
Proof.
  intros Ha Hb. unfold timingSafeEqual.
  destruct (Nat.eqb (List.length a) (List.length b)) eqn:El; cbn [negb].
  - apply Nat.eqb_eq in El.
    rewrite Z.eqb_eq.
    rewrite (loop_zero_iff a b Ha Hb El (List.length a) 0 0);
      [| unfold is_code_unit; lia | lia].
    split.
    + intros [_ Hall]. apply nth_error_ext_eq. intros i.
      destruct (Nat.lt_ge_cases i (List.length a)) as [Hlt|Hge].
      * apply Hall. lia.
      * pose proof (proj2 (nth_error_None a i) Hge) as Ea.
        assert (Hgb : (List.length b <= i)%nat) by lia.
        pose proof (proj2 (nth_error_None b i) Hgb) as Eb.
        now rewrite Ea, Eb.
    + intros ->. split; [reflexivity | reflexivity].
  - apply Nat.eqb_neq in El. split; [discriminate|].
    intros ->. contradiction El. reflexivity.
Qed.

Lemma of_string_well_formed (s : string) : well_formed (of_string s).
Proof.
  induction s as [|c s IH]; cbn; constructor; [|exact IH].
  unfold is_code_unit.
  pose proof (N_ascii_bounded c) as Hc. lia.
Qed.

Lemma well_formed_app (s t : jsstring) :
  well_formed s -> well_formed t -> well_formed (s ++ t).
Proof. unfold well_formed. intros. apply Forall_app. now split. Qed.

(** C10. [timingSafeEqual a b] is true exactly when the two strings are equal
    code unit by code unit, for all strings; consequently, once a credential
    of at least 32 code units is configured, the trigger lets a request pass
    the authorization check exactly when its [authorization] header equals
    ["Bearer " ++ secret]. *)
Theorem timingSafeEqual_iff_equal
    (a b secret : jsstring) (authHeader : option jsstring) :
  well_formed a -> well_formed b ->
  well_formed secret -> (32 <= List.length secret)%nat ->
  (forall h, authHeader = Some h -> well_formed h) ->
  (timingSafeEqual a b = true <-> a = b) /\
  (authorize (Some secret) authHeader = Authorized <->
   authHeader = Some (bearer ++ secret)).
Proof.
  intros Ha Hb Hs Hlen Hh. split; [now apply timingSafeEqual_spec|].
  unfold authorize.
  assert (Hf : falsy (Some secret) = false)
    by (destruct secret; [cbn in Hlen; lia | reflexivity]).
  rewrite Hf. cbn [orb].
  destruct (Nat.ltb (List.length secret) 32) eqn:El;
    [apply Nat.ltb_lt in El; lia|].
  destruct authHeader as [h|]; [| split; discriminate].
  assert (Hwf : well_formed (bearer ++ secret))
    by (apply well_formed_app; [apply of_string_well_formed | exact Hs]).
  pose proof (timingSafeEqual_spec h (bearer ++ secret) (Hh h eq_refl) Hwf) as T.
  destruct (timingSafeEqual h (bearer ++ secret)) eqn:Et.
  - assert (Eh : h = bearer ++ secret) by (now apply T). subst h.
    cbn. split; reflexivity.
  - rewrite orb_true_r. split; [discriminate|].
    intros [= Eh]. apply T in Eh. discriminate.
Qed.

Lemma timingSafeEqual_iff_equal_witness :
  (timingSafeEqual (of_string "Bearer k") (of_string "Bearer k") = true <->
   of_string "Bearer k" = of_string "Bearer k") /\
  (authorize (Some (of_string "0123456789abcdef0123456789abcdef"))
             (Some (of_string "Bearer 0123456789abcdef0123456789abcdef"))
     = Authorized <->
   Some (of_string "Bearer 0123456789abcdef0123456789abcdef")
     = Some (bearer ++ of_string "0123456789abcdef0123456789abcdef")).
Proof.
  apply (timingSafeEqual_iff_equal
           (of_string "Bearer k") (of_string "Bearer k")
           (of_string "0123456789abcdef0123456789abcdef")
           (Some (of_string "Bearer 0123456789abcdef0123456789abcdef"))).
  - apply of_string_well_formed.
  - apply of_string_well_formed.
  - apply of_string_well_formed.
  - cbn. lia.
  - intros h Eh.
    replace h with (of_string "Bearer 0123456789abcdef0123456789abcdef")
      by congruence.
    apply of_string_well_formed.
Defined.

End AuthFacts.

(* ================================================================= *)
(** ** Properties of the arithmetic *)

Module NumberFacts.
Import JS Number.
Local Open Scope Q_scope.

Lemma Qeq_bool_false_of_pos (c : Q) : 0 < c -> Qeq_bool c 0 = false.
Proof.
  intros H. destruct (Qeq_bool c 0) eqn:E; [|reflexivity].
  apply Qeq_bool_eq in E. lra.
Qed.

Lemma Math_round_integer (z : Z) : Math_round (inject_Z z) = z.
Proof.
  unfold Math_round, Qfloor, Qplus, inject_Z. cbn.
  symmetry. apply (Z.div_unique _ 2 z 1); lia.
Qed.

Lemma Math_round_difference (c y : Z) :
  Math_round (inject_Z c - inject_Z y) = (c - y)%Z.
Proof.
  unfold Qminus. rewrite <- inject_Z_opp, <- inject_Z_plus.
  apply Math_round_integer.
Qed.

(** Rounding depends on the value only, not on the fraction that writes it. *)
Lemma round_Qeq (q q' : Q) : q == q' -> round q = round q'.
Proof. intros H. unfold round. now rewrite (Qred_complete q q' H). Qed.

Lemma Qred_inject_Z (z : Z) : Qred (inject_Z z) = inject_Z z.
Proof.
  unfold Qred, inject_Z.
  pose proof (Z.ggcd_gcd z 1) as Hg.
  pose proof (Z.ggcd_correct_divisors z 1) as Hd.
  destruct (Z.ggcd z 1) as [g [a b]]. cbn [fst] in Hg.
  rewrite Z.gcd_1_r in Hg. subst g. destruct Hd as [Ha Hb].
  assert (b = 1%Z) by lia. subst b.
  cbn. f_equal. lia.
Qed.

Lemma nearest_even_1 (a : Z) : nearest_even a 1 = a.
Proof.
  unfold nearest_even. rewrite Z.mod_1_r, Z.div_1_r. reflexivity.
Qed.

Lemma ilog2_1 (n : Z) : (0 < n)%Z -> ilog2 n 1 = Z.log2 n.
Proof.
  intros Hn. unfold ilog2. change (Z.log2 1) with 0%Z. rewrite Z.sub_0_r.
  pose proof (Z.log2_nonneg n) as H0.
  destruct (Z.leb_spec 0 (Z.log2 n)) as [_|]; [|lia].
  pose proof (Z.log2_spec n Hn) as [Hlo _].
  destruct (Z.leb_spec (2 ^ Z.log2 n * 1) n); [reflexivity | lia].
Qed.

(** A whole number up to 2^53 is a double. *)
Lemma round_pos_safe (n : Z) :
  (0 < n <= 2 ^ 53)%Z -> round_pos n 1 = Num (inject_Z n).
Proof.
  intros [Hn Hmax]. unfold round_pos. rewrite (ilog2_1 n Hn).
  pose proof (Z.log2_nonneg n) as H0.
  assert (Hlog : (Z.log2 n <= 53)%Z).
  { change 53%Z with (Z.log2 (2 ^ 53)). now apply Z.log2_le_mono. }
  assert (He : Z.max (Z.log2 n - 52) (-1074) = (Z.log2 n - 52)%Z) by lia.
  rewrite He.
  destruct (Z.leb_spec 0 (Z.log2 n - 52)) as [Hge|Hlt].
  - assert (Hcase : Z.log2 n = 52%Z \/ Z.log2 n = 53%Z) by lia.
    destruct Hcase as [E|E]; rewrite E.
    + change (52 - 52)%Z with 0%Z. change (2 ^ 0)%Z with 1%Z.
      change (1 * 1)%Z with 1%Z.
      rewrite nearest_even_1, Z.mul_1_r.
      destruct (Z.leb_spec (2 ^ 1024) n) as [Hbig|_]; [|reflexivity].
      exfalso. assert ((2 ^ 53 < 2 ^ 1024)%Z) by (apply Z.pow_lt_mono_r; lia). lia.
    + assert (n = 2 ^ 53)%Z.
      { pose proof (Z.log2_spec n Hn) as [Hlo _]. rewrite E in Hlo. lia. }
      subst n. vm_compute. reflexivity.
  - set (k := (- (Z.log2 n - 52))%Z).
    assert (Hk : (0 < 2 ^ k)%Z) by (apply Z.pow_pos_nonneg; lia).
    rewrite nearest_even_1.
    f_equal. rewrite <- (Qred_inject_Z n). apply Qred_complete.
    unfold Qeq. cbn [Qnum Qden inject_Z]. rewrite Z2Pos.id by exact Hk. lia.
Qed.

Lemma round_integer (z : Z) :
  (Z.abs z <= 2 ^ 53)%Z -> round (inject_Z z) = Num (inject_Z z).
Proof.
  intros Hz. unfold round. rewrite Qred_inject_Z. cbn [Qnum Qden inject_Z].
  destruct z as [|p|p].
  - reflexivity.
  - apply round_pos_safe. lia.
  - rewrite round_pos_safe by lia. reflexivity.
Qed.

Lemma of_integer_safe (z : Z) : safe z = true -> of_integer z = of_Z z.
Proof.
  unfold safe. intros H. apply Z.leb_le in H. now apply round_integer.
Qed.

(** The difference of two whole numbers is exact when it is safe. *)
Lemma sub_safe (a b : Z) :
  safe (a - b) = true -> sub (of_Z a) (of_Z b) = of_Z (a - b).
Proof.
  intros H. unfold sub, of_Z.
  rewrite (round_Qeq _ (inject_Z (a - b))).
  - now apply of_integer_safe.
  - unfold Qminus. now rewrite <- inject_Z_opp, <- inject_Z_plus.
Qed.

(** The quotient of a whole number of millions by a million is exact. *)
Lemma div_millions (t : Z) :
  safe t = true -> div (of_Z (t * 1000000)) (of_Z 1000000) = of_Z t.
Proof.
  intros H. unfold div, of_Z.
  change (Qeq_bool (inject_Z 1000000) 0) with false. cbv iota.
  rewrite (round_Qeq _ (inject_Z t)).
  - now apply of_integer_safe.
  - rewrite inject_Z_mult. field.
Qed.

Lemma integer_text_safe (z : Z) :
  safe z = true -> integer_text (of_Z z) = Some z.
Proof.
  intros H. unfold integer_text, of_Z. rewrite Qfloor_Z.
  rewrite Qeq_bool_refl, H. reflexivity.
Qed.

Lemma safe_int8 (z : Z) : safe z = true -> Store.int8 z = true.
Proof.
  unfold safe, Store.int8. intros H. apply Z.leb_le in H.
  apply andb_true_iff. split; [apply Z.leb_le | apply Z.ltb_lt].
  - assert ((2 ^ 53 <= 2 ^ 63)%Z) by (apply Z.pow_le_mono_r; lia). lia.
  - assert ((2 ^ 53 < 2 ^ 63)%Z) by (apply Z.pow_lt_mono_r; lia). lia.
Qed.

Lemma as_int8_safe (z : Z) : safe z = true -> Store.as_int8 (of_Z z) = Some z.
Proof.
  intros H. unfold Store.as_int8. rewrite (integer_text_safe z H).
  now rewrite (safe_int8 z H).
Qed.

End NumberFacts.

(* ================================================================= *)
(** ** Properties of the comparison engine *)

Module ComparisonFacts.
Import JS Number Effect Store Text Comparisons NumberFacts.
Local Open Scope Q_scope.

(** C3. The quantity is the floor of the quotient computed in binary64,
    which is not always the floor of usable wealth over unit cost.  A net
    worth of 1,000 millions with the reserve of 10,000,000 has usable wealth
    990,000,000; at a unit cost of 1.10 the floor of the quotient is
    900,000,000, and the code computes 899,999,999, which the bulk
    pre-computation stores and [getAggregateComparisons] returns.  Likewise
    a net worth of 500 millions at a unit cost of 0.07 gives 6,999,999,999
    for 7,000,000,000.  The example of the claim holds: usable wealth
    9,990,000,000 and a unit cost of 15,000 give 666,000. *)
Theorem quantity_is_floor_of_binary64_quotient :
  quantity_of (of_Z 1000) (of_Z 10000000) (11 # 10) = Num 899999999 /\
  Spec.usable_wealth_usd (1000 * 1000000) 10000000 == 990000000 /\
  Spec.affordable (1000 * 1000000) 10000000 (11 # 10) = 900000000%Z /\
  quantity_of (of_Z 500) (of_Z 10000000) (7 # 100) = Num 6999999999 /\
  Spec.affordable (500 * 1000000) 10000000 (7 # 100) = 7000000000%Z /\
  (exists s',
     calculateAndStoreComparisons 100 Examples.ada_cheap = (Returned 2%Z, s') /\
     map (fun x => (comparison_cost_id x, net_worth_used x, quantity x))
         (calculated_comparisons s')
     = [(1, 990, 899999999); (2, 990, 14142857142)]%Z) /\
  (exists l s',
     getAggregateComparisons (of_Z 1000) "Global" Examples.ada_cheap = (Returned l, s') /\
     map ac_quantity l = [Num 899999999; Num 14142857142]) /\
  usableWealthUSD (of_Z 10000) (of_Z 10000000) = Num 9990000000 /\
  quantity_of (of_Z 10000) (of_Z 10000000) 15000 = Num 666000 /\
  Spec.affordable (10000 * 1000000) 10000000 15000 = 666000%Z.
Proof.
  split; [vm_compute; reflexivity|].
  split; [reflexivity|].
  split; [vm_compute; reflexivity|].
  split; [vm_compute; reflexivity|].
  split; [vm_compute; reflexivity|].
  split; [eexists; split; vm_compute; reflexivity|].
  split; [do 2 eexists; split; vm_compute; reflexivity|].
  split; [vm_compute; reflexivity|].
  split; vm_compute; reflexivity.
Qed.

Lemma getAggregateComparisons_unfold (w : number) (r : string) (s : Store.t) :
  getAggregateComparisons w r s =
  let validatedRegion := if includes VALID_REGIONS r then r else "Global"%string in
  match select_threshold s with
  | [] => (Thrown (TypeError "Cannot read properties of undefined (reading 'value')"),
           tick s)
  | v :: _ =>
      let first := select_costs_by_region validatedRegion s in
      let fallback := Nat.eqb (List.length first) 0
                      && negb (String.eqb validatedRegion "Global") in
      let costs := if fallback then select_costs_by_region "Global" s else first in
      let s' := if fallback then tick (tick (tick s)) else tick (tick s) in
      if Nat.eqb (List.length costs) 0
      then (Thrown (Error "No active comparison costs found in database. Please seed comparison_costs table."), s')
      else (Returned (map (comparison_of w (parseInt v)) costs), s')
  end.
Proof.
  unfold getAggregateComparisons, bind, query_select, throw, ret.
  change (select_threshold s) with (select_threshold s).
  destruct (select_threshold s) as [|v rest]; [reflexivity|].
  cbv zeta.
  change (select_costs_by_region (if includes VALID_REGIONS r then r else "Global"%string)
            (tick s))
    with (select_costs_by_region (if includes VALID_REGIONS r then r else "Global"%string) s).
  destruct (Nat.eqb (List.length
              (select_costs_by_region
                 (if includes VALID_REGIONS r then r else "Global"%string) s)) 0
            && negb (String.eqb (if includes VALID_REGIONS r then r else "Global"%string)
                                "Global")); cbv iota beta.
  - change (select_costs_by_region "Global" (tick (tick s)))
      with (select_costs_by_region "Global" s).
    destruct (Nat.eqb (List.length (select_costs_by_region "Global" s)) 0); reflexivity.
  - destruct (Nat.eqb (List.length
               (select_costs_by_region
                  (if includes VALID_REGIONS r then r else "Global"%string) s)) 0);
      reflexivity.
Qed.



End ComparisonFacts.

(* ================================================================= *)
(** ** Generic facts about upserts *)


Module UpsertFacts.

Section Upsert.
Context {A K : Type} (k : A -> K) (conflict : A -> bool) (repl : A -> A) (new : A).
Hypothesis conflict_key : forall r, conflict r = true <-> k r = k new.
Hypothesis repl_key : forall r, conflict r = true -> k (repl r) = k r.

Local Abbreviation upsert := (Store.upsert conflict repl new).

Lemma map_replace_keys (l : list A) :
  map k (map (fun r => if conflict r then repl r else r) l) = map k l.
Proof.
  induction l as [|x l IH]; cbn; [reflexivity|].
  rewrite IH. f_equal. destruct (conflict x) eqn:E; [now apply repl_key | reflexivity].
Qed.

Lemma upsert_keys (l : list A) :
  map k (upsert l) = if existsb conflict l then map k l else map k l ++ [k new].
Proof.
  unfold Store.upsert. destruct (existsb conflict l).
  - apply map_replace_keys.
  - now rewrite map_app.
Qed.

Lemma existsb_conflict_iff (l : list A) :
  existsb conflict l = true <-> In (k new) (map k l).
Proof.
  rewrite existsb_exists, in_map_iff. split.
  - intros [x [Hx Hc]]. exists x. split; [now apply conflict_key | exact Hx].
  - intros [x [Hk Hx]]. exists x. split; [exact Hx | now apply conflict_key].
Qed.

Lemma upsert_NoDup (l : list A) : NoDup (map k l) -> NoDup (map k (upsert l)).
Proof.
  intros H. rewrite upsert_keys.
  destruct (existsb conflict l) eqn:E; [exact H|].
  apply NoDup_app; [exact H | constructor; [intros [] | constructor] |].
  intros x Hx [<-|[]].
  apply existsb_conflict_iff in Hx. congruence.
Qed.

Lemma upsert_key_in (l : list A) : In (k new) (map k (upsert l)).
Proof.
  rewrite upsert_keys. destruct (existsb conflict l) eqn:E.
  - now apply existsb_conflict_iff.
  - apply in_or_app. right. now left.
Qed.

Lemma upsert_keys_mono (l : list A) (x : K) :
  In x (map k l) -> In x (map k (upsert l)).
Proof.
  intros H. rewrite upsert_keys. destruct (existsb conflict l); [exact H|].
  apply in_or_app. now left.
Qed.

Lemma upsert_In (l : list A) (x : A) :
  In x (upsert l) ->
  x = new \/ In x l \/ exists r, In r l /\ conflict r = true /\ x = repl r.
Proof.
  unfold Store.upsert. destruct (existsb conflict l).
  - intros H. apply in_map_iff in H. destruct H as [r [Hr Hin]].
    destruct (conflict r) eqn:E.
    + right. right. exists r. auto.
    + right. left. now subst.
  - intros H. apply in_app_or in H. destruct H as [H|[<-|[]]]; auto.
Qed.

End Upsert.

(** When the conflicting rows are replaced by the new row itself, the new
    row is in the table afterwards. *)
Lemma upsert_const_In {A} (conflict : A -> bool) (new : A) (l : list A) :
  In new (Store.upsert conflict (fun _ => new) new l).
Proof.
  unfold Store.upsert. destruct (existsb conflict l) eqn:E.
  - apply existsb_exists in E. destruct E as [x [Hx Hc]].
    apply in_map_iff. exists x. now rewrite Hc.
  - apply in_or_app. right. now left.
Qed.

End UpsertFacts.

(* ================================================================= *)
(** ** Properties of the bulk pre-computation *)

Module BulkFacts.
Import JS Number Effect Store Text Comparisons Plan NumberFacts.

Lemma write_all_app (a b : list CalculatedComparison) (s : Store.t) :
  write_all (a ++ b) s = write_all b (write_all a s).
Proof. unfold write_all. apply fold_left_app. Qed.

Lemma accepted_app {A} (a b : list (option A)) :
  accepted (a ++ b) = if refused a then accepted a else accepted a ++ accepted b.
Proof.
  induction a as [|[x|] a IH]; cbn; [reflexivity | | reflexivity].
  unfold refused in IH. rewrite IH. now destruct (existsb is_refusal a).
Qed.

Lemma refused_app {A} (a b : list (option A)) :
  refused (a ++ b) = refused a || refused b.
Proof. apply existsb_app. Qed.

(** Without refusal every statement writes its row. *)
Lemma accepted_all {A} (l : list (option A)) :
  refused l = false -> map Some (accepted l) = l.
Proof.
  induction l as [|[x|] l IH]; cbn; intros H; [reflexivity | | discriminate].
  now rewrite IH.
Qed.

Lemma accepted_In {A} (l : list (option A)) (x : A) :
  In x (accepted l) -> In (Some x) l.
Proof.
  induction l as [|[y|] l IH]; cbn; [tauto | | tauto].
  intros [->|H]; [now left | right; now apply IH].
Qed.

Lemma accepted_length {A} (l : list (option A)) :
  refused l = false -> List.length (accepted l) = List.length l.
Proof.
  intros H. rewrite <- (accepted_all l H) at 2. now rewrite length_map.
Qed.

Lemma run_statements_app (a b : list (option CalculatedComparison)) (n : Z)
    (s : Store.t) :
  run_statements (a ++ b) n s
  = match run_statements a n s with
    | (Returned n', s') => run_statements b n' s'
    | (Thrown e, s') => (Thrown e, s')
    end.
Proof.
  unfold run_statements. rewrite refused_app, accepted_app.
  destruct (refused a); cbn [orb]; [reflexivity|].
  rewrite write_all_app, length_app.
  destruct (refused b); [reflexivity|].
  f_equal. f_equal. lia.
Qed.

Lemma store_one_plan (d : Z) (thr : number) (b : Z * Z) (n : Z) (c : Z * Q)
    (s : Store.t) :
  store_one d thr b n c s = run_statements (attempt_for d thr b c) n s.
Proof.
  unfold store_one, attempt_for, run_statements.
  destruct (gt0 (quantity_of (of_integer (snd b)) thr (snd c))).
  - destruct (comparison_row (fst b) (fst c) d
                (usableWealthMillions (of_integer (snd b)) thr)
                (quantity_of (of_integer (snd b)) thr (snd c))); reflexivity.
  - cbn. now rewrite Z.add_0_r.
Qed.

Lemma inner_loop_plan (d : Z) (thr : number) (b : Z * Z) (costs : list (Z * Q)) :
  forall (n : Z) (s : Store.t),
    foldM (store_one d thr b) costs n s
    = run_statements (flat_map (attempt_for d thr b) costs) n s.
Proof.
  induction costs as [|c r IH]; intros n s; cbn [foldM flat_map].
  - unfold run_statements. cbn. now rewrite Z.add_0_r.
  - unfold bind. rewrite store_one_plan, run_statements_app.
    destruct (run_statements (attempt_for d thr b c) n s) as [[n'|e] s'];
      [apply IH | reflexivity].
Qed.

Lemma outer_loop_plan (d : Z) (thr : number) (costs : list (Z * Q))
    (bs : list (Z * Z)) :
  forall (n : Z) (s : Store.t),
    foldM (fun created b => foldM (store_one d thr b) costs created) bs n s
    = run_statements (attempts d thr bs costs) n s.
Proof.
  unfold attempts.
  induction bs as [|b r IH]; intros n s; cbn [foldM flat_map].
  - unfold run_statements. cbn. now rewrite Z.add_0_r.
  - unfold bind. rewrite inner_loop_plan, run_statements_app.
    destruct (run_statements (flat_map (attempt_for d thr b) costs) n s)
      as [[n'|e] s']; [apply IH | reflexivity].
Qed.

(** The bulk run, in closed form: it throws when the threshold is not
    configured, and otherwise issues the planned statements after three
    reads, up to the first that the store refuses. *)
Lemma calculateAndStoreComparisons_plan (d : Z) (s : Store.t) :
  calculateAndStoreComparisons d s =
  match select_threshold s with
  | [] => (Thrown (TypeError "Cannot read properties of undefined (reading 'value')"),
           tick s)
  | v :: _ =>
      run_statements
        (attempts d (parseInt v) (select_latest_net_worth s) (select_active_costs s))
        0 (tick (tick (tick s)))
  end.
Proof.
  unfold calculateAndStoreComparisons, bind, query_select.
  change (select_threshold s) with (select_threshold s).
  destruct (select_threshold s) as [|v rest]; [reflexivity|].
  rewrite outer_loop_plan. reflexivity.
Qed.

Lemma write_all_cons (r : CalculatedComparison) (l : list CalculatedComparison)
    (s : Store.t) :
  write_all (r :: l) s
  = write_all l (tick (set_calculated_comparisons
                         (upsert_comparison r (calculated_comparisons s)) s)).
Proof. reflexivity. Qed.

Lemma write_all_comparisons (l : list CalculatedComparison) :
  forall s, calculated_comparisons (write_all l s)
            = fold_left (fun t row => upsert_comparison row t) l
                        (calculated_comparisons s).
Proof.
  induction l as [|r l IH]; intros s; [reflexivity|].
  rewrite write_all_cons, IH. reflexivity.
Qed.

(** Writing comparisons touches no other table. *)
Lemma write_all_frame (l : list CalculatedComparison) :
  forall s,
    billionaires (write_all l s) = billionaires s /\
    billionaires_id_seq (write_all l s) = billionaires_id_seq s /\
    daily_snapshots (write_all l s) = daily_snapshots s /\
    comparison_costs (write_all l s) = comparison_costs s /\
    site_config (write_all l s) = site_config s /\
    data_sources (write_all l s) = data_sources s /\
    update_metadata (write_all l s) = update_metadata s /\
    queries (write_all l s) = (List.length l + queries s)%nat.
Proof.
  induction l as [|r l IH]; intros s.
  - cbn. repeat split.
  - rewrite write_all_cons.
    destruct (IH (tick (set_calculated_comparisons
                          (upsert_comparison r (calculated_comparisons s)) s)))
      as (H1 & H2 & H3 & H4 & H5 & H6 & H7 & H8).
    rewrite H1, H2, H3, H4, H5, H6, H7, H8. cbn. repeat split. lia.
Qed.

Lemma write_all_clocks (l : list CalculatedComparison) :
  forall s,
    current_date (write_all l s) = current_date s /\
    current_timestamp (write_all l s) = current_timestamp s.
Proof.
  induction l as [|r l IH]; intros s; [now split|].
  rewrite write_all_cons.
  destruct (IH (tick (set_calculated_comparisons
                        (upsert_comparison r (calculated_comparisons s)) s)))
    as [H1 H2].
  rewrite H1, H2. now split.
Qed.

Lemma same_calculation_key (a b : CalculatedComparison) :
  same_calculation a b = true <-> calc_key b = calc_key a.
Proof.
  unfold same_calculation, calc_key. rewrite !andb_true_iff, !Z.eqb_eq.
  split.
  - intros [[-> ->] ->]. reflexivity.
  - intros [= -> -> ->]. auto.
Qed.

Lemma calc_repl_key (row r : CalculatedComparison) :
  same_calculation row r = true -> calc_key row = calc_key r.
Proof. intros H. symmetry. now apply same_calculation_key. Qed.

Lemma upsert_comparison_keys_mono (row : CalculatedComparison)
    (l : list CalculatedComparison) (x : Z * Z * Z) :
  In x (map calc_key l) -> In x (map calc_key (upsert_comparison row l)).
Proof.
  apply (UpsertFacts.upsert_keys_mono calc_key (same_calculation row)
           (fun _ => row) row (calc_repl_key row)).
Qed.

Lemma upsert_comparison_key_in (row : CalculatedComparison)
    (l : list CalculatedComparison) :
  In (calc_key row) (map calc_key (upsert_comparison row l)).
Proof.
  apply (UpsertFacts.upsert_key_in calc_key (same_calculation row)
           (fun _ => row) row (same_calculation_key row) (calc_repl_key row)).
Qed.

Lemma upsert_comparison_In (row x : CalculatedComparison)
    (l : list CalculatedComparison) :
  In x (upsert_comparison row l) -> x = row \/ In x l.
Proof.
  intros H.
  apply (UpsertFacts.upsert_In (same_calculation row) (fun _ => row) row) in H.
  destruct H as [H|[H|[r [_ [_ H]]]]]; auto.
Qed.

Lemma fold_upsert_keys_mono (rs : list CalculatedComparison) :
  forall l x, In x (map calc_key l) ->
              In x (map calc_key (fold_left (fun t row => upsert_comparison row t) rs l)).
Proof.
  induction rs as [|r rs IH]; intros l x H; [exact H|].
  cbn [fold_left]. apply IH. now apply upsert_comparison_keys_mono.
Qed.

Lemma fold_upsert_key_in (rs : list CalculatedComparison) :
  forall l r, In r rs ->
              In (calc_key r)
                 (map calc_key (fold_left (fun t row => upsert_comparison row t) rs l)).
Proof.
  induction rs as [|r0 rs IH]; intros l r H; [destruct H|].
  cbn [fold_left]. destruct H as [->|H].
  - apply fold_upsert_keys_mono. apply upsert_comparison_key_in.
  - now apply IH.
Qed.

Lemma fold_upsert_In (rs : list CalculatedComparison) :
  forall l x, In x (fold_left (fun t row => upsert_comparison row t) rs l) ->
              In x rs \/ In x l.
Proof.
  induction rs as [|r rs IH]; intros l x H; [now right|].
  cbn [fold_left] in H. apply IH in H. destruct H as [H|H].
  - left. now right.
  - apply upsert_comparison_In in H. destruct H as [->|H]; [left; now left | now right].
Qed.

(** A statement issued comes from a selected billionaire and an active cost
    whose quantity is positive. *)
Lemma attempts_In (d : Z) (thr : number) (bs : list (Z * Z)) (cs : list (Z * Q))
    (o : option CalculatedComparison) :
  In o (attempts d thr bs cs) <->
  exists b c, In b bs /\ In c cs /\
    gt0 (quantity_of (of_integer (snd b)) thr (snd c)) = true /\
    o = comparison_row (fst b) (fst c) d
          (usableWealthMillions (of_integer (snd b)) thr)
          (quantity_of (of_integer (snd b)) thr (snd c)).
Proof.
  unfold attempts. rewrite in_flat_map. split.
  - intros [b [Hb Hx]]. apply in_flat_map in Hx. destruct Hx as [c [Hc Hx]].
    unfold attempt_for in Hx.
    destruct (gt0 (quantity_of (of_integer (snd b)) thr (snd c))) eqn:E; [|destruct Hx].
    destruct Hx as [<-|[]]. exists b, c. auto.
  - intros [b [c (Hb & Hc & Hq & ->)]]. exists b. split; [exact Hb|].
    apply in_flat_map. exists c. split; [exact Hc|].
    unfold attempt_for. rewrite Hq. now left.
Qed.

(** A row written comes from such a pair, whose parameters the store
    accepted. *)
Lemma rows_In (d : Z) (thr : number) (bs : list (Z * Z)) (cs : list (Z * Q))
    (x : CalculatedComparison) :
  In x (rows d thr bs cs) ->
  exists b c, In b bs /\ In c cs /\
    gt0 (quantity_of (of_integer (snd b)) thr (snd c)) = true /\
    comparison_row (fst b) (fst c) d
      (usableWealthMillions (of_integer (snd b)) thr)
      (quantity_of (of_integer (snd b)) thr (snd c)) = Some x.
Proof.
  intros H. apply accepted_In, attempts_In in H.
  destruct H as [b [c (Hb & Hc & Hq & E)]]. exists b, c. auto.
Qed.

Lemma comparison_row_key (id cid d : Z) (u q : number) (x : CalculatedComparison) :
  comparison_row id cid d u q = Some x -> calc_key x = (id, cid, d).
Proof.
  unfold comparison_row. destruct (as_int8 u); [|discriminate].
  destruct (as_int8 q); [|discriminate]. now intros [= <-].
Qed.

(** The store after a run of statements: the rows accepted before the first
    refusal are written, and no other table changes. *)
Lemma run_statements_store (l : list (option CalculatedComparison)) (n : Z)
    (s : Store.t) :
  let s' := snd (run_statements l n s) in
  calculated_comparisons s'
  = fold_left (fun t row => upsert_comparison row t) (accepted l)
              (calculated_comparisons s) /\
  billionaires s' = billionaires s /\
  billionaires_id_seq s' = billionaires_id_seq s /\
  daily_snapshots s' = daily_snapshots s /\
  comparison_costs s' = comparison_costs s /\
  site_config s' = site_config s /\
  data_sources s' = data_sources s /\
  update_metadata s' = update_metadata s /\
  current_date s' = current_date s /\
  current_timestamp s' = current_timestamp s /\
  (queries s <= queries s')%nat.
Proof.
  cbv zeta. unfold run_statements.
  pose proof (write_all_frame (accepted l) s) as (H1 & H2 & H3 & H4 & H5 & H6 & H7 & H8).
  pose proof (write_all_comparisons (accepted l) s) as H0.
  pose proof (write_all_clocks (accepted l) s) as [H9 H10].
  destruct (refused l); cbn [snd tick calculated_comparisons billionaires
    billionaires_id_seq daily_snapshots comparison_costs site_config data_sources
    update_metadata current_date current_timestamp queries];
    repeat split; try assumption; lia.
Qed.

(** What the run answers: the number of statements when none is refused. *)
Lemma run_statements_outcome (l : list (option CalculatedComparison)) (n : Z)
    (s : Store.t) :
  (refused l = false /\
   fst (run_statements l n s) = Returned (n + Z.of_nat (List.length (accepted l)))) \/
  (refused l = true /\ exists e, fst (run_statements l n s) = Thrown e).
Proof.
  unfold run_statements. destruct (refused l) eqn:E.
  - right. split; [reflexivity|]. eexists. reflexivity.
  - left. split; [reflexivity|]. cbn [fst]. now rewrite accepted_length.
Qed.

(** C6. With the living reserve set to 10,500,000 USD an entity worth 500
    millions has a usable wealth of 489.5 millions, and every active cost of
    the catalog gives a positive quantity (32,633 wells at 15,000 USD); the
    column [net_worth_used] is a BIGINT and refuses 489.5, so the bulk run
    throws at its first statement and no row is persisted for any of these
    pairs.  The trigger then answers 500 and logs the run as failed.  Below
    the reserve the quantity is zero and no statement is issued. *)
Theorem positive_quantity_is_not_stored_for_fractional_threshold :
  let s := Examples.ada_fractional_threshold in
  let thr := parseInt "10500000" in
  select_threshold s = ["10500000"%string] /\
  select_latest_net_worth s = [(1, 500)] /\
  usableWealthMillions (of_integer 500) thr = Num (979 # 2) /\
  map (fun c => quantity_of (of_integer 500) thr (snd c)) (select_active_costs s)
  = [Num 32633; Num 979; Num 1398] /\
  (exists s',
     calculateAndStoreComparisons 100 s
     = (Thrown (DatabaseError "invalid input syntax for type bigint"), s') /\
     calculated_comparisons s' = [] /\ queries s' = 4%nat) /\
  (exists s' row,
     Route.GET (Some Examples.secret) (Some Examples.header) Examples.clock 100
       (Route.Fetched Examples.small_batch) None s
     = (Route.UpdateFailed "invalid input syntax for type bigint" 1 1 1,
        Some 8640000000, s') /\
     calculated_comparisons s' = [] /\
     update_metadata s' = [row] /\ status row = failed) /\
  (usableWealthMillions (of_integer 5) (of_Z 10000000) = Num 0 /\
   quantity_of (of_integer 5) (of_Z 10000000) 15000 = Num 0 /\
   attempt_for 100 (of_Z 10000000) (1, 5) (1, 15000%Q) = []).
Proof.
  cbv zeta.
  split; [reflexivity|].
  split; [reflexivity|].
  split; [vm_compute; reflexivity|].
  split; [vm_compute; reflexivity|].
  split; [eexists; split; [vm_compute; reflexivity|split; reflexivity]|].
  split.
  - do 2 eexists. split; [vm_compute; reflexivity|].
    split; [reflexivity|]. split; reflexivity.
  - split; [vm_compute; reflexivity|]. split; vm_compute; reflexivity.
Qed.

End BulkFacts.

(* ================================================================= *)
(** ** Properties of snapshot selection *)

Module SnapshotFacts.
Import JS Effect Store Comparisons Spec.

Lemma fold_max_spec (l : list Z) :
  forall x, let m := fold_left Z.max l x in
            (m = x \/ In m l) /\ x <= m /\ forall y, In y l -> y <= m.
Proof.
  induction l as [|a l IH]; intros x; cbn [fold_left].
  - cbn. repeat split; [now left | lia | intros y []].
  - destruct (IH (Z.max x a)) as (Hin & Hle & Hall).
    repeat split.
    + destruct Hin as [Hm|Hm].
      * rewrite Hm. destruct (Z.max_spec x a) as [[_ ->]|[_ ->]];
          [right; now left | now left].
      * right. now right.
    + lia.
    + intros y [<-|Hy]; [lia | now apply Hall].
Qed.

Lemma max_of_spec (l : list Z) (m : Z) :
  max_of l = Some m <-> In m l /\ forall y, In y l -> y <= m.
Proof.
  destruct l as [|x l]; cbn [max_of].
  - split; [discriminate | intros [[] _]].
  - pose proof (fold_max_spec l x) as H. cbv zeta in H.
    destruct H as (Hin & Hle & Hall). split.
    + intros [= <-]. split.
      * destruct Hin as [->|Hin]; [now left | now right].
      * intros y [<-|Hy]; [exact Hle | now apply Hall].
    + intros [Hm Hmax]. f_equal.
      assert (H1 : fold_left Z.max l x <= m).
      { apply Hmax. destruct Hin as [->|Hin]; [now left | now right]. }
      assert (H2 : m <= fold_left Z.max l x).
      { destruct Hm as [<-|Hm]; [exact Hle | now apply Hall]. }
      lia.
Qed.

Lemma max_snapshot_date_spec (s : Store.t) (id : Z) (ds : DailySnapshot) :
  In ds (daily_snapshots s) -> ds_billionaire_id ds = id ->
  (is_date (max_snapshot_date id s) (snapshot_date ds) = true <-> latest_for s id ds).
Proof.
  intros Hin Hid. unfold is_date, max_snapshot_date, latest_for.
  set (dates := map snapshot_date
                  (filter (fun x => ds_billionaire_id x =? id) (daily_snapshots s))).
  assert (Hdates : forall y, In y dates <->
            exists o, In o (daily_snapshots s) /\ ds_billionaire_id o = id /\
                      snapshot_date o = y).
  { intros y. unfold dates. rewrite in_map_iff. split.
    - intros [o [Ho Hf]]. apply filter_In in Hf. destruct Hf as [Hf Hb].
      apply Z.eqb_eq in Hb. eauto.
    - intros [o (Ho & Hb & Hy)]. exists o. split; [exact Hy|].
      apply filter_In. split; [exact Ho | now apply Z.eqb_eq]. }
  split.
  - intros H. destruct (max_of dates) as [m|] eqn:E; [|discriminate].
    apply Z.eqb_eq in H. subst m. apply max_of_spec in E. destruct E as [_ Hmax].
    repeat split; try assumption.
    intros other Ho Hoid. apply Hmax. apply Hdates. eauto.
  - intros (_ & _ & Hmax).
    assert (E : max_of dates = Some (snapshot_date ds)).
    { apply max_of_spec. split.
      - apply Hdates. eauto.
      - intros y Hy. apply Hdates in Hy. destruct Hy as [o (Ho & Hb & <-)]. auto. }
    rewrite E. apply Z.eqb_refl.
Qed.

(** The selection of the bulk run: the entities having a snapshot, each
    with the net worth of a snapshot of latest date. *)
Lemma select_latest_net_worth_spec (s : Store.t) (id nw : Z) :
  In (id, nw) (select_latest_net_worth s) <->
  (exists b, In b (billionaires s) /\ b_id b = id) /\
  exists ds, latest_for s id ds /\ net_worth ds = nw.
Proof.
  unfold select_latest_net_worth. rewrite in_flat_map. split.
  - intros [b [Hb Hx]]. apply in_map_iff in Hx. destruct Hx as [ds [Hp Hf]].
    injection Hp as <- <-. apply filter_In in Hf. destruct Hf as [Hds Hc].
    apply andb_true_iff in Hc. destruct Hc as [Hid Hmax]. apply Z.eqb_eq in Hid.
    split; [eauto|]. exists ds. split; [|reflexivity].
    now apply max_snapshot_date_spec.
  - intros [[b [Hb <-]] [ds [Hl <-]]]. exists b. split; [exact Hb|].
    apply in_map_iff. exists ds. split; [reflexivity|].
    pose proof Hl as (Hds & Hid & _).
    apply filter_In. split; [exact Hds|].
    apply andb_true_iff. split; [now apply Z.eqb_eq|].
    now apply max_snapshot_date_spec.
Qed.

Lemma filter_filter_and {A} (f g : A -> bool) (l : list A) :
  filter g (filter f l) = filter (fun x => f x && g x) l.
Proof.
  induction l as [|x l IH]; cbn; [reflexivity|].
  destruct (f x); cbn; [destruct (g x); now rewrite IH | exact IH].
Qed.

Lemma NoDup_map_filter {A K} (k : A -> K) (f : A -> bool) (l : list A) :
  NoDup (map k l) -> NoDup (map k (filter f l)).
Proof.
  induction l as [|x l IH]; cbn; intros H; [constructor|].
  inversion H as [|? ? Hx Hl]; subst.
  destruct (f x); cbn; [constructor|]; auto.
  intros Hin. apply Hx. apply in_map_iff in Hin. destruct Hin as [y [Hy Hf]].
  apply filter_In in Hf. apply in_map_iff. exists y. tauto.
Qed.

(** Rows sharing one key under a uniqueness constraint: at most one. *)
Lemma unique_key_at_most_one {A K} (k : A -> K) (key : K) (l : list A) :
  NoDup (map k l) -> (forall x, In x l -> k x = key) ->
  l = [] \/ exists x, l = [x].
Proof.
  destruct l as [|x [|y r]]; intros Hnd Hall; [now left | right; eauto |].
  exfalso. cbn in Hnd. inversion Hnd as [|? ? Hx _]; subst. apply Hx. left.
  rewrite (Hall x), (Hall y); cbn; auto.
Qed.

(** When no snapshot is dated after the day and the uniqueness constraint
    of [daily_snapshots] holds, the latest snapshot is the most recent one
    at or before the day. *)
Lemma latest_is_on_or_before (d : Z) (s : Store.t) :
  NoDup (map snap_key (daily_snapshots s)) ->
  (forall ds, In ds (daily_snapshots s) -> snapshot_date ds <= d) ->
  select_latest_net_worth s = covered_on_or_before d s.
Proof.
  intros Hnd Hle. unfold select_latest_net_worth, covered_on_or_before.
  apply flat_map_ext. intros b.
  unfold net_worth_on_or_before, max_snapshot_date.
  assert (Hel : filter (fun ds => (ds_billionaire_id ds =? b_id b)
                                  && (snapshot_date ds <=? d)) (daily_snapshots s)
                = filter (fun ds => ds_billionaire_id ds =? b_id b) (daily_snapshots s)).
  { apply filter_ext_in. intros ds Hds.
    rewrite (proj2 (Z.leb_le _ _) (Hle ds Hds)). apply andb_true_r. }
  rewrite Hel.
  set (mine := filter (fun ds => ds_billionaire_id ds =? b_id b) (daily_snapshots s)).
  destruct (max_of (map snapshot_date mine)) as [m|] eqn:E.
  - cbn [is_date].
    rewrite <- (filter_filter_and (fun ds => ds_billionaire_id ds =? b_id b)
                                  (fun ds => snapshot_date ds =? m)).
    fold mine.
    set (F := filter (fun ds => snapshot_date ds =? m) mine).
    assert (HF : F = [] \/ exists x, F = [x]).
    { apply (unique_key_at_most_one snap_key (b_id b, m)).
      - unfold F, mine. now do 2 apply NoDup_map_filter.
      - intros x Hx. unfold F, mine in Hx.
        apply filter_In in Hx. destruct Hx as [Hx Hm].
        apply filter_In in Hx. destruct Hx as [_ Hid].
        apply Z.eqb_eq in Hm, Hid. unfold snap_key. now rewrite Hm, Hid. }
    destruct HF as [HF|[x HF]]; rewrite HF.
    + exfalso. apply max_of_spec in E. destruct E as [Hin _].
      apply in_map_iff in Hin. destruct Hin as [x [Hx Hin]].
      assert (Hx' : In x F).
      { unfold F. apply filter_In. split; [exact Hin | now apply Z.eqb_eq]. }
      rewrite HF in Hx'. destruct Hx'.
    + reflexivity.
  - cbn [is_date].
    assert (Hnil : forall l : list DailySnapshot,
              filter (fun ds => (ds_billionaire_id ds =? b_id b) && false) l = []).
    { induction l as [|x l IH]; cbn; [reflexivity|].
      now rewrite andb_false_r. }
    now rewrite Hnil.
Qed.

End SnapshotFacts.

(* ================================================================= *)
(** ** Which snapshot the bulk pre-computation reads *)

Module BulkSelection.
Import JS Number Effect Store Text Comparisons Plan Spec BulkFacts SnapshotFacts.

Lemma gt0_positive (x : number) : gt0 x = true <-> positive x.
Proof.
  destruct x as [a| | |]; cbn; try (split; [discriminate | tauto]);
    [|split; auto].
  destruct (Qlt_le_dec 0 a) as [H|H]; split; auto; try discriminate.
  intros H'. exfalso. apply (Qlt_not_le _ _ H' H).
Qed.

Lemma comparison_row_fields (id cid d : Z) (u q : number) (x : CalculatedComparison) :
  comparison_row id cid d u q = Some x ->
  calc_billionaire_id x = id /\ comparison_cost_id x = cid /\
  calculation_date x = d /\
  as_int8 u = Some (net_worth_used x) /\ as_int8 q = Some (quantity x).
Proof.
  unfold comparison_row. destruct (as_int8 u); [|discriminate].
  destruct (as_int8 q); [|discriminate]. intros [= <-]. cbn. auto.
Qed.

(** C5 (as amended). Bulk pre-computation reads, for each entity having a
    snapshot of any date, the net worth of that entity's most recent
    snapshot, whatever the calculation day.  Every row found in the table
    after the call was there before or is a row of the calculation day
    computed from that net worth, for an active cost whose quantity is
    positive; and when the call returns, each such pair has its row for the
    day.  The snapshot read is the most recent at or before the calculation
    day when no snapshot is dated after that day. *)
Theorem bulk_uses_latest_snapshot (d : Z) (s : Store.t) (v : string) :
  hd_error (select_threshold s) = Some v ->
  let thr := parseInt v in
  let latest := select_latest_net_worth s in
  let costs := select_active_costs s in
  let s' := snd (calculateAndStoreComparisons d s) in
  (forall id nw, In (id, nw) latest <->
     (exists b, In b (billionaires s) /\ b_id b = id) /\
     exists ds, latest_for s id ds /\ net_worth ds = nw) /\
  (forall x, In x (calculated_comparisons s') ->
     In x (calculated_comparisons s) \/
     (calculation_date x = d /\
      exists nw c, In (calc_billionaire_id x, nw) latest /\
                   In (comparison_cost_id x, c) costs /\
                   positive (quantity_of (of_integer nw) thr c) /\
                   as_int8 (usableWealthMillions (of_integer nw) thr)
                   = Some (net_worth_used x) /\
                   as_int8 (quantity_of (of_integer nw) thr c)
                   = Some (quantity x))) /\
  (forall n, fst (calculateAndStoreComparisons d s) = Returned n ->
     forall id nw cid c, In (id, nw) latest -> In (cid, c) costs ->
       positive (quantity_of (of_integer nw) thr c) ->
       exists x, In x (calculated_comparisons s') /\
                 calc_key x = (id, cid, d)) /\
  (NoDup (map snap_key (daily_snapshots s)) ->
   (forall ds, In ds (daily_snapshots s) -> snapshot_date ds <= d) ->
   latest = covered_on_or_before d s).
Proof.
  intros Hv thr latest costs s'.
  assert (Hplan : calculateAndStoreComparisons d s
                  = run_statements (attempts d thr latest costs) 0
                      (tick (tick (tick s)))).
  { rewrite calculateAndStoreComparisons_plan.
    destruct (select_threshold s) as [|v0 rest]; [discriminate|].
    cbn in Hv. injection Hv as ->. reflexivity. }
  pose proof (run_statements_store (attempts d thr latest costs) 0
                (tick (tick (tick s)))) as Hstore.
  cbv zeta in Hstore. rewrite <- Hplan in Hstore. fold s' in Hstore.
  destruct Hstore as [Htab _].
  change (calculated_comparisons (tick (tick (tick s))))
    with (calculated_comparisons s) in Htab.
  split; [intros id nw; apply select_latest_net_worth_spec|].
  split; [|split].
  - intros x Hx. rewrite Htab in Hx. apply fold_upsert_In in Hx.
    destruct Hx as [Hx|Hx]; [right | now left].
    apply rows_In in Hx.
    destruct Hx as [[id nw] [[cid c] (Hb & Hc & Hq & E)]]. cbn [fst snd] in *.
    apply comparison_row_fields in E. destruct E as (E1 & E2 & E3 & E4 & E5).
    split; [exact E3|]. exists nw, c. rewrite E1, E2.
    split; [exact Hb|]. split; [exact Hc|]. split; [now apply gt0_positive|].
    split; assumption.
  - intros n Hn id nw cid c Hb Hc Hq.
    apply gt0_positive in Hq.
    destruct (run_statements_outcome (attempts d thr latest costs) 0
                (tick (tick (tick s)))) as [[Hr _]|[_ [e He]]];
      [|rewrite <- Hplan in He; congruence].
    assert (Hin : In (comparison_row id cid d
                        (usableWealthMillions (of_integer nw) thr)
                        (quantity_of (of_integer nw) thr c))
                     (attempts d thr latest costs)).
    { apply attempts_In. exists (id, nw), (cid, c). auto. }
    rewrite <- (accepted_all _ Hr) in Hin. apply in_map_iff in Hin.
    destruct Hin as [x [Ex Hx]].
    pose proof (fold_upsert_key_in (accepted (attempts d thr latest costs))
                  (calculated_comparisons s) x Hx) as Hk.
    rewrite <- Htab in Hk. apply in_map_iff in Hk. destruct Hk as [y [Ey Hy]].
    exists y. split; [exact Hy|]. rewrite Ey.
    symmetry in Ex. now apply comparison_row_key in Ex.
  - apply latest_is_on_or_before.
Qed.

Lemma bulk_uses_latest_snapshot_witness :
  exists x,
    In x (calculated_comparisons
            (snd (calculateAndStoreComparisons 100 Examples.ada_yesterday))) /\
    calc_key x = (1, 1, 100).
Proof.
  pose proof (bulk_uses_latest_snapshot 100 Examples.ada_yesterday "10000000" eq_refl)
    as H.
  cbv zeta in H.
  apply (proj1 (proj2 (proj2 H)) 3 ltac:(vm_compute; reflexivity) 1 500 1 15000%Q).
  - now left.
  - now left.
  - vm_compute. reflexivity.
Defined.

(** C5, as first stated, bounds the snapshot read by the calculation day.
    With snapshots on day 1 (100) and day 3 (200) and calculation day 2, the
    code reads the snapshot of day 3. *)
Lemma bulk_reads_snapshot_after_calculation_day :
  select_latest_net_worth Examples.ada_two_days = [(1, 200)] /\
  covered_on_or_before 2 Examples.ada_two_days = [(1, 100)] /\
  select_latest_net_worth Examples.ada_two_days
  <> covered_on_or_before 2 Examples.ada_two_days.
Proof.
  split; [reflexivity|]. split; [reflexivity|]. discriminate.
Qed.

End BulkSelection.

(* ================================================================= *)
(** ** Properties of the history query *)

Module HistoryFacts.
Import JS Number Effect Store Billionaires.

Section OrderBy.
Context {A : Type} (k : A -> Z).

Local Abbreviation le_key := (fun a b : A => k a <= k b).

Lemma insert_by_HdRel (x a : A) (l : list A) :
  k a <= k x -> HdRel le_key a l -> HdRel le_key a (insert_by k x l).
Proof.
  intros Hax Hl. destruct l as [|y r]; cbn.
  - now constructor.
  - destruct (k y <? k x); constructor; [|exact Hax].
    now apply HdRel_inv in Hl.
Qed.

Lemma insert_by_sorted (x : A) (l : list A) :
  Sorted le_key l -> Sorted le_key (insert_by k x l).
Proof.
  induction l as [|y r IH]; intros Hs; cbn.
  - constructor; constructor.
  - apply Sorted_inv in Hs. destruct Hs as [Hr Hy].
    destruct (k y <? k x) eqn:E.
    + apply Z.ltb_lt in E. constructor.
      * now apply IH.
      * apply insert_by_HdRel; [lia | exact Hy].
    + apply Z.ltb_ge in E. constructor.
      * constructor; assumption.
      * constructor. lia.
Qed.

Lemma order_by_sorted (l : list A) : Sorted le_key (order_by k l).
Proof.
  induction l as [|x l IH]; [constructor|].
  change (order_by k (x :: l)) with (insert_by k x (order_by k l)).
  now apply insert_by_sorted.
Qed.

Lemma insert_by_length (x : A) (l : list A) :
  List.length (insert_by k x l) = S (List.length l).
Proof.
  induction l as [|y r IH]; cbn; [reflexivity|].
  destruct (k y <? k x); cbn; [now rewrite IH | reflexivity].
Qed.

Lemma order_by_length (l : list A) : List.length (order_by k l) = List.length l.
Proof.
  induction l as [|x l IH]; [reflexivity|].
  change (order_by k (x :: l)) with (insert_by k x (order_by k l)).
  now rewrite insert_by_length, IH.
Qed.

End OrderBy.

(** What the validation accepts: the whole numbers from 1 to 365. *)
Lemma validation_accepts_iff (days : number) :
  (negb (isInteger days) || lt days 1 || gt days 365) = false <->
  exists n : Z, 1 <= n <= 365 /\ days_of days = n /\
                exists a, days = Num a /\ (a == inject_Z n)%Q.
Proof.
  destruct days as [a| | |]; cbn [isInteger lt gt negb orb days_of].
  - rewrite !orb_false_iff, negb_false_iff.
    destruct (Qlt_le_dec a 1) as [H1|H1]; destruct (Qlt_le_dec 365 a) as [H2|H2];
      split;
      try (intros [[_ ?] ?]; discriminate);
      try (intros [n [Hn [Hd [a' [[= <-] Ha]]]]]; exfalso;
           rewrite Ha in *;
           change 1%Q with (inject_Z 1) in *; change 365%Q with (inject_Z 365) in *;
           rewrite <- ?Zlt_Qlt, <- ?Zle_Qle in *; lia).
    + intros [[Hi _] _]. apply Qeq_bool_eq in Hi. exists (Qfloor a).
      change 1%Q with (inject_Z 1) in H1. change 365%Q with (inject_Z 365) in H2.
      rewrite Hi in H1, H2. rewrite <- Zle_Qle in H1, H2.
      repeat split; try lia. exists a. split; [reflexivity | exact Hi].
    + intros [n [Hn [Hd [a' [[= <-] Ha]]]]]. repeat split.
      apply Qeq_bool_iff. rewrite Ha at 1. rewrite (Qfloor_comp _ _ Ha).
      now rewrite Qfloor_Z.
  - split; [discriminate | intros [n [_ [_ [a [? _]]]]]; discriminate].
  - split; [discriminate | intros [n [_ [_ [a [? _]]]]]; discriminate].
  - split; [discriminate | intros [n [_ [_ [a [? _]]]]]; discriminate].
Qed.

(** A [days] that is not a whole number, is below 1 or above 365 is rejected
    with an error before the store is queried: the store, and its count of
    executed statements, are untouched. *)
Lemma invalid_days_rejected_before_query (id : Z) (days : number) (s : Store.t) :
  (negb (isInteger days) || lt days 1 || gt days 365) = true ->
  getBillionaireHistory id days s
  = (Thrown (Error "Invalid days parameter. Must be an integer between 1 and 365."), s).
Proof.
  intros H. unfold getBillionaireHistory. rewrite H. reflexivity.
Qed.

Lemma rejected_examples (id : Z) (s : Store.t) :
  (forall days, In days [Num 0; Num 366; Num (7 # 2); NaN; Infinity; Num (-1)] ->
     exists e, getBillionaireHistory id days s = (Thrown e, s)).
Proof.
  intros days H. cbn in H.
  repeat (destruct H as [<-|H];
          [eexists; apply invalid_days_rejected_before_query; reflexivity|]).
  destruct H.
Qed.

(** Accepted input: one query, whose rows are in ascending order of date and
    are the snapshots of the entity dated [CURRENT_DATE - days] or later. *)
Lemma valid_days_history (id : Z) (days : number) (s : Store.t) :
  (negb (isInteger days) || lt days 1 || gt days 365) = false ->
  getBillionaireHistory id days s
  = (Returned (select_history id (days_of days) s), tick s) /\
  Sorted (fun a b => h_snapshot_date a <= h_snapshot_date b)
         (select_history id (days_of days) s) /\
  List.length (select_history id (days_of days) s)
  = List.length (filter (fun ds => (ds_billionaire_id ds =? id)
                                   && (current_date s - days_of days <=? snapshot_date ds))
                        (daily_snapshots s)).
Proof.
  intros H. unfold getBillionaireHistory. rewrite H. split; [reflexivity|].
  unfold select_history. split.
  - set (l := order_by snapshot_date _).
    assert (Hs : Sorted (fun a b => snapshot_date a <= snapshot_date b) l)
      by apply order_by_sorted.
    induction Hs as [|x l Hl IH Hx]; cbn; constructor; [exact IH|].
    destruct Hx; cbn; constructor. assumption.
  - now rewrite length_map, order_by_length.
Qed.

(** Distinct whole numbers within [lo, hi] are at most [hi - lo + 1]. *)
Lemma distinct_in_range (lo hi : Z) (l : list Z) :
  NoDup l -> (forall x, In x l -> lo <= x <= hi) ->
  Z.of_nat (List.length l) <= Z.max 0 (hi - lo + 1).
Proof.
  intros Hnd Hr.
  set (all := map (fun i => lo + Z.of_nat i) (seq 0 (Z.to_nat (hi - lo + 1)))).
  assert (Hincl : incl l all).
  { intros x Hx. specialize (Hr x Hx). unfold all. apply in_map_iff.
    exists (Z.to_nat (x - lo)). split; [lia|]. apply in_seq. lia. }
  pose proof (NoDup_incl_length Hnd Hincl) as Hlen.
  unfold all in Hlen. rewrite length_map, length_seq in Hlen. lia.
Qed.

(** With the uniqueness constraint of [daily_snapshots] and no snapshot dated
    after the current date, an accepted request for [days] returns at most
    [days + 1] rows: the window of the query has both ends included. *)
Lemma history_at_most_days_plus_one (id days : Z) (s : Store.t) :
  NoDup (map Spec.snap_key (daily_snapshots s)) ->
  (forall ds, In ds (daily_snapshots s) -> snapshot_date ds <= current_date s) ->
  0 <= days ->
  Z.of_nat (List.length (select_history id days s)) <= days + 1.
Proof.
  intros Hnd Hfut Hdays. unfold select_history.
  rewrite length_map, order_by_length.
  set (mine := filter _ (daily_snapshots s)).
  assert (Hd : NoDup (map snapshot_date mine)).
  { assert (Hk : NoDup (map Spec.snap_key mine))
      by (unfold mine; now apply SnapshotFacts.NoDup_map_filter).
    assert (Hid : forall x, In x mine -> ds_billionaire_id x = id).
    { intros x Hx. unfold mine in Hx. apply filter_In in Hx.
      destruct Hx as [_ Hx]. apply andb_true_iff in Hx. now apply Z.eqb_eq. }
    clear -Hk Hid. induction mine as [|a l IH]; cbn; [constructor|].
    cbn in Hk. inversion Hk as [|? ? Ha Hl]; subst. constructor.
    - intros Hin. apply Ha. apply in_map_iff in Hin. destruct Hin as [b [Hb Hin]].
      apply in_map_iff. exists b. split; [|exact Hin].
      unfold Spec.snap_key. rewrite Hb.
      now rewrite (Hid a (or_introl eq_refl)), (Hid b (or_intror Hin)).
    - apply IH; [exact Hl|]. intros x Hx. apply Hid. now right. }
  pose proof (distinct_in_range (current_date s - days) (current_date s)
                (map snapshot_date mine) Hd) as Hb.
  rewrite length_map in Hb.
  assert (Hrange : forall x, In x (map snapshot_date mine) ->
                             current_date s - days <= x <= current_date s).
  { intros x Hx. apply in_map_iff in Hx. destruct Hx as [ds [<- Hin]].
    unfold mine in Hin. apply filter_In in Hin. destruct Hin as [Hin Hc].
    apply andb_true_iff in Hc. destruct Hc as [_ Hc]. apply Z.leb_le in Hc.
    split; [exact Hc | now apply Hfut]. }
  specialize (Hb Hrange). lia.
Qed.

(** C8 (the behaviour of the code at the failing input). With one snapshot on
    each of the 31 days from [CURRENT_DATE - 30] to [CURRENT_DATE], a request
    for [days = 30] returns 31 rows, though in ascending order of date. *)
Theorem history_of_30_days_has_31_rows :
  exists rows,
    getBillionaireHistory 1 (Num 30) Examples.ada_month
    = (Returned rows, tick Examples.ada_month) /\
    List.length rows = 31%nat /\
    map h_snapshot_date rows = map (fun i => 70 + Z.of_nat i) (seq 0 31).
Proof.
  eexists. split; [reflexivity|]. split; reflexivity.
Qed.

End HistoryFacts.

(* ================================================================= *)
(** ** Properties of the aggregate statistics *)

Module StatsFacts.
Import JS Number Effect Store Text Comparisons Stats Spec SnapshotFacts.

(** The rows summed: the snapshots of the latest date of the whole table
    whose rank is within the top fifty. *)
Lemma top_rows_spec (s : Store.t) (ds : DailySnapshot) :
  In ds (top_rows s) <->
  In ds (daily_snapshots s) /\
  (forall other, In other (daily_snapshots s) -> snapshot_date other <= snapshot_date ds) /\
  exists r, rank ds = Some r /\ r <= 50.
Proof.
  unfold top_rows. rewrite filter_In, andb_true_iff.
  split.
  - intros (Hin & Hd & Hr). split; [exact Hin|]. split.
    + unfold is_date in Hd.
      destruct (max_of (map snapshot_date (daily_snapshots s))) as [m|] eqn:E;
        [|discriminate].
      apply Z.eqb_eq in Hd. subst m. apply max_of_spec in E. destruct E as [_ Hmax].
      intros other Ho. apply Hmax. now apply in_map.
    + destruct (rank ds) as [r|]; [|discriminate].
      exists r. split; [reflexivity | now apply Z.leb_le].
  - intros (Hin & Hmax & r & Hr & Hle). split; [exact Hin|]. split.
    + assert (E : max_of (map snapshot_date (daily_snapshots s))
                  = Some (snapshot_date ds)).
      { apply max_of_spec. split; [now apply in_map|].
        intros y Hy. apply in_map_iff in Hy. destruct Hy as [o [<- Ho]]. auto. }
      rewrite E. apply Z.eqb_refl.
    + rewrite Hr. now apply Z.leb_le.
Qed.

Lemma is_latest_of_entity_spec (s : Store.t) (ds : DailySnapshot) :
  In ds (daily_snapshots s) ->
  (is_latest_of_entity s ds = true <-> latest_for s (ds_billionaire_id ds) ds).
Proof.
  intros Hin. unfold is_latest_of_entity, latest_for. rewrite forallb_forall. split.
  - intros H. repeat split; try assumption.
    intros other Ho Hid. specialize (H other Ho).
    apply orb_true_iff in H. destruct H as [H|H].
    + apply negb_true_iff, Z.eqb_neq in H. contradiction.
    + now apply Z.leb_le.
  - intros (_ & _ & H) other Ho. apply orb_true_iff.
    destruct (Z.eq_dec (ds_billionaire_id other) (ds_billionaire_id ds)) as [E|E].
    + right. apply Z.leb_le. auto.
    + left. now apply negb_true_iff, Z.eqb_neq.
Qed.

Lemma getAggregateStats_unfold (now : Z) (s : Store.t) :
  getAggregateStats now s =
  let total := match fst (select_wealth s) with Some t => t | None => 0 end in
  match getAggregateComparisons (of_Z total) "Global" (tick (tick s)) with
  | (Returned top, s') =>
      (Returned (mkAggregateStatsData total (snd (select_wealth s)) (firstn 6 top)
                   (match select_last_update s with u :: _ => u | [] => now end)),
       s')
  | (Thrown e, s') => (Thrown e, s')
  end.
Proof.
  unfold getAggregateStats, bind, query_select, ret. cbv zeta.
  change (select_last_update (tick s)) with (select_last_update s).
  destruct (getAggregateComparisons _ "Global" (tick (tick s))) as [[top|e] s'];
    reflexivity.
Qed.

(** C9 (as amended). With the threshold configured and an active catalog for
    ['Global'], the statistics computation returns the sum of the wealth of
    the snapshots taken on the most recent snapshot date of the store whose
    rank is not null and at most 50, together with their count, and changes
    nothing in the store but the count of executed statements.  Each snapshot
    summed is the most recent snapshot of its own entity and belongs to the
    top fifty by latest rank; the two sets are the same when every entity's
    most recent snapshot is dated on the most recent date of the store. *)
Theorem aggregate_stats_sum_latest_day (now : Z) (s : Store.t) (v : string) :
  hd_error (select_threshold s) = Some v ->
  active_in_region "Global" s <> [] ->
  exists stats,
    getAggregateStats now s = (Returned stats, tick (tick (tick (tick s)))) /\
    totalWealth stats = sum_of (map net_worth (top_rows s)) /\
    billionaireCount stats = Z.of_nat (List.length (top_rows s)) /\
    (forall ds, In ds (top_rows s) <->
       In ds (daily_snapshots s) /\
       (forall other, In other (daily_snapshots s) ->
                      snapshot_date other <= snapshot_date ds) /\
       exists r, rank ds = Some r /\ r <= 50) /\
    (forall ds, In ds (top_rows s) ->
       latest_for s (ds_billionaire_id ds) ds /\ In ds (top_by_latest_rank s)) /\
    ((forall ds other, In ds (daily_snapshots s) -> In other (daily_snapshots s) ->
        is_latest_of_entity s ds = true -> snapshot_date other <= snapshot_date ds) ->
     top_rows s = top_by_latest_rank s).
Proof.
  intros Hv Hg.
  rewrite getAggregateStats_unfold. cbv zeta.
  rewrite ComparisonFacts.getAggregateComparisons_unfold.
  change (includes VALID_REGIONS "Global") with true. cbv zeta.
  change (select_threshold (tick (tick s))) with (select_threshold s).
  destruct (select_threshold s) as [|v0 rest]; [discriminate|].
  change (String.eqb "Global" "Global") with true. rewrite andb_false_r.
  change (select_costs_by_region "Global" (tick (tick s)))
    with (select_costs_by_region "Global" s).
  destruct (select_costs_by_region "Global" s) as [|c cs] eqn:Ec.
  { exfalso. unfold select_costs_by_region in Ec.
    assert (Hlen : List.length (order_by display_order (active_in_region "Global" s))
                   = List.length (active_in_region "Global" s))
      by apply HistoryFacts.order_by_length.
    destruct (active_in_region "Global" s) as [|a r]; [now apply Hg|].
    destruct (order_by display_order (a :: r)); cbn in *; discriminate. }
  cbn [List.length Nat.eqb].
  eexists. split; [reflexivity|]. cbn [totalWealth billionaireCount].
  split; [unfold select_wealth; cbn [fst]; destruct (top_rows s); reflexivity|].
  split; [reflexivity|].
  split; [intros ds; apply top_rows_spec|].
  assert (Hlatest : forall ds, In ds (top_rows s) ->
                               latest_for s (ds_billionaire_id ds) ds).
  { intros ds Hds. apply top_rows_spec in Hds. destruct Hds as (Hin & Hmax & _).
    repeat split; auto. }
  split.
  - intros ds Hds. split; [now apply Hlatest|].
    unfold top_by_latest_rank. apply filter_In.
    pose proof Hds as Hds'. apply top_rows_spec in Hds'.
    destruct Hds' as (Hin & _ & r & Hr & Hle).
    split; [exact Hin|]. apply andb_true_iff. split.
    + apply is_latest_of_entity_spec; [exact Hin | now apply Hlatest].
    + rewrite Hr. now apply Z.leb_le.
  - intros Hall. unfold top_rows, top_by_latest_rank.
    apply filter_ext_in. intros ds Hin. f_equal.
    destruct (is_latest_of_entity s ds) eqn:El.
    + assert (E : max_of (map snapshot_date (daily_snapshots s))
                  = Some (snapshot_date ds)).
      { apply max_of_spec. split; [now apply in_map|].
        intros y Hy. apply in_map_iff in Hy. destruct Hy as [o [<- Ho]].
        now apply (Hall ds o). }
      rewrite E. apply Z.eqb_refl.
    + unfold is_date.
      destruct (max_of (map snapshot_date (daily_snapshots s))) as [m|] eqn:E;
        [|reflexivity].
      destruct (snapshot_date ds =? m) eqn:Em; [|reflexivity].
      apply Z.eqb_eq in Em. subst m. apply max_of_spec in E. destruct E as [_ Hmax].
      assert (L : is_latest_of_entity s ds = true).
      { apply is_latest_of_entity_spec; [exact Hin|].
        repeat split; auto. intros other Ho _. apply Hmax. now apply in_map. }
      congruence.
Qed.

Lemma aggregate_stats_sum_latest_day_witness :
  exists stats,
    getAggregateStats 0 Examples.ada_stale
    = (Returned stats, tick (tick (tick (tick Examples.ada_stale)))) /\
    totalWealth stats = sum_of (map net_worth (top_rows Examples.ada_stale)).
Proof.
  destruct (aggregate_stats_sum_latest_day 0 Examples.ada_stale "10000000" eq_refl)
    as [stats (H1 & H2 & _)].
  - discriminate.
  - exists stats. split; assumption.
Defined.

(** C9, as first stated, sums over the entities ranked within the top fifty by
    their latest rank.  With Ada last seen on day 1 (rank 1, 100) and Bob on
    day 2 (rank 2, 200), both are in that set, with 300 in total; the code
    returns 200 for one entity. *)
Lemma aggregate_stats_skip_stale_entities :
  map net_worth (top_by_latest_rank Examples.ada_stale) = [100; 200] /\
  exists stats,
    fst (getAggregateStats 0 Examples.ada_stale) = Returned stats /\
    totalWealth stats = 200 /\ billionaireCount stats = 1 /\
    totalWealth stats <> sum_of (map net_worth (top_by_latest_rank Examples.ada_stale)) /\
    billionaireCount stats
    <> Z.of_nat (List.length (top_by_latest_rank Examples.ada_stale)).
Proof.
  split; [reflexivity|]. eexists. split; [vm_compute; reflexivity|].
  repeat split; discriminate.
Qed.

End StatsFacts.

(* ================================================================= *)
(** ** Properties of the ingestion of one record *)

Module IngestFacts.
Import JS Number Effect Store Text Billionaires Route Spec NumberFacts.

Lemma has_slug_key (sl : string) (new r : Billionaire) :
  slug new = sl -> (has_slug sl r = true <-> slug r = slug new).
Proof. intros <-. unfold has_slug. apply String.eqb_eq. Qed.

Lemma first_id_empty_iff (sl : string) (l : list Billionaire) :
  Nat.eqb (List.length (firstn 1 (map b_id (filter (has_slug sl) l)))) 0
  = negb (existsb (has_slug sl) l).
Proof.
  induction l as [|b l IH]; cbn; [reflexivity|].
  destruct (has_slug sl b); cbn; [reflexivity | exact IH].
Qed.

Section Upserted.
Variables (data : UpsertData) (name : string) (s : Store.t).

Local Abbreviation new_row :=
  (row_of data name (billionaires_id_seq s) (current_timestamp s) (current_timestamp s)).
Local Abbreviation repl_row :=
  (fun b => row_of data name (b_id b) (b_created_at b) (current_timestamp s)).

Lemma upserted_conflict_key (r : Billionaire) :
  has_slug (u_slug data) r = true <-> slug r = slug new_row.
Proof. now apply has_slug_key. Qed.

Lemma upserted_repl_slug (r : Billionaire) :
  has_slug (u_slug data) r = true -> slug (repl_row r) = slug r.
Proof. intros H. apply String.eqb_eq in H. now rewrite H. Qed.

Lemma upserted_repl_id (r : Billionaire) :
  has_slug (u_slug data) r = true -> b_id (repl_row r) = b_id r.
Proof. reflexivity. Qed.

(** The slugs after the upsert: the same, or one more. *)
Lemma upserted_slugs :
  map slug (upserted_rows data name s)
  = if existsb (has_slug (u_slug data)) (billionaires s)
    then map slug (billionaires s)
    else map slug (billionaires s) ++ [u_slug data].
Proof.
  unfold upserted_rows.
  rewrite (UpsertFacts.upsert_keys slug _ _ _ upserted_repl_slug). reflexivity.
Qed.

Lemma upserted_slug_NoDup :
  NoDup (map slug (billionaires s)) -> NoDup (map slug (upserted_rows data name s)).
Proof.
  apply (UpsertFacts.upsert_NoDup slug _ _ _ upserted_conflict_key upserted_repl_slug).
Qed.

Lemma upserted_has_slug :
  existsb (has_slug (u_slug data)) (upserted_rows data name s) = true.
Proof.
  pose proof (UpsertFacts.upsert_key_in slug _ _ _ upserted_conflict_key
                upserted_repl_slug (billionaires s)) as H.
  apply in_map_iff in H. destruct H as [r [Hr Hin]].
  apply existsb_exists. exists r. split; [exact Hin|].
  now apply upserted_conflict_key.
Qed.

(** An existing row keeps its slug and its id. *)
Lemma upserted_slug_id_mono (x : string * Z) :
  In x (map (fun b => (slug b, b_id b)) (billionaires s)) ->
  In x (map (fun b => (slug b, b_id b)) (upserted_rows data name s)).
Proof.
  apply (UpsertFacts.upsert_keys_mono (fun b => (slug b, b_id b))).
  intros r Hr. cbn. f_equal. apply String.eqb_eq in Hr. now rewrite Hr.
Qed.

(** RETURNING yields a row: the first row with the slug. *)
Lemma upserted_returns_id :
  exists id rest,
    map b_id (filter (has_slug (u_slug data)) (upserted_rows data name s)) = id :: rest /\
    In (u_slug data, id) (map (fun b => (slug b, b_id b)) (upserted_rows data name s)).
Proof.
  pose proof upserted_has_slug as H. apply existsb_exists in H.
  destruct H as [r [Hin Hr]].
  assert (Hf : In r (filter (has_slug (u_slug data)) (upserted_rows data name s)))
    by (apply filter_In; auto).
  destruct (filter (has_slug (u_slug data)) (upserted_rows data name s))
    as [|b bs] eqn:E; [destruct Hf|].
  exists (b_id b), (map b_id bs). split; [reflexivity|].
  assert (Hb : In b (filter (has_slug (u_slug data)) (upserted_rows data name s)))
    by (rewrite E; now left).
  apply filter_In in Hb. destruct Hb as [Hb Hs]. apply String.eqb_eq in Hs.
  apply in_map_iff. exists b. split; [now rewrite Hs | exact Hb].
Qed.

End Upserted.

(** [upsertBillionaire] on a record with a name whose texts fit: it
    returns, and [wasCreated] tells that no row had the slug before the
    call. *)
Lemma upsertBillionaire_named (data : UpsertData) (name : string) (s : Store.t) :
  u_name data = Some name -> fits data name = true ->
  exists id,
    In (u_slug data, id)
       (map (fun b => (slug b, b_id b)) (upserted_rows data name s)) /\
    upsertBillionaire data s
    = (Returned (id, negb (existsb (has_slug (u_slug data)) (billionaires s))),
       tick (set_billionaires (upserted_rows data name s)
                              (billionaires_id_seq s + 1) (tick s))).
Proof.
  intros Hn Hfit.
  destruct (upserted_returns_id data name s) as [id [rest [Hid Hin]]].
  exists id. split; [exact Hin|].
  unfold upsertBillionaire, bind, query_select, query_write, insert_on_conflict_update.
  change (u_name data) with (u_name data). rewrite Hn, Hfit.
  change (billionaires_id_seq (tick s)) with (billionaires_id_seq s).
  change (upserted_rows data name (tick s)) with (upserted_rows data name s).
  rewrite Hid. unfold select_id_by_slug. rewrite first_id_empty_iff. reflexivity.
Qed.

(** [upsertBillionaire] on a record without a name, or with a text longer
    than its column: the store refuses the row; only the id sequence and
    the statement count have moved. *)
Lemma upsertBillionaire_refused (data : UpsertData) (s : Store.t) :
  match u_name data with
  | Some name => fits data name = false
  | None => True
  end ->
  exists e,
    upsertBillionaire data s
    = (Thrown e,
       tick (set_billionaires (billionaires s) (billionaires_id_seq s + 1) (tick s))).
Proof.
  intros H.
  unfold upsertBillionaire, bind, query_select, query_write, insert_on_conflict_update.
  change (u_name data) with (u_name data).
  destruct (u_name data) as [name|]; [rewrite H|]; eexists; reflexivity.
Qed.


Lemma entity_of_some (p : ForbesPerson) (sl name : string) :
  entity_of p = Some (sl, name) ->
  exists n, slug_source p = Some n /\ sl = createSlug n /\
            personName p = Some name /\ fits (upsert_data p sl) name = true.
Proof.
  unfold entity_of. destruct (slug_source p) as [n|]; [|discriminate].
  destruct (personName p) as [nm|]; [|discriminate].
  destruct (fits (upsert_data p (createSlug n)) nm) eqn:E; [|discriminate].
  intros [= <- <-]. exists n. auto.
Qed.

(** A record whose entity the store accepts: the entity is upserted under
    its slug and counted as created exactly when the slug was new; then the
    snapshot of the day is upserted, or, when the store refuses it, the
    record is counted as failed as well. *)
Lemma process_record_accepted (today : Z) (p : ForbesPerson) (r : Run)
    (sl name : string) :
  entity_of p = Some (sl, name) ->
  let data := upsert_data p sl in
  let seen := existsb (has_slug sl) (billionaires (store r)) in
  exists id r',
    process_record today p r = (Returned tt, r') /\
    In (sl, id) (map (fun b => (slug b, b_id b)) (billionaires (store r'))) /\
    billionaires (store r') = upserted_rows data name (store r) /\
    recordsCreated r' = recordsCreated r + (if seen then 0 else 1) /\
    recordsUpdated r' = recordsUpdated r + (if seen then 1 else 0) /\
    dataSourceId r' = dataSourceId r /\
    reference_data (store r') = reference_data (store r) /\
    match snapshot_row today p id r with
    | Some row =>
        daily_snapshots (store r') = upsert_snapshot row (daily_snapshots (store r)) /\
        recordsFailed r' = recordsFailed r
    | None =>
        daily_snapshots (store r') = daily_snapshots (store r) /\
        recordsFailed r' = recordsFailed r + 1
    end.
Proof.
  intros He data seen.
  destruct (entity_of_some p sl name He) as [n (Hsrc & -> & Hname & Hfit)].
  destruct (upsertBillionaire_named data name (store r) Hname Hfit) as [id [Hin Hup]].
  exists id.
  unfold process_record, try_catch, process_person, bind.
  rewrite Hsrc. unfold ret at 1. fold data.
  unfold on_store at 1, zoom. rewrite Hup.
  change (existsb (has_slug (u_slug data)) (billionaires (store r))) with seen.
  unfold snapshot_row.
  destruct seen; cbn [negb].
  all: unfold modify at 1, on_store at 1, zoom, query_select, get.
  all: cbn [fst snd store set_store].
  all: unfold on_store, zoom, insertDailySnapshot, query_write.
  all: cbn [fst snd store set_store count_created count_updated dataSourceId
            daily_snapshots tick set_billionaires].
  all: match goal with
       | |- context [snapshot_of ?d] =>
           change (snapshot_of d)
             with (snapshot_of (snapshot_data today p id
                                  (select_yesterday id today (store r))
                                  (dataSourceId r)))
       end.
  all: destruct (snapshot_of (snapshot_data today p id
                                (select_yesterday id today (store r))
                                (dataSourceId r))) as [row|].
  all: eexists; split; [reflexivity|].
  all: split; [exact Hin|]; split; [reflexivity|].
  all: cbn; repeat split; try lia; reflexivity.
Qed.

(** A record whose entity the store does not accept fails and is counted as
    failed; no row of [billionaires] or [daily_snapshots] is written. *)
Lemma process_record_refused (today : Z) (p : ForbesPerson) (r : Run) :
  entity_of p = None ->
  exists r',
    process_record today p r = (Returned tt, r') /\
    billionaires (store r') = billionaires (store r) /\
    daily_snapshots (store r') = daily_snapshots (store r) /\
    recordsFailed r' = recordsFailed r + 1 /\
    recordsCreated r' = recordsCreated r /\
    recordsUpdated r' = recordsUpdated r /\
    dataSourceId r' = dataSourceId r /\
    reference_data (store r') = reference_data (store r).
Proof.
  intros He.
  unfold process_record, try_catch, process_person, bind.
  unfold entity_of in He.
  destruct (slug_source p) as [n|] eqn:Hsrc.
  - unfold ret at 1. unfold on_store at 1, zoom.
    destruct (upsertBillionaire_refused (upsert_data p (createSlug n)) (store r))
      as [e Hup].
    { change (u_name (upsert_data p (createSlug n))) with (personName p).
      destruct (personName p) as [name|]; [|exact I].
      destruct (fits (upsert_data p (createSlug n)) name); [discriminate|reflexivity]. }
    rewrite Hup. cbn. eexists. repeat split; reflexivity.
  - cbn. eexists. repeat split; reflexivity.
Qed.

(** Whatever the record, its iteration returns, and it writes only to the
    tables of the entities and of the snapshots. *)
Lemma process_record_frame (today : Z) (p : ForbesPerson) (r : Run) :
  exists r',
    process_record today p r = (Returned tt, r') /\
    dataSourceId r' = dataSourceId r /\
    reference_data (store r') = reference_data (store r).
Proof.
  destruct (entity_of p) as [[sl name]|] eqn:He.
  - destruct (process_record_accepted today p r sl name He)
      as [id [r' (E & _ & _ & _ & _ & Hd & Href & _)]].
    exists r'. auto.
  - destruct (process_record_refused today p r He)
      as [r' (E & _ & _ & _ & _ & _ & Hd & Href)].
    exists r'. auto.
Qed.

(** The delta stored with a snapshot, for amounts that are safe integers:
    NULL without a snapshot of the day before, NULL again when the amount
    is unchanged, the difference otherwise. *)
Lemma computed_delta (current : Z) (yesterdaySnapshot : list Z) :
  safe current = true ->
  match yesterdaySnapshot with
  | y :: _ => safe y = true /\ safe (current - y) = true
  | [] => True
  end ->
  dailyChangeMillions current yesterdaySnapshot
  = match yesterdaySnapshot with
    | y :: _ => Some (current - y)
    | [] => None
    end.
Proof.
  intros Hc Hy. unfold dailyChangeMillions.
  destruct yesterdaySnapshot as [|y rest]; [reflexivity|].
  destruct Hy as [Hy Hd].
  rewrite (of_integer_safe y Hy), (sub_safe current y Hd).
  unfold of_Z, Math_round_number. now rewrite Math_round_integer.
Qed.

(** C1 (the behaviour of the code at the failing input). Ada had 500 on the
    day before and has 500 today: the daily change computed is 0, and the
    snapshot stored for today carries NULL, as it would without yesterday's
    snapshot. *)
Theorem unchanged_amount_is_stored_as_null :
  let p := Examples.person "ada-lovelace" "Ada Lovelace" 500 1 in
  let r := mkRun Examples.ada_yesterday 0 0 0 (Some 1) in
  select_yesterday 1 100 (store r) = [500] /\
  currentWorthMillions p = 500 /\
  dailyChangeMillions (currentWorthMillions p) (select_yesterday 1 100 (store r))
  = Some 0 /\
  exists r',
    process_record 100 p r = (Returned tt, r') /\
    map (fun ds => (snap_key ds, net_worth ds, daily_change ds))
        (daily_snapshots (store r'))
    = [((1, 99), 500, None); ((1, 100), 500, None)].
Proof.
  cbv zeta. split; [reflexivity|]. split; [reflexivity|]. split; [reflexivity|].
  eexists. split; [vm_compute; reflexivity | reflexivity].
Qed.

(** The loop over the elements: it returns or throws (at a [null]), and it
    writes only to the tables of the entities and of the snapshots. *)
Lemma process_elements_frame (today : Z) (l : list (option ForbesPerson)) :
  forall r, exists o r',
    forM l (process_element today) r = (o, r') /\
    dataSourceId r' = dataSourceId r /\
    reference_data (store r') = reference_data (store r).
Proof.
  induction l as [|[p|] l IH]; intros r.
  - exists (Returned tt), r. cbn. auto.
  - cbn [forM process_element]. unfold bind.
    destruct (process_record_frame today p r) as [r1 (E & Hd & Href)].
    rewrite E. destruct (IH r1) as [o [r' (E' & Hd' & Href')]].
    exists o, r'. split; [exact E'|]. split; congruence.
  - cbn [forM process_element]. unfold bind, throw.
    eexists _, r. split; [reflexivity|]. auto.
Qed.

End IngestFacts.

(* ================================================================= *)
(** ** Properties of a whole run of the trigger *)

Module RunFacts.
Import JS Number Effect Store Text Billionaires Comparisons Admin Route Spec Plan.
Import NumberFacts IngestFacts BulkFacts.

Lemma select_threshold_reference (s s' : Store.t) :
  reference_data s' = reference_data s -> select_threshold s' = select_threshold s.
Proof.
  unfold reference_data, select_threshold. intros [= _ _ -> _ _ _ _]. reflexivity.
Qed.

(** Recording the time of the update leaves the threshold as configured. *)
Lemma threshold_rows_after_update (v : string) (t : Z) (l : list SiteConfig) :
  map value
    (filter (fun c => String.eqb (key c) "wealth_threshold")
       (map (fun c => if String.eqb (key c) "last_manual_update"
                      then mkSiteConfig (key c) v t else c) l))
  = map value (filter (fun c => String.eqb (key c) "wealth_threshold") l).
Proof.
  induction l as [|c l IH]; [reflexivity|].
  cbn [map filter].
  destruct (String.eqb (key c) "last_manual_update") eqn:E1; cbn [key].
  - destruct (String.eqb (key c) "wealth_threshold") eqn:E2.
    + apply String.eqb_eq in E1, E2. rewrite E1 in E2. discriminate.
    + exact IH.
  - destruct (String.eqb (key c) "wealth_threshold"); cbn [map]; now rewrite IH.
Qed.

(** The bulk run, whether it returns or throws, writes only to the table of
    the calculated comparisons. *)
Lemma calculate_frame (d : Z) (s : Store.t) :
  exists o s',
    calculateAndStoreComparisons d s = (o, s') /\
    billionaires s' = billionaires s /\
    billionaires_id_seq s' = billionaires_id_seq s /\
    daily_snapshots s' = daily_snapshots s /\
    comparison_costs s' = comparison_costs s /\
    site_config s' = site_config s /\
    data_sources s' = data_sources s /\
    update_metadata s' = update_metadata s /\
    current_date s' = current_date s /\
    current_timestamp s' = current_timestamp s.
Proof.
  rewrite calculateAndStoreComparisons_plan.
  destruct (select_threshold s) as [|v rest].
  - do 2 eexists. split; [reflexivity|]. cbn. repeat split.
  - set (l := attempts d (parseInt v) (select_latest_net_worth s) (select_active_costs s)).
    pose proof (run_statements_store l 0 (tick (tick (tick s)))) as H.
    cbv zeta in H.
    destruct (run_statements l 0 (tick (tick (tick s)))) as [o s'].
    cbn [snd] in H. exists o, s'. split; [reflexivity|].
    destruct H as (_ & H1 & H2 & H3 & H4 & H5 & H6 & H7 & H8 & H9 & _).
    repeat split; assumption.
Qed.

(** What the guarded block and its handler do, whatever the feed and the
    store: they answer, they log the run once, and they leave the entities
    and the snapshots as the loop left them. *)
Lemma guarded_block_effect (clock : Clock) (today : Z) (feed : Fetch) (s : Store.t) :
  exists resp r row o r2,
    try_catch (try_block clock today feed) (catch_block clock) (mkRun s 0 0 0 None)
    = (Returned resp, r) /\
    forM (batch_of feed) (process_element today) (initial_run s) = (o, r2) /\
    billionaires (store r) = billionaires (store r2) /\
    daily_snapshots (store r) = daily_snapshots (store r2) /\
    update_metadata (store r) = update_metadata s ++ [row] /\
    update_type row = "daily_update"%string /\
    started_at row = startTime clock /\
    completed_at row = endTime clock /\
    execution_time_ms row = endTime clock - startTime clock /\
    match resp with
    | UpdateDone created updated failures _ elapsed =>
        created = recordsCreated r2 /\ updated = recordsUpdated r2 /\
        failures = recordsFailed r2 /\
        status row = (if failures =? 0 then success else partial) /\
        error_message row = None /\
        records_created row = created /\ records_updated row = updated /\
        records_failed row = failures /\
        elapsed = endTime clock - startTime clock /\
        site_config (store r)
        = site_config (snd (updateConfigValue "last_manual_update" (isoNow clock) s))
    | UpdateFailed message created updated failures =>
        created = recordsCreated r2 /\ updated = recordsUpdated r2 /\
        failures = recordsFailed r2 /\
        status row = failed /\
        error_message row = truthy (Some message) /\
        records_created row = created /\ records_updated row = updated /\
        records_failed row = failures /\
        site_config (store r) = site_config s
    | _ => False
    end.
Proof.
  destruct feed as [|[|e0 es]].
  - do 5 eexists. split; [reflexivity|]. split; [reflexivity|]. cbn. repeat split.
  - do 5 eexists. split; [reflexivity|]. split; [reflexivity|]. cbn. repeat split.
  - cbn [batch_of].
    destruct (process_elements_frame today (firstn 50 (e0 :: es)) (initial_run s))
      as [o [r2 (E2 & Hd & Href)]].
    assert (Hm : update_metadata (store r2) = update_metadata s /\
                 site_config (store r2) = site_config s /\
                 current_timestamp (store r2) = current_timestamp s).
    { unfold reference_data in Href. injection Href as _ _ Hsc _ Hm _ Hts.
      repeat split; assumption. }
    destruct Hm as (Hm & Hsc & Hts).
    unfold try_catch, try_block, bind.
    unfold on_store at 1, zoom, getDataSourceByName, bind, query_select, ret.
    cbn [fst snd store]. unfold modify at 1.
    cbn [List.length Nat.eqb].
    change (set_dataSourceId _ (set_store (tick s) (mkRun s 0 0 0 None)))
      with (initial_run s).
    unfold process_batch. rewrite E2.
    destruct o as [[]|e].
    + destruct (calculate_frame today (store r2))
        as [oc [s3 (Ec & F1 & _ & F3 & _ & F5 & _ & F7 & _ & F9)]].
      unfold on_store at 1, zoom. rewrite Ec.
      destruct oc as [n|e].
      * unfold on_store, zoom, updateConfigValue, updateDataSourceAccessed,
          logUpdateMetadata, query_write, get.
        cbn [fst snd store set_store dataSourceId recordsCreated recordsUpdated
             recordsFailed].
        destruct (or_null (dataSourceId r2)) as [id|];
          cbn [fst snd store set_store dataSourceId recordsCreated recordsUpdated
               recordsFailed].
        all: do 5 eexists; split; [reflexivity|]; split; [reflexivity|].
        all: cbn; rewrite F1, F3, F5, F7, F9, Hm, Hsc, Hts; repeat split; reflexivity.
      * unfold catch_block, bind, get, on_store, zoom, logUpdateMetadata, query_write, ret.
        cbn [fst snd store set_store dataSourceId recordsCreated recordsUpdated
             recordsFailed].
        do 5 eexists. split; [reflexivity|]. split; [reflexivity|].
        cbn. rewrite F1, F3, F5, F7, Hm, Hsc. repeat split.
    + unfold catch_block, bind, get, on_store, zoom, logUpdateMetadata, query_write, ret.
      cbn [fst snd store set_store dataSourceId recordsCreated recordsUpdated
           recordsFailed].
      do 5 eexists. split; [reflexivity|]. split; [reflexivity|].
      cbn. rewrite Hm, Hsc. repeat split.
Qed.

(** C7. A record fails after it has been counted when the store refuses its
    snapshot.  Of fifty records of distinct names the thirty-seventh has a
    net worth of 1e19, which the BIGINT column [net_worth] does not hold:
    its entity is created and counted, its snapshot fails and the record is
    counted as failed too, so the run reports 1 failed and 50 created, not
    49, with status partial.  (When the thirty-seventh record has no display
    name, the counts are 1 and 49, as claimed.)  And a [null] element of the
    feed aborts the batch: the handler of the record reads the name of the
    record for its message and throws before it counts, so the records that
    follow are not processed and the run is logged as failed. *)
Theorem record_failing_at_its_snapshot_is_counted_twice :
  (exists comparisons s' row,
     GET (Some Examples.secret) (Some Examples.header) Examples.clock 100
         (Fetched Examples.batch50_overflow) None Examples.seeded
     = (UpdateDone 50 0 1 comparisons 1500, Some 8640000000, s') /\
     update_metadata s' = [row] /\
     status row = partial /\
     (records_created row, records_updated row, records_failed row) = (50, 0, 1) /\
     List.length (billionaires s') = 50%nat /\
     List.length (daily_snapshots s') = 49%nat) /\
  (exists comparisons s' row,
     GET (Some Examples.secret) (Some Examples.header) Examples.clock 100
         (Fetched Examples.batch50) None Examples.seeded
     = (UpdateDone 49 0 1 comparisons 1500, Some 8640000000, s') /\
     update_metadata s' = [row] /\
     status row = partial /\
     (records_created row, records_updated row, records_failed row) = (49, 0, 1)) /\
  (exists s' row,
     GET (Some Examples.secret) (Some Examples.header) Examples.clock 100
         (Fetched Examples.batch_with_null) None Examples.seeded
     = (UpdateFailed "Cannot read properties of null (reading 'personName')" 1 0 0,
        Some 8640000000, s') /\
     update_metadata s' = [row] /\
     status row = failed /\
     map slug (billionaires s') = ["ada-lovelace"%string] /\
     calculated_comparisons s' = []).
Proof.
  split; [|split].
  - do 3 eexists. split; [vm_compute; reflexivity|].
    split; [reflexivity|]. split; [reflexivity|]. split; [reflexivity|].
    split; vm_compute; reflexivity.
  - do 3 eexists. split; [vm_compute; reflexivity|].
    split; [reflexivity|]. split; reflexivity.
  - do 2 eexists. split; [vm_compute; reflexivity|].
    split; [reflexivity|]. split; [reflexivity|]. split; reflexivity.
Qed.

End RunFacts.

(* ================================================================= *)
(** ** Idempotence of the ingestion *)

Module IdempotenceFacts.
Import JS Number Effect Store Text Billionaires Comparisons Admin Route Spec Plan.
Import NumberFacts IngestFacts BulkFacts RunFacts.

Lemma same_day_key (row r : DailySnapshot) :
  same_day row r = true <-> snap_key r = snap_key row.
Proof.
  unfold same_day, snap_key. rewrite andb_true_iff, !Z.eqb_eq. split.
  - intros [-> ->]. reflexivity.
  - intros [= -> ->]. auto.
Qed.

Lemma same_day_repl (row r : DailySnapshot) :
  same_day row r = true -> snap_key row = snap_key r.
Proof. intros H. symmetry. now apply same_day_key. Qed.

Lemma slug_ids_slugs (s : Store.t) (sl : string) (id : Z) :
  In (sl, id) (slug_ids s) -> In sl (slugs s).
Proof.
  unfold slug_ids, slugs. rewrite !in_map_iff.
  intros [b [[= <- _] Hb]]. eauto.
Qed.

(** Under the uniqueness of slugs a slug has one id. *)
Lemma slug_id_unique (l : list Billionaire) (sl : string) (id id' : Z) :
  NoDup (map slug l) ->
  In (sl, id) (map (fun b => (slug b, b_id b)) l) ->
  In (sl, id') (map (fun b => (slug b, b_id b)) l) -> id = id'.
Proof.
  induction l as [|b l IH]; cbn; intros Hnd H1 H2; [destruct H1|].
  inversion Hnd as [|? ? Hb Hl]; subst.
  assert (Hin : forall i, In (sl, i) (map (fun b => (slug b, b_id b)) l) ->
                          In sl (map slug l)).
  { intros i Hi. apply in_map_iff in Hi. destruct Hi as [x [[= <- _] Hx]].
    now apply in_map. }
  destruct H1 as [[= E1 <-]|H1]; destruct H2 as [[= E2 <-]|H2].
  - reflexivity.
  - exfalso. apply Hb. rewrite E1. eauto.
  - exfalso. apply Hb. rewrite E2. eauto.
  - now apply IH.
Qed.

Lemma snapshot_of_key (data : SnapshotData) (row : DailySnapshot) :
  snapshot_of data = Some row ->
  snap_key row = (billionaireId data, snapshotDate data).
Proof.
  unfold snapshot_of.
  destruct (as_int8 (netWorth data)); [|discriminate].
  destruct (nullable as_int4 (number_or_null (s_rank data))); [|discriminate].
  destruct (nullable as_int8 (number_or_null (dailyChange data))); [|discriminate].
  now intros [= <-].
Qed.

(** Whether the store accepts a snapshot does not depend on the data source
    recorded with it. *)
Lemma snapshot_of_source (today : Z) (p : ForbesPerson) (id : Z) (y : list Z)
    (source source' : option Z) :
  snapshot_of (snapshot_data today p id y source) = None ->
  snapshot_of (snapshot_data today p id y source') = None.
Proof.
  unfold snapshot_of, snapshot_data.
  cbn [netWorth s_rank dailyChange Billionaires.dataSourceId billionaireId snapshotDate].
  destruct (as_int8 _); [|reflexivity].
  destruct (nullable as_int4 _); [|reflexivity].
  destruct (nullable as_int8 _); [discriminate | reflexivity].
Qed.

(** A snapshot written for the day leaves the rows of the day before. *)
Lemma yesterday_after_upsert (id today : Z) (row : DailySnapshot)
    (l : list DailySnapshot) :
  snapshot_date row = today ->
  filter (fun ds => (ds_billionaire_id ds =? id) && (snapshot_date ds =? today - 1))
         (upsert_snapshot row l)
  = filter (fun ds => (ds_billionaire_id ds =? id) && (snapshot_date ds =? today - 1)) l.
Proof.
  intros Hd.
  assert (Hrow : (snapshot_date row =? today - 1) = false)
    by (apply Z.eqb_neq; lia).
  unfold upsert_snapshot, upsert.
  destruct (existsb (same_day row) l).
  - induction l as [|a l IH]; [reflexivity|]. cbn [map filter].
    destruct (same_day row a) eqn:E.
    + apply andb_true_iff in E. destruct E as [_ E]. apply Z.eqb_eq in E.
      rewrite <- E, Hrow, !andb_false_r. exact IH.
    + rewrite IH. reflexivity.
  - rewrite filter_app. cbn [filter]. rewrite Hrow, andb_false_r.
    now rewrite app_nil_r.
Qed.

Lemma select_yesterday_ext (id today : Z) (s s' : Store.t) :
  daily_snapshots s' = daily_snapshots s ->
  select_yesterday id today s' = select_yesterday id today s.
Proof. unfold select_yesterday. now intros ->. Qed.



(** What one iteration of the loop does to the two tables. *)
Lemma process_record_step (today : Z) (p : ForbesPerson) (r : Run) :
  exists r',
    process_record today p r = (Returned tt, r') /\
    (NoDup (slugs (store r)) -> NoDup (slugs (store r'))) /\
    (NoDup (snap_keys (store r)) -> NoDup (snap_keys (store r'))) /\
    (forall x, In x (slug_ids (store r)) -> In x (slug_ids (store r'))) /\
    (forall k, In k (snap_keys (store r)) -> In k (snap_keys (store r'))) /\
    (forall id, select_yesterday id today (store r')
                = select_yesterday id today (store r)) /\
    ingested today p (store r') /\
    (NoDup (slugs (store r)) -> ingested today p (store r) ->
     recordsCreated r' = recordsCreated r /\
     slugs (store r') = slugs (store r) /\
     snap_keys (store r') = snap_keys (store r)).
Proof.
  destruct (entity_of p) as [[sl name]|] eqn:He.
  - destruct (process_record_accepted today p r sl name He)
      as [id [r' (E & Hin & Hb & Hc & _ & _ & _ & Hsnap)]].
    cbv zeta in Hb, Hc.
    set (data := upsert_data p sl) in *.
    assert (Hids : forall x, In x (slug_ids (store r)) -> In x (slug_ids (store r'))).
    { intros x Hx. unfold slug_ids. rewrite Hb. now apply upserted_slug_id_mono. }
    assert (Hnd : NoDup (slugs (store r)) -> NoDup (slugs (store r'))).
    { unfold slugs. rewrite Hb. apply upserted_slug_NoDup. }
    assert (Hagain : NoDup (slugs (store r)) ->
              forall id0, In (sl, id0) (slug_ids (store r)) ->
              recordsCreated r' = recordsCreated r /\
              slugs (store r') = slugs (store r) /\ id = id0).
    { intros Hnd0 id0 Hid0.
      assert (Hseen : existsb (has_slug sl) (billionaires (store r)) = true).
      { apply slug_ids_slugs in Hid0. unfold slugs in Hid0.
        apply in_map_iff in Hid0. destruct Hid0 as [b [Hb0 Hin0]].
        apply existsb_exists. exists b. split; [exact Hin0|].
        unfold has_slug. now apply String.eqb_eq. }
      rewrite Hseen in Hc.
      assert (Hsl : slugs (store r') = slugs (store r)).
      { unfold slugs. rewrite Hb, upserted_slugs.
        change (u_slug data) with sl. now rewrite Hseen. }
      split; [lia|]. split; [exact Hsl|].
      apply (slug_id_unique (billionaires (store r')) sl).
      - fold (slugs (store r')). now rewrite Hsl.
      - exact Hin.
      - now apply Hids. }
    unfold snapshot_row in Hsnap.
    destruct (snapshot_of (snapshot_data today p id
                             (select_yesterday id today (store r)) (dataSourceId r)))
      as [row|] eqn:Hrow.
    + destruct Hsnap as [Hs _].
      pose proof (snapshot_of_key _ _ Hrow) as Hkey. cbn in Hkey.
      assert (Hdate : snapshot_date row = today) by (now injection Hkey).
      assert (Hnew : In (id, today) (snap_keys (store r'))).
      { unfold snap_keys. rewrite Hs, <- Hkey.
        apply (UpsertFacts.upsert_key_in snap_key _ _ _ (same_day_key row)
                 (same_day_repl row)). }
      exists r'. split; [exact E|].
      split; [exact Hnd|]. split; [|split; [exact Hids|split; [|split; [|split]]]].
      * unfold snap_keys. rewrite Hs.
        apply (UpsertFacts.upsert_NoDup snap_key _ _ _ (same_day_key row)
                 (same_day_repl row)).
      * intros k Hk. unfold snap_keys. rewrite Hs.
        now apply (UpsertFacts.upsert_keys_mono snap_key _ _ _ (same_day_repl row)).
      * intros id'. unfold select_yesterday. rewrite Hs.
        now rewrite (yesterday_after_upsert id' today row _ Hdate).
      * intros sl' name' He'. rewrite He in He'. injection He' as <- <-.
        exists id. split; [exact Hin|]. intros _ _ _. exact Hnew.
      * intros Hnd0 Hing. destruct (Hing sl name He) as [id0 [Hid0 Hk0]].
        destruct (Hagain Hnd0 id0 Hid0) as (Hcr & Hsl & <-).
        split; [exact Hcr|]. split; [exact Hsl|].
        specialize (Hk0 (dataSourceId r) row Hrow).
        unfold snap_keys. rewrite Hs. unfold upsert_snapshot.
        rewrite (UpsertFacts.upsert_keys snap_key _ _ _ (same_day_repl row)).
        assert (Hex : existsb (same_day row) (daily_snapshots (store r)) = true).
        { apply (UpsertFacts.existsb_conflict_iff snap_key _ _ (same_day_key row)).
          rewrite Hkey. exact Hk0. }
        now rewrite Hex.
    + destruct Hsnap as [Hs _].
      exists r'. split; [exact E|].
      split; [exact Hnd|]. split; [|split; [exact Hids|split; [|split; [|split]]]].
      * unfold snap_keys. now rewrite Hs.
      * intros k. unfold snap_keys. now rewrite Hs.
      * intros id'. now apply select_yesterday_ext.
      * intros sl' name' He'. rewrite He in He'. injection He' as <- <-.
        exists id. split; [exact Hin|]. intros source row Hr.
        rewrite (select_yesterday_ext id today (store r) (store r') Hs) in Hr.
        rewrite (snapshot_of_source today p id _ _ source Hrow) in Hr. discriminate.
      * intros Hnd0 Hing. destruct (Hing sl name He) as [id0 [Hid0 _]].
        destruct (Hagain Hnd0 id0 Hid0) as (Hcr & Hsl & _).
        split; [exact Hcr|]. split; [exact Hsl|]. unfold snap_keys. now rewrite Hs.
  - destruct (process_record_refused today p r He)
      as [r' (E & Hb & Hs & _ & Hc & _)].
    exists r'. split; [exact E|].
    unfold slugs, slug_ids, snap_keys. rewrite Hb, Hs.
    split; [auto|]. split; [auto|]. split; [auto|]. split; [auto|].
    split; [intros id; now apply select_yesterday_ext|].
    split; [intros sl name He'; congruence|]. auto.
Qed.


(** Under a uniqueness constraint a key that is present selects one row. *)
Lemma unique_row {A K} (k : A -> K) (test : A -> bool) (key : K) (l : list A) :
  (forall x, test x = true <-> k x = key) ->
  NoDup (map k l) -> In key (map k l) -> exists x, filter test l = [x].
Proof.
  intros Ht. induction l as [|a l IH]; cbn; intros Hnd Hin; [destruct Hin|].
  inversion Hnd as [|? ? Ha Hl]; subst.
  destruct (test a) eqn:E.
  - exists a. f_equal.
    assert (Hnone : forall x, In x l -> test x = false).
    { intros x Hx. destruct (test x) eqn:Ex; [|reflexivity].
      exfalso. apply Ha. apply Ht in E, Ex. rewrite E, <- Ex. now apply in_map. }
    clear -Hnone. induction l as [|b l IHl]; cbn; [reflexivity|].
    rewrite (Hnone b (or_introl eq_refl)). apply IHl.
    intros x Hx. apply Hnone. now right.
  - destruct Hin as [Hk|Hin].
    + apply Ht in Hk. congruence.
    + now apply IH.
Qed.



End IdempotenceFacts.

(* ================================================================= *)
(** ** Properties of the text helpers of the trigger *)

Module SlugFacts.
Import JS Text Shape.

Lemma alnum_not_dash (c : ascii) : is_alnum c = true -> is_dash c = false.
Proof.
  unfold is_dash. destruct (Ascii.eqb_spec c "-"%char) as [->|]; [|reflexivity].
  vm_compute. discriminate.
Qed.

Lemma is_dash_eq (c : ascii) : is_dash c = true -> c = "-"%char.
Proof. apply Ascii.eqb_eq. Qed.

Lemma replace_runs_chars (l : list ascii) :
  forall b, forallb slug_char (replace_runs b l) = true.
Proof.
  induction l as [|c l IH]; intros b; [reflexivity|].
  cbn [replace_runs]. destruct (is_alnum c) eqn:E.
  - cbn [forallb]. unfold slug_char at 1. now rewrite E, IH.
  - destruct b; [apply IH|]. cbn [forallb]. now rewrite IH.
Qed.

(** Inside a run no dash is emitted, so the output cannot start with one. *)
Lemma replace_runs_in_run (l : list ascii) :
  starts_with_dash (replace_runs true l) = false.
Proof.
  induction l as [|c l IH]; [reflexivity|].
  cbn [replace_runs]. destruct (is_alnum c) eqn:E; [|exact IH].
  cbn. now apply alnum_not_dash.
Qed.

Lemma replace_runs_single (l : list ascii) :
  forall b, no_double_dash (replace_runs b l) = true.
Proof.
  induction l as [|c l IH]; intros b; [reflexivity|].
  cbn [replace_runs]. destruct (is_alnum c) eqn:E.
  - cbn [no_double_dash]. now rewrite (alnum_not_dash c E), IH.
  - destruct b; [apply IH|].
    cbn [no_double_dash]. now rewrite replace_runs_in_run, IH, andb_false_r.
Qed.

Lemma no_double_dash_cons (c : ascii) (l : list ascii) :
  no_double_dash (c :: l) = negb (is_dash c && starts_with_dash l) && no_double_dash l.
Proof. reflexivity. Qed.

Lemma ends_with_dash_snoc (l : list ascii) (c : ascii) :
  ends_with_dash (l ++ [c]) = is_dash c.
Proof. unfold ends_with_dash. now rewrite rev_unit. Qed.

Lemma starts_with_dash_app (l m : list ascii) :
  l <> [] -> starts_with_dash (l ++ m) = starts_with_dash l.
Proof. destruct l; [contradiction|reflexivity]. Qed.

Lemma no_double_dash_snoc (l : list ascii) (c : ascii) :
  no_double_dash (l ++ [c])
  = no_double_dash l && negb (ends_with_dash l && is_dash c).
Proof.
  induction l as [|a l IH]; [cbn; now rewrite andb_false_r|].
  cbn [app]. rewrite !no_double_dash_cons, IH.
  destruct l as [|b l].
  - cbn. destruct (is_dash a), (is_dash c); reflexivity.
  - assert (E : ends_with_dash (a :: b :: l) = ends_with_dash (b :: l)).
    { unfold ends_with_dash. cbn [rev].
      apply starts_with_dash_app. destruct (rev l); discriminate. }
    rewrite E. cbn [app starts_with_dash].
    destruct (is_dash a), (is_dash b), (no_double_dash (b :: l)),
      (ends_with_dash (b :: l)), (is_dash c); reflexivity.
Qed.

Lemma no_double_dash_rev (l : list ascii) :
  no_double_dash (rev l) = no_double_dash l.
Proof.
  induction l as [|a l IH]; [reflexivity|].
  cbn [rev]. rewrite no_double_dash_snoc, IH, no_double_dash_cons.
  unfold ends_with_dash. rewrite rev_involutive.
  destruct (is_dash a), (starts_with_dash l), (no_double_dash l); reflexivity.
Qed.

Lemma strip_leading_shape (l : list ascii) :
  forallb slug_char l = true -> no_double_dash l = true ->
  forallb slug_char (strip_leading_dash l) = true /\
  no_double_dash (strip_leading_dash l) = true /\
  starts_with_dash (strip_leading_dash l) = false.
Proof.
  intros Hc Hd. destruct l as [|c r]; [repeat split|].
  cbn [forallb] in Hc. apply andb_true_iff in Hc. destruct Hc as [Hc Hr].
  rewrite no_double_dash_cons in Hd. apply andb_true_iff in Hd. destruct Hd as [Hd Hdr].
  destruct (is_dash c) eqn:E.
  - rewrite (is_dash_eq c E). cbn [strip_leading_dash].
    repeat split; try assumption.
    cbn in Hd. now destruct (starts_with_dash r).
  - assert (Hs : strip_leading_dash (c :: r) = c :: r).
    { unfold strip_leading_dash. unfold is_dash in E.
      destruct (Ascii.eqb_spec c "-"%char) as [->|]; [discriminate|].
      destruct c as [[] [] [] [] [] [] [] []]; try reflexivity. contradiction. }
    rewrite Hs. cbn [forallb starts_with_dash]. rewrite Hc, Hr, no_double_dash_cons, E, Hdr.
    repeat split.
Qed.

Lemma strip_leading_fixed (l : list ascii) :
  starts_with_dash l = false -> strip_leading_dash l = l.
Proof.
  destruct l as [|c r]; [reflexivity|]. cbn [starts_with_dash]. unfold is_dash.
  intros E. destruct (Ascii.eqb_spec c "-"%char) as [->|]; [discriminate|].
  destruct c as [[] [] [] [] [] [] [] []]; try reflexivity. contradiction.
Qed.

Lemma strip_leading_keeps_end (l : list ascii) :
  starts_with_dash l = false -> starts_with_dash (rev (strip_leading_dash (rev l))) = false.
Proof.
  intros H. destruct (rev l) as [|c r] eqn:E.
  - apply (f_equal (@rev ascii)) in E. rewrite rev_involutive in E. now subst.
  - assert (El : l = rev r ++ [c]).
    { apply (f_equal (@rev ascii)) in E. now rewrite rev_involutive in E. }
    destruct (is_dash c) eqn:Ed.
    + rewrite (is_dash_eq c Ed). cbn [strip_leading_dash].
      destruct (rev r) as [|x y] eqn:Er; [reflexivity|].
      rewrite El in H. exact H.
    + rewrite strip_leading_fixed by exact Ed.
      cbn [rev]. now rewrite <- El.
Qed.

(** The characters produced by [createSlug], as a list. *)
Lemma createSlug_list (name : string) :
  list_ascii_of_string (createSlug name)
  = strip_trailing_dash
      (strip_leading_dash (replace_runs false (map lower (list_ascii_of_string name)))).
Proof. unfold createSlug. apply list_ascii_of_string_of_list_ascii. Qed.

(** The shape of the characters produced by [createSlug]. *)
Lemma createSlug_list_shape (name : string) :
  let l := list_ascii_of_string (createSlug name) in
  forallb slug_char l = true /\ no_double_dash l = true /\
  starts_with_dash l = false /\ ends_with_dash l = false.
Proof.
  cbv zeta. rewrite createSlug_list.
  set (l1 := replace_runs false (map lower (list_ascii_of_string name))).
  destruct (strip_leading_shape l1 (replace_runs_chars _ _) (replace_runs_single _ _))
    as (Hc & Hd & Hs).
  set (l2 := strip_leading_dash l1) in *.
  unfold strip_trailing_dash.
  assert (Hc' : forallb slug_char (rev l2) = true).
  { apply forallb_forall. intros x Hx. apply in_rev in Hx.
    revert x Hx. now apply forallb_forall. }
  assert (Hd' : no_double_dash (rev l2) = true) by now rewrite no_double_dash_rev.
  destruct (strip_leading_shape (rev l2) Hc' Hd') as (Hc3 & Hd3 & Hs3).
  set (l3 := strip_leading_dash (rev l2)) in *.
  assert (H1 : forallb slug_char (rev l3) = true).
  { apply forallb_forall. intros x Hx. apply in_rev in Hx.
    revert x Hx. now apply forallb_forall. }
  rewrite H1, no_double_dash_rev, Hd3.
  unfold ends_with_dash. rewrite rev_involutive, Hs3.
  unfold l3. now rewrite strip_leading_keeps_end.
Qed.

(** X1. A slug made by [createSlug] is URL-safe and in normal form, whatever
    the name: it holds lowercase letters, digits and dashes only, never two
    dashes in a row, and neither starts nor ends with a dash. *)
Theorem createSlug_is_slug_shaped (name : string) :
  slug_shaped (createSlug name) = true.
Proof.
  unfold slug_shaped.
  destruct (createSlug_list_shape name) as (H1 & H2 & H3 & H4).
  now rewrite H1, H2, H3, H4.
Qed.

Lemma lower_slug_char (c : ascii) : slug_char c = true -> lower c = c.
Proof.
  unfold slug_char, is_alnum, is_dash, lower. intros H.
  destruct ((65 <=? nat_of_ascii c)%nat && (nat_of_ascii c <=? 90)%nat)%bool eqn:E;
    [|reflexivity].
  exfalso. apply andb_true_iff in E. destruct E as [E1 E2].
  apply Nat.leb_le in E1, E2.
  apply orb_true_iff in H. destruct H as [H|H].
  - apply orb_true_iff in H. destruct H as [H|H];
      apply andb_true_iff in H; destruct H as [H1 H2];
      apply Nat.leb_le in H1, H2; lia.
  - apply Ascii.eqb_eq in H. subst c. cbn in E1. lia.
Qed.

Lemma replace_runs_fixed (l : list ascii) :
  forall b, forallb slug_char l = true -> no_double_dash l = true ->
            (b = true -> starts_with_dash l = false) ->
            replace_runs b l = l.
Proof.
  induction l as [|c l IH]; intros b Hc Hd Hb; [reflexivity|].
  cbn [forallb] in Hc. apply andb_true_iff in Hc. destruct Hc as [Hc Hl].
  rewrite no_double_dash_cons in Hd. apply andb_true_iff in Hd. destruct Hd as [Hd Hdl].
  cbn [replace_runs]. destruct (is_alnum c) eqn:E.
  - f_equal. apply IH; [assumption|assumption|discriminate].
  - unfold slug_char in Hc. rewrite E in Hc. cbn in Hc.
    destruct b.
    + specialize (Hb eq_refl). cbn in Hb. congruence.
    + pose proof (is_dash_eq c Hc) as Ec. subst c. f_equal.
      apply IH; [assumption|assumption|].
      intros _. cbn in Hd. now destruct (starts_with_dash l).
Qed.

(** X2. [createSlug] is idempotent: a slug is its own slug, so an entity is
    found again under the slug it was stored with. *)
Theorem createSlug_idempotent (name : string) :
  createSlug (createSlug name) = createSlug name.
Proof.
  destruct (createSlug_list_shape name) as (H1 & H2 & H3 & H4).
  unfold createSlug at 1.
  set (l := list_ascii_of_string (createSlug name)) in *.
  assert (Hl : map lower l = l).
  { rewrite <- (map_id l) at 2. apply map_ext_in. intros c Hc.
    apply lower_slug_char. revert c Hc. now apply forallb_forall. }
  rewrite Hl, replace_runs_fixed by (try assumption; discriminate).
  rewrite strip_leading_fixed by assumption.
  unfold strip_trailing_dash. rewrite strip_leading_fixed by exact H4.
  rewrite rev_involutive. apply string_of_list_ascii_of_string.
Qed.

(** [normalizeImageUrl] of a usable address. *)
Lemma prefix_https (u : string) : String.prefix "//" (String.append "https:" u) = false.
Proof. reflexivity. Qed.

(** X3. [normalizeImageUrl] gives no address exactly when it is given none
    (a missing or an empty one); an address it gives is never empty and never
    protocol-relative, a protocol-relative input has [https:] put in front
    and every other input is kept; normalising twice changes nothing. *)
Theorem normalizeImageUrl_absolute (url : option string) :
  (normalizeImageUrl url = None <-> truthy url = None) /\
  (forall u, normalizeImageUrl url = Some u ->
     u <> EmptyString /\ String.prefix "//" u = false /\
     exists v, url = Some v /\
               (u = v \/ (String.prefix "//" v = true /\ u = String.append "https:" v))) /\
  normalizeImageUrl (normalizeImageUrl url) = normalizeImageUrl url.
Proof.
  unfold normalizeImageUrl.
  destruct url as [[|c r]|]; cbn [truthy].
  - repeat split; try discriminate; intros; discriminate.
  - destruct (String.prefix "//" (String c r)) eqn:E.
    + split; [split; discriminate|]. split; [|reflexivity].
      intros u [= <-]. split; [discriminate|]. split; [reflexivity|].
      eexists. split; [reflexivity|]. right. split; [exact E|reflexivity].
    + split; [split; discriminate|]. split.
      * intros u [= <-]. split; [discriminate|]. split; [exact E|].
        eexists. split; [reflexivity|]. now left.
      * cbn [truthy]. now rewrite E.
  - repeat split; try discriminate; intros; discriminate.
Qed.

End SlugFacts.

(* ================================================================= *)
(** ** Properties of the guards of the trigger and of its log *)

Module GateFacts.
Import JS Number Effect Store Text Billionaires Comparisons Admin Route Spec Plan.
Import AuthFacts NumberFacts IngestFacts BulkFacts RunFacts.

Lemma ceil_seconds_bounds (ms : Z) :
  (ceil_seconds ms - 1) * 1000 < ms <= ceil_seconds ms * 1000.
Proof.
  unfold ceil_seconds.
  pose proof (Z.div_mod (- ms) 1000 ltac:(lia)).
  pose proof (Z.mod_pos_bound (- ms) 1000 ltac:(lia)).
  lia.
Qed.

(** X4. Without the exact credential nothing happens.  When the secret of the
    server is missing or shorter than 32 characters every request is answered
    500, also one that carries [Bearer <secret>]; with a valid secret every
    request whose header is not exactly [Bearer <secret>] is answered 401.
    In both cases the store and the time of the last run are left as they
    were: such a request neither writes nor uses up the rate limit. *)
Theorem request_without_credential_changes_nothing
    (cronSecret authHeader : option jsstring) (clock : Clock) (today : Z)
    (feed : Fetch) (lastRunTime : option Z) (s : Store.t) :
  (match cronSecret with
   | Some secret => (List.length secret < 32)%nat
   | None => True
   end ->
   GET cronSecret authHeader clock today feed lastRunTime s
   = (ServerConfigurationError, lastRunTime, s)) /\
  (forall secret,
     cronSecret = Some secret -> (32 <= List.length secret)%nat ->
     well_formed secret ->
     (forall h, authHeader = Some h -> well_formed h) ->
     authHeader <> Some (Auth.bearer ++ secret) ->
     GET cronSecret authHeader clock today feed lastRunTime s
     = (UnauthorizedResponse, lastRunTime, s)).
Proof.
  split.
  - destruct cronSecret as [secret|]; intros H; unfold GET, Auth.authorize; [|reflexivity].
    apply Nat.ltb_lt in H. rewrite H, orb_true_r. reflexivity.
  - intros secret -> Hlen Hwf Hh Hne.
    unfold GET, Auth.authorize.
    assert (E : Nat.ltb (List.length secret) 32 = false) by (apply Nat.ltb_ge; exact Hlen).
    assert (F : Auth.falsy (Some secret) = false).
    { destruct secret; [cbn in Hlen; lia|reflexivity]. }
    rewrite E, F. cbn [orb].
    destruct authHeader as [h|]; [|reflexivity].
    destruct (Auth.falsy (Some h)); [reflexivity|]. cbn [orb].
    destruct (Auth.timingSafeEqual h (Auth.bearer ++ secret)) eqn:T; [|reflexivity].
    exfalso. apply Hne. f_equal.
    apply timingSafeEqual_spec in T; [exact T|now apply Hh|].
    apply well_formed_app; [apply of_string_well_formed|exact Hwf].
Qed.

Lemma request_without_credential_changes_nothing_witness :
  GET (Some (of_string "too short")) (Some (of_string "Bearer too short"))
      Examples.clock 100 (Fetched Examples.small_batch) None Examples.seeded
  = (ServerConfigurationError, None, Examples.seeded) /\
  GET (Some Examples.secret) (Some (of_string "Bearer 0123456789abcdef0123456789abcdeF"))
      Examples.clock 100 (Fetched Examples.small_batch) None Examples.seeded
  = (UnauthorizedResponse, None, Examples.seeded).
Proof.
  split.
  - apply (request_without_credential_changes_nothing
             (Some (of_string "too short")) (Some (of_string "Bearer too short"))
             Examples.clock 100 (Fetched Examples.small_batch) None Examples.seeded).
    cbn. lia.
  - apply (request_without_credential_changes_nothing
             (Some Examples.secret)
             (Some (of_string "Bearer 0123456789abcdef0123456789abcdeF"))
             Examples.clock 100 (Fetched Examples.small_batch) None Examples.seeded)
      with (secret := Examples.secret).
    + reflexivity.
    + cbn. lia.
    + apply of_string_well_formed.
    + intros h Hh.
      replace h with (of_string "Bearer 0123456789abcdef0123456789abcdeF") by congruence.
      apply of_string_well_formed.
    + discriminate.
Defined.

(** X5. The rate limit.  A credentialed request that arrives less than a
    minute after the last admitted run is answered 429 and changes nothing:
    the store is untouched and the minute keeps counting from the last
    admitted run, not from the refused request.  The advertised
    [retryAfter] is the remaining time rounded up to whole seconds, between
    1 and 60. *)
Theorem rate_limit_refuses_within_the_minute
    (cronSecret authHeader : option jsstring) (clock : Clock) (today : Z)
    (feed : Fetch) (last : Z) (s : Store.t) :
  Auth.authorize cronSecret authHeader = Auth.Authorized ->
  0 <= now clock - last < MIN_INTERVAL_MS ->
  exists retryAfter,
    GET cronSecret authHeader clock today feed (Some last) s
    = (RateLimitExceeded retryAfter, Some last, s) /\
    1 <= retryAfter <= 60 /\
    (retryAfter - 1) * 1000 < MIN_INTERVAL_MS - (now clock - last) <= retryAfter * 1000.
Proof.
  intros Hauth Hwin. unfold GET. rewrite Hauth.
  assert (E : (now clock - last <? MIN_INTERVAL_MS) = true) by (apply Z.ltb_lt; lia).
  rewrite E. eexists. split; [reflexivity|].
  pose proof (ceil_seconds_bounds (MIN_INTERVAL_MS - (now clock - last))) as B.
  unfold MIN_INTERVAL_MS in *. lia.
Qed.

Lemma rate_limit_refuses_within_the_minute_witness :
  exists retryAfter,
    GET (Some Examples.secret) (Some Examples.header) Examples.clock_later 100
        (Fetched Examples.small_batch) (Some 8640060001) Examples.seeded
    = (RateLimitExceeded retryAfter, Some 8640060001, Examples.seeded) /\
    1 <= retryAfter <= 60.
Proof.
  destruct (rate_limit_refuses_within_the_minute
              (Some Examples.secret) (Some Examples.header) Examples.clock_later 100
              (Fetched Examples.small_batch) 8640060001 Examples.seeded
              eq_refl ltac:(unfold MIN_INTERVAL_MS; cbn; lia)) as [ra (E & B & _)].
  exists ra. split; assumption.
Defined.

(** What the guarded block and its handler do, whatever the feed and the
    store: they answer, and they log the run once. *)
Lemma guarded_block_logs_once (clock : Clock) (today : Z) (feed : Fetch) (s : Store.t) :
  exists resp r row,
    try_catch (try_block clock today feed) (catch_block clock) (mkRun s 0 0 0 None)
    = (Returned resp, r) /\
    update_metadata (store r) = update_metadata s ++ [row] /\
    update_type row = "daily_update"%string /\
    started_at row = startTime clock /\
    completed_at row = endTime clock /\
    execution_time_ms row = endTime clock - startTime clock /\
    match resp with
    | UpdateDone created updated failures _ elapsed =>
        status row = (if failures =? 0 then success else partial) /\
        error_message row = None /\
        records_created row = created /\ records_updated row = updated /\
        records_failed row = failures /\
        elapsed = endTime clock - startTime clock /\
        site_config (store r)
        = site_config (snd (updateConfigValue "last_manual_update" (isoNow clock) s))
    | UpdateFailed message created updated failures =>
        status row = failed /\
        error_message row = truthy (Some message) /\
        records_created row = created /\ records_updated row = updated /\
        records_failed row = failures /\
        site_config (store r) = site_config s
    | _ => False
    end.
Proof.
  destruct (RunFacts.guarded_block_effect clock today feed s)
    as [resp [r [row [o [r2 (E & _ & _ & _ & H1 & H2 & H3 & H4 & H5 & H)]]]]].
  exists resp, r, row.
  split; [exact E|]. split; [exact H1|]. split; [exact H2|]. split; [exact H3|].
  split; [exact H4|]. split; [exact H5|].
  destruct resp as [| | | c u f n t | m c u f |]; try exact H.
  - destruct H as (_ & _ & _ & H). exact H.
  - destruct H as (_ & _ & _ & H). exact H.
Qed.

(** X6. Every run that passes both guards answers and is logged exactly once,
    whatever the feed delivers and whatever the store holds (also when no
    threshold is configured): no exception leaves [GET], the time of the last
    run becomes the time of this request, and exactly one Update Record of
    type [daily_update] is appended.  For a 200 it carries the counts and
    the execution time reported in the response, status [success] when no
    record failed and [partial] otherwise, and no error message; for a 500
    it carries the counts reported, status [failed] and the message of the
    response (NULL when that message is empty). *)
Theorem admitted_run_is_logged_once
    (cronSecret authHeader : option jsstring) (clock : Clock) (today : Z)
    (feed : Fetch) (lastRunTime : option Z) (s : Store.t) :
  Auth.authorize cronSecret authHeader = Auth.Authorized ->
  MIN_INTERVAL_MS <= now clock - match lastRunTime with Some t => t | None => 0 end ->
  exists resp s' row,
    GET cronSecret authHeader clock today feed lastRunTime s
    = (resp, Some (now clock), s') /\
    update_metadata s' = update_metadata s ++ [row] /\
    update_type row = "daily_update"%string /\
    match resp with
    | UpdateDone created updated failures _ elapsed =>
        status row = (if failures =? 0 then success else partial) /\
        error_message row = None /\
        records_created row = created /\ records_updated row = updated /\
        records_failed row = failures /\
        execution_time_ms row = elapsed
    | UpdateFailed message created updated failures =>
        status row = failed /\
        error_message row = truthy (Some message) /\
        records_created row = created /\ records_updated row = updated /\
        records_failed row = failures
    | _ => False
    end.
Proof.
  intros Hauth Hrate.
  assert (Hlt : (now clock - match lastRunTime with Some t => t | None => 0 end
                 <? MIN_INTERVAL_MS) = false) by (apply Z.ltb_ge; exact Hrate).
  destruct (guarded_block_logs_once clock today feed s)
    as [resp [r [row (E & H1 & H2 & _ & _ & H5 & H)]]].
  exists resp, (store r), row.
  split; [unfold GET; rewrite Hauth, Hlt, E; reflexivity|].
  split; [exact H1|]. split; [exact H2|].
  destruct resp as [| | | c u f n t | m c u f |]; try exact H.
  - destruct H as (Ha & Hb & Hc & Hd & He & Hf & _).
    repeat (split; [assumption|]). congruence.
  - tauto.
Qed.

Lemma admitted_run_is_logged_once_witness :
  exists resp s' row,
    GET (Some Examples.secret) (Some Examples.header) Examples.clock 100
        FetchFailed None Examples.seeded
    = (resp, Some 8640000000, s') /\
    update_metadata s' = [row] /\
    update_type row = "daily_update"%string.
Proof.
  destruct (admitted_run_is_logged_once
              (Some Examples.secret) (Some Examples.header) Examples.clock 100
              FetchFailed None Examples.seeded eq_refl ltac:(discriminate))
    as [resp [s' [row (E & Hm & Hc & _)]]].
  exists resp, s', row. repeat split; assumption.
Defined.

End GateFacts.

(* ================================================================= *)
(** ** Properties of the readers of billionaires.ts *)

Module ReaderFacts.
Import JS Number Effect Store Text Billionaires Comparisons Readers Route Spec Plan.
Import UpsertFacts SnapshotFacts HistoryFacts IngestFacts IdempotenceFacts.

Lemma insert_by_In {A} (k : A -> Z) (x y : A) (l : list A) :
  In y (insert_by k x l) <-> y = x \/ In y l.
Proof.
  induction l as [|a l IH]; cbn.
  - intuition.
  - destruct (k a <? k x); cbn; [|intuition]. rewrite IH. intuition.
Qed.

Lemma order_by_In {A} (k : A -> Z) (l : list A) (y : A) :
  In y (order_by k l) <-> In y l.
Proof.
  induction l as [|a l IH]; [reflexivity|].
  change (order_by k (a :: l)) with (insert_by k a (order_by k l)).
  rewrite insert_by_In, IH. cbn. intuition.
Qed.

(** The rows sorted by a key, split at any position: the first part holds
    the least keys. *)
Lemma sorted_split {A} (k : A -> Z) (l : list A) :
  Sorted (fun a b => k a <= k b) l ->
  forall n a b, In a (firstn n l) -> In b (skipn n l) -> k a <= k b.
Proof.
  intros Hs. apply Sorted_StronglySorted in Hs; [|intros x y z; lia].
  induction Hs as [|x l Hl IH Hx]; intros n a b Ha Hb.
  - destruct n; destruct Ha.
  - destruct n as [|n]; [destruct Ha|].
    cbn in Ha, Hb. destruct Ha as [<-|Ha].
    + rewrite Forall_forall in Hx. apply Hx.
      rewrite <- (firstn_skipn n l). apply in_or_app. now right.
    + now apply (IH n).
Qed.

Lemma order_by_head_least {A} (k : A -> Z) (l : list A) (x : A) (r : list A) :
  order_by k l = x :: r -> forall y, In y l -> k x <= k y.
Proof.
  intros E y Hy. apply (order_by_In k) in Hy. rewrite E in Hy.
  destruct Hy as [<-|Hy]; [lia|].
  pose proof (order_by_sorted k l) as Hs. rewrite E in Hs.
  apply (sorted_split k _ Hs 1 x y); [now left|exact Hy].
Qed.

Lemma hd_error_firstn_1 {A} (l : list A) : hd_error (firstn 1 l) = hd_error l.
Proof. destruct l; reflexivity. Qed.

(** What [getLatestSnapshot] returns. *)
Lemma latest_snapshot_spec (id : Z) (s : Store.t) :
  exists o,
    getLatestSnapshot id s = (Returned o, tick s) /\
    match o with
    | Some ds => latest_for s id ds
    | None => forall ds, In ds (daily_snapshots s) -> ds_billionaire_id ds <> id
    end.
Proof.
  unfold getLatestSnapshot, bind, query_select, ret, select_latest_snapshot.
  eexists. split; [reflexivity|].
  rewrite hd_error_firstn_1.
  set (mine := filter (fun ds => ds_billionaire_id ds =? id) (daily_snapshots s)).
  destruct (order_by (fun ds => - snapshot_date ds) mine) as [|x r] eqn:E; cbn [hd_error].
  - intros ds Hds Hid.
    assert (Hin : In ds (order_by (fun ds => - snapshot_date ds) mine)).
    { apply order_by_In. apply filter_In. split; [exact Hds|]. now apply Z.eqb_eq. }
    rewrite E in Hin. destruct Hin.
  - assert (Hx : In x mine).
    { apply (order_by_In (fun ds => - snapshot_date ds)). rewrite E. now left. }
    apply filter_In in Hx. destruct Hx as [Hx Hid]. apply Z.eqb_eq in Hid.
    split; [exact Hx|]. split; [exact Hid|].
    intros other Ho Hoid.
    pose proof (order_by_head_least _ _ _ _ E other) as H.
    cbv beta in H. assert (In other mine).
    { apply filter_In. split; [exact Ho|]. now apply Z.eqb_eq. }
    specialize (H H0). lia.
Qed.

(** X7. [getLatestSnapshot] answers with the most recent snapshot of the
    entity: a stored snapshot of that entity whose day no other snapshot of
    the entity exceeds; it answers null exactly when the entity has no
    snapshot.  It reads with one statement and never fails. *)
Theorem getLatestSnapshot_is_most_recent (id : Z) (s : Store.t) :
  (forall ds, fst (getLatestSnapshot id s) = Returned (Some ds) -> latest_for s id ds) /\
  (fst (getLatestSnapshot id s) = Returned None <->
   forall ds, In ds (daily_snapshots s) -> ds_billionaire_id ds <> id) /\
  snd (getLatestSnapshot id s) = tick s /\
  exists o, fst (getLatestSnapshot id s) = Returned o.
Proof.
  destruct (latest_snapshot_spec id s) as [o [E H]]. rewrite E. cbn [fst snd].
  split; [|split; [|split; [reflexivity|eauto]]].
  - intros ds [= ->]. exact H.
  - split.
    + intros [= ->]. exact H.
    + intros Hn. destruct o as [ds|]; [|reflexivity].
      destruct H as (Hin & Hid & _). exfalso. exact (Hn ds Hin Hid).
Qed.

Lemma filter_none {A} (f : A -> bool) (l : list A) :
  existsb f l = false -> filter f l = [].
Proof.
  induction l as [|x l IH]; [reflexivity|]. cbn.
  destruct (f x); [discriminate|]. exact IH.
Qed.

Lemma filter_map_commute {A} (f : A -> bool) (g : A -> A) (l : list A) :
  (forall x, f (g x) = f x) -> filter f (map g l) = map g (filter f l).
Proof.
  intros H. induction l as [|x l IH]; [reflexivity|]. cbn.
  rewrite H. destruct (f x); cbn; now rewrite IH.
Qed.




End ReaderFacts.

(* ================================================================= *)
(** ** From the ingestion to the pages: what is written is what is read *)

Module ServingFacts.
Import JS Number Effect Store Text Billionaires Comparisons Readers Route Spec Plan.
Import NumberFacts UpsertFacts SnapshotFacts HistoryFacts IngestFacts IdempotenceFacts ReaderFacts.

Lemma unique_by_key {A K} (k : A -> K) (l : list A) (x y : A) :
  NoDup (map k l) -> In x l -> In y l -> k x = k y -> x = y.
Proof.
  induction l as [|a l IH]; cbn; intros Hnd Hx Hy E; [destruct Hx|].
  inversion Hnd as [|? ? Ha Hl]; subst.
  destruct Hx as [<-|Hx]; destruct Hy as [<-|Hy].
  - reflexivity.
  - exfalso. apply Ha. rewrite E. now apply in_map.
  - exfalso. apply Ha. rewrite <- E. now apply in_map.
  - now apply IH.
Qed.

Lemma day_test_key (id day : Z) (x : DailySnapshot) :
  (ds_billionaire_id x =? id) && (snapshot_date x =? day) = true
  <-> snap_key x = (id, day).
Proof.
  unfold snap_key. rewrite andb_true_iff, !Z.eqb_eq. split.
  - intros [-> ->]. reflexivity.
  - intros [= -> ->]. auto.
Qed.

(** The columns of the row that the store makes of the parameters of
    [insertDailySnapshot]. *)
Lemma snapshot_of_fields (data : SnapshotData) (row : DailySnapshot) :
  snapshot_of data = Some row ->
  as_int8 (netWorth data) = Some (net_worth row) /\
  nullable as_int4 (number_or_null (s_rank data)) = Some (rank row) /\
  nullable as_int8 (number_or_null (dailyChange data)) = Some (daily_change row).
Proof.
  unfold snapshot_of.
  destruct (as_int8 (netWorth data)); [|discriminate].
  destruct (nullable as_int4 (number_or_null (s_rank data))); [|discriminate].
  destruct (nullable as_int8 (number_or_null (dailyChange data))); [|discriminate].
  intros [= <-]. auto.
Qed.

(** The change stored for a safe whole number: NULL for zero. *)
Lemma stored_change (d : Z) :
  safe d = true ->
  nullable as_int8 (number_or_null (Some (of_Z d)))
  = Some (if d =? 0 then None else Some d).
Proof.
  intros Hd. unfold number_or_null, of_Z.
  destruct (Z.eqb_spec d 0) as [->|Hne].
  - reflexivity.
  - assert (E : Qeq_bool (inject_Z d) 0 = false).
    { destruct (Qeq_bool (inject_Z d) 0) eqn:E; [|reflexivity].
      apply Qeq_bool_eq in E. unfold Qeq in E. cbn in E. lia. }
    rewrite E. unfold nullable. fold (of_Z d). now rewrite (as_int8_safe d Hd).
Qed.

(** One step of the loop, from a store that satisfies the uniqueness
    constraints: the iteration returns, and unless the record is counted as
    failed, the store has accepted its entity and its snapshot. *)
Lemma ingest_step (today : Z) (p : ForbesPerson) (r : Run) :
  unique_keys (store r) ->
  exists r',
    process_record today p r = (Returned tt, r') /\
    unique_keys (store r') /\
    (forall x, In x (slug_ids (store r)) -> In x (slug_ids (store r'))) /\
    (recordsFailed r' = recordsFailed r ->
     exists sl name id row,
       entity_of p = Some (sl, name) /\
       In (sl, id) (slug_ids (store r')) /\
       billionaires (store r') = upserted_rows (upsert_data p sl) name (store r) /\
       snapshot_row today p id r = Some row /\
       daily_snapshots (store r') = upsert_snapshot row (daily_snapshots (store r)) /\
       In row (daily_snapshots (store r')) /\
       filter (fun x => (ds_billionaire_id x =? id) && (snapshot_date x =? today))
              (daily_snapshots (store r'))
       = [row]).
Proof.
  intros [Hu1 Hu2].
  destruct (process_record_step today p r) as [r' (E & N1 & N2 & Hmono & _)].
  exists r'. split; [exact E|]. split; [split; auto|]. split; [exact Hmono|].
  intros Hnf.
  destruct (entity_of p) as [[sl name]|] eqn:He.
  - destruct (process_record_accepted today p r sl name He)
      as [id [r'' (E' & Hin & Hb & _ & _ & _ & _ & Hsnap)]].
    rewrite E in E'. injection E' as <-.
    destruct (snapshot_row today p id r) as [row|] eqn:Hrow;
      [|destruct Hsnap as [_ Hf]; lia].
    destruct Hsnap as [Hs _].
    exists sl, name, id, row.
    assert (Hin' : In row (daily_snapshots (store r'))).
    { rewrite Hs. apply upsert_const_In. }
    pose proof (snapshot_of_key _ _ Hrow) as Hkey. cbn in Hkey.
    repeat (split; [first [reflexivity | assumption]|]).
    destruct (unique_row snap_key
                (fun x => (ds_billionaire_id x =? id) && (snapshot_date x =? today))
                (id, today) (daily_snapshots (store r')))
      as [x Hx].
    + intros x. apply day_test_key.
    + now apply N2.
    + apply in_map_iff. exists row. split; [exact Hkey|exact Hin'].
    + rewrite Hx. f_equal.
      assert (Hi : In row (filter (fun x => (ds_billionaire_id x =? id)
                                            && (snapshot_date x =? today))
                                  (daily_snapshots (store r')))).
      { apply filter_In. split; [exact Hin'|]. now apply day_test_key. }
      rewrite Hx in Hi. destruct Hi as [Hi|[]]. exact Hi.
  - destruct (process_record_refused today p r He) as [r'' (E' & _ & _ & Hf & _)].
    rewrite E in E'. injection E' as <-. lia.
Qed.



(** X10. The change stored for a day is measured against the day before.
    When the same entity is ingested on two consecutive days from a store
    that satisfies the uniqueness constraints, neither record being counted
    as failed, and the two rounded net worths and their difference are safe
    integers, the snapshot of the second day carries the net worth of the
    second record and, as daily change, the difference of the two rounded
    net worths; a difference of zero is stored as NULL. *)
Theorem change_between_consecutive_days
    (today : Z) (p1 p2 : ForbesPerson) (r : Run) (sl name1 name2 : string) :
  entity_of p1 = Some (sl, name1) -> entity_of p2 = Some (sl, name2) ->
  safe (currentWorthMillions p1) = true ->
  safe (currentWorthMillions p2) = true ->
  safe (currentWorthMillions p2 - currentWorthMillions p1) = true ->
  unique_keys (store r) ->
  exists r1 r2,
    process_record today p1 r = (Returned tt, r1) /\
    process_record (today + 1) p2 r1 = (Returned tt, r2) /\
    (recordsFailed r1 = recordsFailed r -> recordsFailed r2 = recordsFailed r1 ->
     exists id ds,
       In (sl, id) (slug_ids (store r2)) /\
       filter (fun x => (ds_billionaire_id x =? id) && (snapshot_date x =? today + 1))
              (daily_snapshots (store r2)) = [ds] /\
       net_worth ds = currentWorthMillions p2 /\
       daily_change ds
       = (if currentWorthMillions p2 - currentWorthMillions p1 =? 0 then None
          else Some (currentWorthMillions p2 - currentWorthMillions p1))).
Proof.
  intros He1 He2 Hs1 Hs2 Hsd Hu.
  destruct (ingest_step today p1 r Hu) as [r1 (E1 & Hu1 & _ & Hok1)].
  destruct (ingest_step (today + 1) p2 r1 Hu1) as [r2 (E2 & [N1 N2] & Hmono & Hok2)].
  exists r1, r2. split; [exact E1|]. split; [exact E2|].
  intros Hnf1 Hnf2.
  destruct (Hok1 Hnf1)
    as [sl1 [n1 [id [row1 (He1' & Hin1 & _ & Hrow1 & _ & _ & Hday1)]]]].
  rewrite He1 in He1'. injection He1' as <- <-.
  destruct (Hok2 Hnf2)
    as [sl2 [n2 [id2 [row2 (He2' & Hin2 & _ & Hrow2 & _ & _ & Hday2)]]]].
  rewrite He2 in He2'. injection He2' as <- <-.
  assert (Hid : id2 = id).
  { apply (slug_id_unique (billionaires (store r2)) sl).
    - exact N1.
    - exact Hin2.
    - apply Hmono. exact Hin1. }
  subst id2.
  exists id, row2.
  split; [apply Hmono; exact Hin1|]. split; [exact Hday2|].
  destruct (snapshot_of_fields _ _ Hrow1) as (Hw1 & _).
  destruct (snapshot_of_fields _ _ Hrow2) as (Hw2 & _ & Hc2).
  cbn [snapshot_data netWorth dailyChange] in Hw1, Hw2, Hc2.
  rewrite (as_int8_safe _ Hs1) in Hw1. injection Hw1 as Hw1.
  rewrite (as_int8_safe _ Hs2) in Hw2. injection Hw2 as Hw2.
  split; [now symmetry|].
  assert (Hy : select_yesterday id (today + 1) (store r1)
               = [currentWorthMillions p1]).
  { unfold select_yesterday. replace (today + 1 - 1) with today by lia.
    rewrite Hday1. cbn. now rewrite <- Hw1. }
  rewrite Hy in Hc2.
  rewrite (computed_delta (currentWorthMillions p2) [currentWorthMillions p1] Hs2)
    in Hc2 by (split; assumption).
  cbn [option_map] in Hc2. rewrite (stored_change _ Hsd) in Hc2.
  now injection Hc2.
Qed.

Lemma change_between_consecutive_days_witness :
  exists r1 r2,
    process_record 100 (Examples.person "cy" "Cy" 700 3) (mkRun Examples.seeded 0 0 0 None)
    = (Returned tt, r1) /\
    process_record (100 + 1) (Examples.person "cy" "Cy" 650 4) r1 = (Returned tt, r2) /\
    exists id ds,
      filter (fun x => (ds_billionaire_id x =? id) && (snapshot_date x =? 100 + 1))
             (daily_snapshots (store r2)) = [ds] /\
      daily_change ds = Some (-50).
Proof.
  destruct (change_between_consecutive_days 100
              (Examples.person "cy" "Cy" 700 3) (Examples.person "cy" "Cy" 650 4)
              (mkRun Examples.seeded 0 0 0 None) "cy" "Cy" "Cy"
              eq_refl eq_refl eq_refl eq_refl eq_refl)
    as [r1 [r2 (E1 & E2 & H)]].
  - split; constructor.
  - exists r1, r2. split; [exact E1|]. split; [exact E2|].
    assert (H1 : recordsFailed r1 = 0).
    { vm_compute in E1. injection E1 as <-. reflexivity. }
    assert (H2 : recordsFailed r2 = recordsFailed r1).
    { vm_compute in E1. injection E1 as <-.
      vm_compute in E2. injection E2 as <-. reflexivity. }
    destruct (H H1 H2) as [id [ds (_ & Hf & _ & Hd)]].
    exists id, ds. split; assumption.
Defined.



End ServingFacts.

(* ================================================================= *)
(** ** The ranking read by the home page *)

Module RankingFacts.
Import JS Number Effect Store Text Billionaires Comparisons Readers Spec Plan.
Import SnapshotFacts HistoryFacts ReaderFacts.








End RankingFacts.

(* ================================================================= *)
(** ** The pre-computed comparisons: written once, read back *)

Module BulkReadFacts.
Import JS Number Effect Store Text Comparisons ComparisonReaders Spec Plan Overwrite.
Import NumberFacts UpsertFacts BulkFacts SnapshotFacts.

Local Abbreviation upserts :=
  (fold_left (fun t row => upsert_comparison row t)).

Lemma same_calculation_refl (x : CalculatedComparison) : same_calculation x x = true.
Proof. apply same_calculation_key. reflexivity. Qed.

Lemma same_calculation_trans (r x y : CalculatedComparison) :
  same_calculation r x = true -> same_calculation r y = same_calculation x y.
Proof.
  intros H. apply same_calculation_key in H.
  destruct (same_calculation x y) eqn:E.
  - apply same_calculation_key in E. apply same_calculation_key. congruence.
  - apply not_true_is_false. intros F. apply same_calculation_key in F.
    assert (same_calculation x y = true) by (apply same_calculation_key; congruence).
    congruence.
Qed.

Lemma same_calculation_sym (x y : CalculatedComparison) :
  same_calculation x y = same_calculation y x.
Proof.
  destruct (same_calculation y x) eqn:E.
  - apply same_calculation_key in E. apply same_calculation_key. congruence.
  - apply not_true_is_false. intros F. apply same_calculation_key in F.
    assert (same_calculation y x = true) by (apply same_calculation_key; congruence).
    congruence.
Qed.

(** A row found after one upsert is the row written, or an old row with
    another key. *)
Lemma upsert_comparison_In_other (r x : CalculatedComparison)
    (l : list CalculatedComparison) :
  In x (upsert_comparison r l) -> x = r \/ (In x l /\ same_calculation r x = false).
Proof.
  unfold upsert_comparison, upsert.
  destruct (existsb (same_calculation r) l) eqn:E.
  - intros H. apply in_map_iff in H. destruct H as [y [Hy Hin]].
    destruct (same_calculation r y) eqn:F; [now left|].
    right. subst y. split; assumption.
  - intros H. apply in_app_or in H. destruct H as [H|[<-|[]]]; [|now left].
    right. split; [exact H|].
    apply not_true_is_false. intros F.
    assert (existsb (same_calculation r) l = true)
      by (apply existsb_exists; eauto).
    congruence.
Qed.

Lemma last_with_none (rs : list CalculatedComparison) (x : CalculatedComparison) :
  last_with rs x = None <-> forall r, In r rs -> same_calculation r x = false.
Proof.
  induction rs as [|r rs IH]; cbn.
  - split; [intros _ r []|reflexivity].
  - destruct (last_with rs x) as [y|].
    + split; [discriminate|]. intros H.
      assert (F : Some y = None) by (apply IH; intros; apply H; now right).
      discriminate.
    + destruct (same_calculation r x) eqn:E.
      * split; [discriminate|]. intros H. specialize (H r (or_introl eq_refl)). congruence.
      * split; [|reflexivity]. intros _ r' [<-|H]; [exact E|].
        now apply IH.
Qed.

Lemma last_with_some (rs : list CalculatedComparison) (x y : CalculatedComparison) :
  last_with rs x = Some y -> In y rs /\ same_calculation y x = true.
Proof.
  induction rs as [|r rs IH]; cbn; [discriminate|].
  destruct (last_with rs x) as [z|].
  - intros [= ->]. destruct (IH eq_refl). split; [now right|assumption].
  - destruct (same_calculation r x) eqn:E; [|discriminate].
    intros [= <-]. split; [now left|exact E].
Qed.

Lemma same_calculation_congr (r x y : CalculatedComparison) :
  same_calculation x y = true -> same_calculation r x = same_calculation r y.
Proof.
  intros H. apply same_calculation_key in H.
  destruct (same_calculation r y) eqn:E.
  - apply same_calculation_key in E. apply same_calculation_key. congruence.
  - apply not_true_is_false. intros F. apply same_calculation_key in F.
    assert (same_calculation r y = true) by (apply same_calculation_key; congruence).
    congruence.
Qed.

Lemma last_with_key (rs : list CalculatedComparison) (x y : CalculatedComparison) :
  same_calculation x y = true -> last_with rs x = last_with rs y.
Proof.
  intros H. induction rs as [|r rs IH]; [reflexivity|]. cbn. rewrite IH.
  now rewrite (same_calculation_congr r x y H).
Qed.

(** After the upserts of [rs], made in order, a row whose key is that of a
    row of [rs] is the last such row. *)
Lemma upserts_leave_last (rs : list CalculatedComparison) :
  forall l x y, In x (upserts rs l) -> last_with rs x = Some y -> x = y.
Proof.
  induction rs as [|r rs IH]; intros l x y Hx Hy; [discriminate|].
  cbn [fold_left] in Hx. cbn [last_with] in Hy.
  destruct (last_with rs x) as [z|] eqn:E.
  - injection Hy as <-. exact (IH _ _ _ Hx E).
  - destruct (same_calculation r x) eqn:F; [|discriminate]. injection Hy as <-.
    apply fold_upsert_In in Hx. destruct Hx as [Hx|Hx].
    + exfalso. pose proof (proj1 (last_with_none rs x) E x Hx) as G.
      rewrite same_calculation_refl in G. discriminate.
    + apply upsert_comparison_In_other in Hx. destruct Hx as [Hx|[_ Hx]]; [exact Hx|].
      congruence.
Qed.

Lemma overwritten_key (rs : list CalculatedComparison) (x : CalculatedComparison) :
  calc_key (overwritten rs x) = calc_key x.
Proof.
  unfold overwritten. destruct (last_with rs x) as [y|] eqn:E; [|reflexivity].
  apply last_with_some in E. destruct E as [_ E].
  apply same_calculation_key in E. congruence.
Qed.

(** When the key of every row of [rs] is present, the upserts of [rs] add no
    row: they overwrite in place. *)
Lemma upserts_in_place (rs : list CalculatedComparison) :
  forall l, (forall r, In r rs -> In (calc_key r) (map calc_key l)) ->
            upserts rs l = map (overwritten rs) l.
Proof.
  induction rs as [|r rs IH]; intros l Hk.
  - cbn. unfold overwritten. cbn. now rewrite map_id.
  - cbn [fold_left].
    assert (Ex : existsb (same_calculation r) l = true).
    { apply (existsb_conflict_iff calc_key (same_calculation r) r).
      - intros x. apply same_calculation_key.
      - apply Hk. now left. }
    assert (Eu : upsert_comparison r l
                 = map (fun x => if same_calculation r x then r else x) l).
    { unfold upsert_comparison, upsert. now rewrite Ex. }
    rewrite Eu, IH.
    + rewrite map_map. apply map_ext. intros x. unfold overwritten. cbn [last_with].
      destruct (same_calculation r x) eqn:F.
      * rewrite (last_with_key rs r x F). now destruct (last_with rs x).
      * now destruct (last_with rs x).
    + intros r' Hr'. rewrite map_map.
      assert (Em : map (fun x => calc_key (if same_calculation r x then r else x)) l
                   = map calc_key l).
      { apply map_ext. intros x. destruct (same_calculation r x) eqn:F; [|reflexivity].
        apply same_calculation_key in F. congruence. }
      rewrite Em. apply Hk. now right.
Qed.

(** Writing the same rows a second time changes nothing. *)
Lemma upserts_twice (rs l : list CalculatedComparison) :
  upserts rs (upserts rs l) = upserts rs l.
Proof.
  rewrite upserts_in_place.
  - rewrite <- (map_id (upserts rs l)) at 2. apply map_ext_in.
    intros x Hx. unfold overwritten.
    destruct (last_with rs x) as [y|] eqn:E; [|reflexivity].
    symmetry. exact (upserts_leave_last rs l x y Hx E).
  - intros r Hr. now apply fold_upsert_key_in.
Qed.

Lemma select_latest_net_worth_ext (s s' : Store.t) :
  billionaires s' = billionaires s -> daily_snapshots s' = daily_snapshots s ->
  select_latest_net_worth s' = select_latest_net_worth s.
Proof.
  intros Hb Hd. unfold select_latest_net_worth, max_snapshot_date.
  now rewrite Hb, Hd.
Qed.

(** The store after a run of the bulk pre-computation. *)
Lemma bulk_run (d : Z) (s : Store.t) (v : string) :
  hd_error (select_threshold s) = Some v ->
  let issued := attempts d (parseInt v) (select_latest_net_worth s)
                         (select_active_costs s) in
  let s' := snd (calculateAndStoreComparisons d s) in
  calculateAndStoreComparisons d s = run_statements issued 0 (tick (tick (tick s))) /\
  calculated_comparisons s' = upserts (accepted issued) (calculated_comparisons s) /\
  select_threshold s' = select_threshold s /\
  select_latest_net_worth s' = select_latest_net_worth s /\
  select_active_costs s' = select_active_costs s /\
  comparison_costs s' = comparison_costs s.
Proof.
  intros Hv issued s'.
  pose proof (calculateAndStoreComparisons_plan d s) as Hp.
  destruct (select_threshold s) as [|v0 rest] eqn:Ht; [discriminate|].
  cbn in Hv. injection Hv as ->. fold issued in Hp.
  pose proof (run_statements_store issued 0 (tick (tick (tick s)))) as H.
  cbv zeta in H. rewrite <- Hp in H. fold s' in H.
  destruct H as (H0 & H1 & _ & H3 & H4 & H5 & _).
  split; [exact Hp|]. split; [exact H0|].
  split; [|split; [|split]].
  - unfold select_threshold in *. rewrite H5. exact Ht.
  - apply select_latest_net_worth_ext; assumption.
  - unfold select_active_costs. now rewrite H4.
  - exact H4.
Qed.

(** A run that returns has issued statements that the store accepted all. *)
Lemma bulk_run_returned (d : Z) (s : Store.t) (n : Z) (s1 : Store.t) :
  calculateAndStoreComparisons d s = (Returned n, s1) ->
  exists v,
    hd_error (select_threshold s) = Some v /\
    let issued := attempts d (parseInt v) (select_latest_net_worth s)
                           (select_active_costs s) in
    refused issued = false /\
    n = Z.of_nat (List.length issued) /\
    s1 = write_all (accepted issued) (tick (tick (tick s))).
Proof.
  intros E. rewrite calculateAndStoreComparisons_plan in E.
  destruct (select_threshold s) as [|v rest] eqn:Ht; [discriminate|].
  exists v. split; [reflexivity|]. cbv zeta.
  unfold run_statements in E.
  destruct (refused _); [discriminate|].
  injection E as <- <-. auto.
Qed.

(** X13. The bulk pre-computation is idempotent.  No run removes a row:
    every key stored before a run is stored after it, whether the run
    returns or throws.  And when a run returns, a second run for the same
    day on the store it left returns the same count and leaves the table of
    stored comparisons exactly as the first run left it. *)
Theorem bulk_precomputation_is_idempotent (d : Z) (s : Store.t) :
  (forall k, In k (map calc_key (calculated_comparisons s)) ->
             In k (map calc_key
                     (calculated_comparisons (snd (calculateAndStoreComparisons d s))))) /\
  (forall n s1,
     calculateAndStoreComparisons d s = (Returned n, s1) ->
     exists s2,
       calculateAndStoreComparisons d s1 = (Returned n, s2) /\
       calculated_comparisons s2 = calculated_comparisons s1).
Proof.
  split.
  - intros k Hk. rewrite calculateAndStoreComparisons_plan.
    destruct (select_threshold s) as [|v rest]; [exact Hk|].
    pose proof (run_statements_store
                  (attempts d (parseInt v) (select_latest_net_worth s)
                            (select_active_costs s)) 0 (tick (tick (tick s)))) as H.
    cbv zeta in H. destruct H as [H _]. rewrite H.
    now apply fold_upsert_keys_mono.
  - intros n s1 E.
    destruct (bulk_run_returned d s n s1 E) as [v (Hv & Hr & Hn & Hs1)].
    cbv zeta in *.
    destruct (bulk_run d s v Hv) as (_ & T1 & Ht & Hl & Hc & _).
    cbv zeta in *. rewrite E in *. cbn [snd] in *.
    set (issued := attempts d (parseInt v) (select_latest_net_worth s)
                            (select_active_costs s)) in *.
    assert (Hv1 : hd_error (select_threshold s1) = Some v) by (rewrite Ht; exact Hv).
    destruct (bulk_run d s1 v Hv1) as (E2 & T2 & _).
    cbv zeta in *. rewrite Hl, Hc in E2, T2. fold issued in E2, T2.
    unfold run_statements in E2. rewrite Hr in E2.
    rewrite E2 in T2. cbn [snd] in T2.
    eexists. split.
    + rewrite E2. f_equal. f_equal. lia.
    + rewrite write_all_comparisons.
      change (calculated_comparisons (tick (tick (tick s1))))
        with (calculated_comparisons s1).
      rewrite T1. apply upserts_twice.
Qed.

Lemma bulk_precomputation_is_idempotent_witness :
  exists n s1 s2,
    calculateAndStoreComparisons 100 Examples.ada_yesterday = (Returned n, s1) /\
    calculateAndStoreComparisons 100 s1 = (Returned n, s2) /\
    calculated_comparisons s2 = calculated_comparisons s1 /\
    n = 3.
Proof.
  pose proof (proj2 (bulk_precomputation_is_idempotent 100 Examples.ada_yesterday)
                3 (snd (calculateAndStoreComparisons 100 Examples.ada_yesterday))) as H.
  destruct H as [s2 (E2 & T)]; [vm_compute; reflexivity|].
  exists 3, (snd (calculateAndStoreComparisons 100 Examples.ada_yesterday)), s2.
  split; [vm_compute; reflexivity|]. split; [exact E2|]. split; [exact T|reflexivity].
Defined.

End BulkReadFacts.

(* ================================================================= *)
(** ** Reading the stored comparisons of an entity *)

Module ComparisonReadFacts.
Import JS Number Effect Store Text Comparisons ComparisonReaders Spec Plan Overwrite.
Import NumberFacts UpsertFacts BulkFacts SnapshotFacts BulkSelection ReaderFacts ServingFacts
  BulkReadFacts.

Local Abbreviation upserts :=
  (fold_left (fun t row => upsert_comparison row t)).

Lemma insert_before_In {A} (before : A -> A -> bool) (x y : A) (l : list A) :
  In y (insert_before before x l) <-> y = x \/ In y l.
Proof.
  induction l as [|a l IH]; cbn.
  - intuition.
  - destruct (before a x); cbn; [|intuition]. rewrite IH. intuition.
Qed.

Lemma order_with_In {A} (before : A -> A -> bool) (l : list A) (y : A) :
  In y (order_with before l) <-> In y l.
Proof.
  induction l as [|a l IH]; [reflexivity|].
  change (order_with before (a :: l))
    with (insert_before before a (order_with before l)).
  rewrite insert_before_In, IH. cbn. intuition.
Qed.

(** The rows of the join that come from one stored comparison. *)
Lemma joined_In (s : Store.t) (row : ComparisonWithCost) :
  In row (joined s) <->
  exists cc c, In cc (calculated_comparisons s) /\ In c (comparison_costs s) /\
               cc_id c = comparison_cost_id cc /\
               row = mkComparisonWithCost cc (display_name c) (cost_unit c)
                       (description c) (category c) (display_order c) (cost c).
Proof.
  unfold joined. rewrite in_flat_map. split.
  - intros [cc [Hcc H]]. apply in_map_iff in H. destruct H as [c [<- Hc]].
    apply filter_In in Hc. destruct Hc as [Hc E]. apply Z.eqb_eq in E.
    exists cc, c. repeat split; assumption.
  - intros [cc [c (Hcc & Hc & E & ->)]]. exists cc. split; [exact Hcc|].
    apply in_map_iff. exists c. split; [reflexivity|].
    apply filter_In. split; [exact Hc|]. now apply Z.eqb_eq.
Qed.

(** Under the uniqueness of snapshots an entity has one latest net worth. *)
Lemma latest_net_worth_unique (s : Store.t) (id nw nw' : Z) :
  NoDup (snap_keys s) ->
  In (id, nw) (select_latest_net_worth s) ->
  In (id, nw') (select_latest_net_worth s) -> nw = nw'.
Proof.
  intros Hnd H1 H2.
  apply select_latest_net_worth_spec in H1, H2.
  destruct H1 as [_ [ds1 [(I1 & D1 & M1) <-]]].
  destruct H2 as [_ [ds2 [(I2 & D2 & M2) <-]]].
  f_equal. apply (unique_by_key snap_key (daily_snapshots s)); try assumption.
  unfold snap_key. rewrite D1, D2. f_equal.
  pose proof (M1 ds2 I2 D2). pose proof (M2 ds1 I1 D1). lia.
Qed.

(** The row that a run of the pre-computation leaves for a pair with a
    positive quantity, when the store accepts every statement of the run. *)
Lemma bulk_leaves_row (d : Z) (s : Store.t) (thr : number) (id nw : Z)
    (c : ComparisonCost) :
  NoDup (snap_keys s) -> NoDup (map cc_id (comparison_costs s)) ->
  In (id, nw) (select_latest_net_worth s) ->
  In c (comparison_costs s) -> active c = true ->
  gt0 (quantity_of (of_integer nw) thr (cost c)) = true ->
  refused (attempts d thr (select_latest_net_worth s) (select_active_costs s)) = false ->
  exists x,
    comparison_row id (cc_id c) d (usableWealthMillions (of_integer nw) thr)
      (quantity_of (of_integer nw) thr (cost c)) = Some x /\
    In x (upserts (rows d thr (select_latest_net_worth s) (select_active_costs s))
                  (calculated_comparisons s)).
Proof.
  intros N1 N2 Hb Hc Ha Hq Hr.
  set (issued := attempts d thr (select_latest_net_worth s) (select_active_costs s)) in *.
  set (planned := rows d thr (select_latest_net_worth s) (select_active_costs s)).
  assert (Hcost : In (cc_id c, cost c) (select_active_costs s)).
  { unfold select_active_costs. apply in_map_iff. exists c. split; [reflexivity|].
    apply filter_In. split; assumption. }
  assert (Hin : In (comparison_row id (cc_id c) d
                      (usableWealthMillions (of_integer nw) thr)
                      (quantity_of (of_integer nw) thr (cost c))) issued).
  { apply attempts_In. exists (id, nw), (cc_id c, cost c). auto. }
  rewrite <- (accepted_all issued Hr) in Hin. apply in_map_iff in Hin.
  destruct Hin as [r0 [E0 Hr0]]. symmetry in E0.
  change (accepted issued) with planned in Hr0.
  exists r0. split; [exact E0|].
  pose proof (fold_upsert_key_in planned (calculated_comparisons s) r0 Hr0) as Hk.
  apply in_map_iff in Hk. destruct Hk as [x [Hkx Hx]].
  assert (Hsame : same_calculation r0 x = true) by now apply same_calculation_key.
  destruct (last_with planned x) as [y|] eqn:El.
  2:{ pose proof (proj1 (last_with_none planned x) El r0 Hr0). congruence. }
  pose proof (upserts_leave_last planned _ x y Hx El) as ->.
  apply last_with_some in El. destruct El as [Hy _].
  apply rows_In in Hy. destruct Hy as [[id' nw'] [[cid' cost'] (Hb' & Hc' & _ & Ey)]].
  cbn [fst snd] in Ey.
  pose proof (comparison_row_key _ _ _ _ _ _ Ey) as Ky.
  pose proof (comparison_row_key _ _ _ _ _ _ E0) as K0.
  rewrite Ky, K0 in Hkx. injection Hkx as -> ->.
  assert (nw' = nw) by (eapply latest_net_worth_unique; eassumption). subst nw'.
  assert (cost' = cost c).
  { unfold select_active_costs in Hc'. apply in_map_iff in Hc'.
    destruct Hc' as [c2 [[= E1 E2] Hc2]]. apply filter_In in Hc2. destruct Hc2 as [Hc2 _].
    assert (c2 = c) by (apply (unique_by_key cc_id (comparison_costs s)); assumption).
    subst c2. now symmetry. }
  subst cost'. rewrite Ey in E0. injection E0 as <-. exact Hx.
Qed.

(** At or below a threshold of whole millions the usable wealth is zero,
    and so no quantity is positive. *)
Lemma usable_zero_below_threshold (nw t : Z) :
  safe t = true -> safe nw = true -> safe (nw - t) = true -> nw <= t ->
  usableWealthMillions (of_integer nw) (of_Z (t * 1000000)) = Num 0.
Proof.
  intros Ht Hn Hd Hle. unfold usableWealthMillions.
  rewrite (div_millions t Ht), (of_integer_safe nw Hn), (sub_safe nw t Hd).
  unfold Math_max0, of_Z.
  destruct (Qlt_le_dec 0 (inject_Z (nw - t))) as [H|H]; [|reflexivity].
  exfalso. change 0%Q with (inject_Z 0) in H. rewrite <- Zlt_Qlt in H. lia.
Qed.

Lemma quantity_of_usable_zero (w thr : number) (c : Q) :
  usableWealthMillions w thr = Num 0 -> gt0 (quantity_of w thr c) = false.
Proof.
  intros H. unfold quantity_of, usableWealthUSD. rewrite H.
  assert (E : mul (Num 0) (of_Z 1000000) = Num 0) by (vm_compute; reflexivity).
  rewrite E. unfold div, of_decimal.
  destruct (round c) as [b| | |]; try reflexivity.
  destruct (Qeq_bool b 0) eqn:Eb; [reflexivity|].
  rewrite (round_Qeq (0 / b) 0).
  - reflexivity.
  - unfold Qdiv. ring.
Qed.

Lemma filter_upsert_other (P : CalculatedComparison -> bool)
    (r : CalculatedComparison) (l : list CalculatedComparison) :
  P r = false -> (forall x, same_calculation r x = true -> P x = false) ->
  filter P (upsert_comparison r l) = filter P l.
Proof.
  intros Hr Hsame. unfold upsert_comparison, upsert.
  destruct (existsb (same_calculation r) l).
  - induction l as [|x l IH]; [reflexivity|]. cbn [map filter].
    destruct (same_calculation r x) eqn:E.
    + rewrite Hr, (Hsame x E). exact IH.
    + destruct (P x); now rewrite IH.
  - rewrite filter_app. cbn [filter]. rewrite Hr. apply app_nil_r.
Qed.

Lemma of_entity_same (id : Z) (r x : CalculatedComparison) :
  same_calculation r x = true -> of_entity id x = of_entity id r.
Proof.
  intros H. apply same_calculation_key in H. unfold calc_key in H.
  injection H as H _ _. unfold of_entity. now rewrite H.
Qed.

Lemma filter_upserts_other (id : Z) (rs : list CalculatedComparison) :
  (forall r, In r rs -> of_entity id r = false) ->
  forall l, filter (of_entity id) (upserts rs l) = filter (of_entity id) l.
Proof.
  induction rs as [|r rs IH]; intros Hrs l; [reflexivity|].
  cbn [fold_left]. rewrite IH by (intros; apply Hrs; now right).
  apply filter_upsert_other.
  - apply Hrs. now left.
  - intros x Hx. rewrite (of_entity_same id r x Hx). apply Hrs. now left.
Qed.

(** The rows of the join that belong to an entity come from the stored
    comparisons of that entity. *)
Lemma filter_join (id : Z) (Q : ComparisonWithCost -> bool)
    (costs : list ComparisonCost) (l : list CalculatedComparison) :
  let f := fun cc =>
    map (fun c => mkComparisonWithCost cc (display_name c) (cost_unit c)
                    (description c) (category c) (display_order c) (cost c))
        (filter (fun c => cc_id c =? comparison_cost_id cc) costs) in
  filter (fun row => of_entity id (stored row) && Q row) (flat_map f l)
  = filter (fun row => of_entity id (stored row) && Q row)
           (flat_map f (filter (of_entity id) l)).
Proof.
  intros f. induction l as [|cc l IH]; [reflexivity|].
  cbn [flat_map filter]. rewrite filter_app, IH.
  destruct (of_entity id cc) eqn:E.
  - cbn [flat_map]. now rewrite filter_app.
  - assert (Hn : filter (fun row => of_entity id (stored row) && Q row) (f cc) = []).
    { apply filter_none. apply not_true_is_false. intros H.
      apply existsb_exists in H. destruct H as [row [Hrow Ht]].
      unfold f in Hrow. apply in_map_iff in Hrow. destruct Hrow as [c [<- _]].
      cbn [stored] in Ht. rewrite E in Ht. discriminate. }
    now rewrite Hn.
Qed.

Section Collation.
Variable collate : string -> string -> comparison.

Lemma select_calculated_by_entity (id : Z) (date : option Z) (s s' : Store.t) :
  comparison_costs s' = comparison_costs s ->
  filter (of_entity id) (calculated_comparisons s')
  = filter (of_entity id) (calculated_comparisons s) ->
  select_calculated collate id date s' = select_calculated collate id date s.
Proof.
  intros Hc Hf. unfold select_calculated.
  assert (Hm : max_calculation_date id s' = max_calculation_date id s).
  { unfold max_calculation_date.
    change (fun cc => calc_billionaire_id cc =? id) with (of_entity id).
    now rewrite Hf. }
  rewrite Hm. f_equal.
  set (wanted := match date with Some d => Some d | None => max_calculation_date id s end).
  change (fun row => (calc_billionaire_id (stored row) =? id)
                     && is_date wanted (calculation_date (stored row)))
    with (fun row => of_entity id (stored row)
                     && (fun row => is_date wanted (calculation_date (stored row))) row).
  unfold joined. rewrite Hc.
  rewrite (filter_join id _ (comparison_costs s) (calculated_comparisons s')).
  rewrite (filter_join id _ (comparison_costs s) (calculated_comparisons s)).
  now rewrite Hf.
Qed.

(** X14. What the pre-computation stores is what the detail page reads.
    Under the uniqueness of snapshots and of cost ids, when a run for day
    [d] returns, the comparisons read afterwards for an entity and that day
    hold, for every active cost whose quantity computed from the latest net
    worth of the entity is positive, a row whose quantity and usable wealth
    are the integers read from the numbers computed from that net worth,
    joined with the name, unit, category and unit cost of that cost; and
    every row read belongs to that entity and that day. *)
Theorem stored_comparison_is_read
    (d : Z) (s : Store.t) (n : Z) (s' : Store.t) (v : string) (id nw : Z)
    (c : ComparisonCost) :
  calculateAndStoreComparisons d s = (Returned n, s') ->
  hd_error (select_threshold s) = Some v ->
  NoDup (snap_keys s) -> NoDup (map cc_id (comparison_costs s)) ->
  In (id, nw) (select_latest_net_worth s) ->
  In c (comparison_costs s) -> active c = true ->
  positive (quantity_of (of_integer nw) (parseInt v) (cost c)) ->
  exists read x,
    getCalculatedComparisons collate id (Some d) s' = (Returned read, tick s') /\
    In (mkComparisonWithCost x (display_name c) (cost_unit c) (description c)
          (category c) (display_order c) (cost c)) read /\
    calc_key x = (id, cc_id c, d) /\
    as_int8 (usableWealthMillions (of_integer nw) (parseInt v))
    = Some (net_worth_used x) /\
    as_int8 (quantity_of (of_integer nw) (parseInt v) (cost c)) = Some (quantity x) /\
    (forall row, In row read ->
       calc_billionaire_id (stored row) = id /\ calculation_date (stored row) = d).
Proof.
  intros E Hv N1 N2 Hb Hc Ha Hq. apply gt0_positive in Hq.
  destruct (bulk_run_returned d s n s' E) as [v' (Hv' & Hr & _ & _)].
  rewrite Hv in Hv'. injection Hv' as <-. cbv zeta in Hr.
  destruct (bulk_run d s v Hv) as (_ & T1 & _ & _ & _ & Hcosts).
  cbv zeta in *. rewrite E in *. cbn [snd] in *.
  destruct (bulk_leaves_row d s (parseInt v) id nw c N1 N2 Hb Hc Ha Hq Hr)
    as [x [Ex Hx]].
  exists (select_calculated collate id (Some d) s'), x.
  pose proof (comparison_row_key _ _ _ _ _ _ Ex) as Kx.
  apply comparison_row_fields in Ex. destruct Ex as (X1 & X2 & X3 & X4 & X5).
  split; [reflexivity|]. split; [|split; [exact Kx|split; [exact X4|split; [exact X5|]]]].
  - unfold select_calculated. apply order_with_In. apply filter_In. split.
    + apply joined_In. exists x, c.
      split; [rewrite T1; exact Hx|].
      split; [now rewrite Hcosts|]. split; [now rewrite X2 | reflexivity].
    + cbn [stored is_date]. rewrite X1, X3. now rewrite !Z.eqb_refl.
  - intros row Hrow. unfold select_calculated in Hrow.
    apply order_with_In in Hrow. apply filter_In in Hrow. destruct Hrow as [_ Ht].
    apply andb_true_iff in Ht. destruct Ht as [H1 H2].
    apply Z.eqb_eq in H1. cbn in H2. apply Z.eqb_eq in H2. split; assumption.
Qed.

(** X15. An entity at or below the threshold keeps the comparisons it had.
    When the threshold is a whole number of millions and the latest net
    worth of an entity does not exceed it (both being safe integers, and
    their difference too), a run of the pre-computation writes nothing for
    that entity, whether the run returns or throws: whatever the date asked
    for, and also when no date is given, the comparisons read for that
    entity after the run are those read before it, so the detail page goes
    on showing the rows of the last day that has any. *)
Theorem entity_below_threshold_keeps_old_comparisons
    (d : Z) (s : Store.t) (v : string) (t id : Z) :
  hd_error (select_threshold s) = Some v ->
  parseInt v = of_Z (t * 1000000) -> safe t = true ->
  (forall nw, In (id, nw) (select_latest_net_worth s) ->
     safe nw = true /\ safe (nw - t) = true /\ nw <= t) ->
  forall date,
    fst (getCalculatedComparisons collate id date
           (snd (calculateAndStoreComparisons d s)))
    = fst (getCalculatedComparisons collate id date s).
Proof.
  intros Hv Hp Ht Hlow date.
  destruct (bulk_run d s v Hv) as (_ & T1 & _ & _ & _ & Hcosts).
  cbv zeta in *.
  unfold getCalculatedComparisons, query_select. cbn [fst]. f_equal.
  apply select_calculated_by_entity; [exact Hcosts|].
  rewrite T1. apply filter_upserts_other.
  intros r Hr. apply rows_In in Hr.
  destruct Hr as [[id' nw] [c (Hb & _ & Hq & Er)]]. cbn [fst snd] in *.
  apply comparison_row_fields in Er. destruct Er as (E1 & _).
  unfold of_entity. rewrite E1. apply Z.eqb_neq. intros ->.
  rewrite Hp in Hq.
  destruct (Hlow nw Hb) as (Hn & Hd & Hle).
  pose proof (usable_zero_below_threshold nw t Ht Hn Hd Hle) as Hz.
  rewrite (quantity_of_usable_zero _ _ (snd c) Hz) in Hq. discriminate.
Qed.

End Collation.

Lemma stored_comparison_is_read_witness :
  exists read x,
    getCalculatedComparisons (fun _ _ => Eq) 1 (Some 100)
      (snd (calculateAndStoreComparisons 100 Examples.ada_yesterday))
    = (Returned read,
       tick (snd (calculateAndStoreComparisons 100 Examples.ada_yesterday))) /\
    In (mkComparisonWithCost x "Water wells" "well" "A drilled well" "water" 1 15000)
       read /\
    calc_key x = (1, 1, 100) /\ quantity x = 32666 /\ net_worth_used x = 490.
Proof.
  destruct (stored_comparison_is_read (fun _ _ => Eq) 100 Examples.ada_yesterday
              3 (snd (calculateAndStoreComparisons 100 Examples.ada_yesterday))
              "10000000" 1 500
              (mkComparisonCost 1 "Water wells" 15000 "well" "A drilled well"
                 (Some "Global"%string) "water" true 1))
    as [read [x (E & Hin & Hk & Hu & Hq & _)]].
  - vm_compute. reflexivity.
  - reflexivity.
  - repeat constructor; cbn; tauto.
  - repeat constructor; cbn; intuition discriminate.
  - now left.
  - now left.
  - reflexivity.
  - vm_compute. reflexivity.
  - exists read, x. split; [exact E|]. split; [exact Hin|]. split; [exact Hk|].
    split.
    + vm_compute in Hq. now injection Hq.
    + vm_compute in Hu. now injection Hu.
Defined.

Lemma entity_below_threshold_keeps_old_comparisons_witness :
  fst (getCalculatedComparisons (fun _ _ => Eq) 1 None
         (snd (calculateAndStoreComparisons 100
                 (Examples.with_entities [Examples.ada]
                    [mkDailySnapshot 1 99 7 (Some 1) None None]))))
  = fst (getCalculatedComparisons (fun _ _ => Eq) 1 None
           (Examples.with_entities [Examples.ada]
              [mkDailySnapshot 1 99 7 (Some 1) None None])).
Proof.
  apply (entity_below_threshold_keeps_old_comparisons (fun _ _ => Eq) 100
           (Examples.with_entities [Examples.ada]
              [mkDailySnapshot 1 99 7 (Some 1) None None])
           "10000000" 10 1 eq_refl).
  - vm_compute. reflexivity.
  - reflexivity.
  - intros nw [[= <-]|[]]. repeat split. lia.
Defined.

End ComparisonReadFacts.

(* ================================================================= *)
(** ** Configuration, data sources and the log of updates *)

Module ReportFacts.
Import JS Number Effect Store Text Billionaires Comparisons Admin Route Reports Shape.
Import SnapshotFacts HistoryFacts ReaderFacts GateFacts.

(** A column of the rows with key [k'] after [updateConfigValue k v]. *)
Lemma updated_config_column {B} (col : SiteConfig -> B) (k v k' : string) (s : Store.t) :
  map col (filter (fun c => String.eqb (key c) k')
             (site_config (snd (updateConfigValue k v s))))
  = map (fun c => if String.eqb k' k
                  then col (mkSiteConfig (key c) v (current_timestamp s))
                  else col c)
        (filter (fun c => String.eqb (key c) k') (site_config s)).
Proof.
  unfold updateConfigValue, query_write. cbn [snd site_config set_site_config tick].
  rewrite filter_map_commute.
  - rewrite map_map. apply map_ext_in. intros c Hc.
    apply filter_In in Hc. destruct Hc as [_ Hc]. apply String.eqb_eq in Hc. subst k'.
    now destruct (String.eqb (key c) k).
  - intros c. destruct (String.eqb (key c) k); reflexivity.
Qed.

Lemma config_key_present (k : string) (l : list SiteConfig) :
  In k (map key l) ->
  exists c rest, filter (fun c => String.eqb (key c) k) l = c :: rest.
Proof.
  intros H. apply in_map_iff in H. destruct H as [c [Hk Hc]].
  assert (Hin : In c (filter (fun c => String.eqb (key c) k) l)).
  { apply filter_In. split; [exact Hc|]. now apply String.eqb_eq. }
  destruct (filter (fun c => String.eqb (key c) k) l) as [|x rest]; [destruct Hin|].
  eauto.
Qed.

Lemma config_key_absent (k : string) (l : list SiteConfig) :
  ~ In k (map key l) -> filter (fun c => String.eqb (key c) k) l = [].
Proof.
  intros H. apply filter_none. apply not_true_is_false. intros E.
  apply existsb_exists in E. destruct E as [c [Hc Hk]]. apply String.eqb_eq in Hk.
  apply H. rewrite <- Hk. now apply in_map.
Qed.

Lemma getConfigValue_rows (k : string) (s : Store.t) :
  getConfigValue k s
  = (Returned (truthy (hd_error (map value (filter (fun c => String.eqb (key c) k)
                                              (site_config s))))),
     tick s).
Proof.
  unfold getConfigValue, bind, query_select, ret. now rewrite hd_error_firstn_1.
Qed.


(** X17. Only a run that answers 200 moves "last updated".  After a run let
    through by both guards: when the answer is 200 and the key
    [last_manual_update] exists, the health check reads the time stamp
    written by the run and the home page dates its figures at the time of
    the store at that run; when the key is missing the run still answers 200
    but nothing is recorded; when the answer is 500 both read as before.
    No other key is touched. *)
Theorem run_stamps_last_manual_update
    (cronSecret authHeader : option jsstring) (clock : Clock) (today : Z)
    (feed : Fetch) (lastRunTime : option Z) (s : Store.t) :
  Auth.authorize cronSecret authHeader = Auth.Authorized ->
  MIN_INTERVAL_MS <= now clock - match lastRunTime with Some t => t | None => 0 end ->
  exists resp s',
    GET cronSecret authHeader clock today feed lastRunTime s
    = (resp, Some (now clock), s') /\
    match resp with
    | UpdateDone _ _ _ _ _ =>
        (In "last_manual_update"%string (map key (site_config s)) ->
         fst (getConfigValue "last_manual_update" s')
         = Returned (truthy (Some (isoNow clock))) /\
         Stats.select_last_update s' = [current_timestamp s]) /\
        (~ In "last_manual_update"%string (map key (site_config s)) ->
         fst (getConfigValue "last_manual_update" s') = Returned None /\
         Stats.select_last_update s' = [])
    | UpdateFailed _ _ _ _ =>
        fst (getConfigValue "last_manual_update" s')
        = fst (getConfigValue "last_manual_update" s) /\
        Stats.select_last_update s' = Stats.select_last_update s
    | _ => False
    end /\
    (forall k, k <> "last_manual_update"%string ->
               fst (getConfigValue k s') = fst (getConfigValue k s)).
Proof.
  intros Hauth Hrate.
  assert (Hlt : (now clock - match lastRunTime with Some t => t | None => 0 end
                 <? MIN_INTERVAL_MS) = false) by (apply Z.ltb_ge; exact Hrate).
  destruct (guarded_block_logs_once clock today feed s)
    as [resp [r [row (E & _ & _ & _ & _ & _ & H)]]].
  exists resp, (store r).
  split; [unfold GET; rewrite Hauth, Hlt, E; reflexivity|].
  destruct resp as [| | | c u f n t | m c u f |]; try contradiction.
  - destruct H as (_ & _ & _ & _ & _ & _ & Hsc).
    split; [split|].
    + intros Hin. rewrite getConfigValue_rows. unfold Stats.select_last_update.
      rewrite Hsc, !updated_config_column. cbn [String.eqb Ascii.eqb Bool.eqb].
      destruct (config_key_present _ _ Hin) as [c0 [rest ->]]. split; reflexivity.
    + intros Hout. rewrite getConfigValue_rows. unfold Stats.select_last_update.
      rewrite Hsc, !updated_config_column.
      rewrite (config_key_absent _ _ Hout). split; reflexivity.
    + intros k Hne. rewrite !getConfigValue_rows, Hsc, updated_config_column.
      assert (Ek : String.eqb k "last_manual_update" = false) by now apply String.eqb_neq.
      rewrite Ek. reflexivity.
  - destruct H as (_ & _ & _ & _ & _ & Hsc).
    split; [split|].
    + rewrite !getConfigValue_rows, Hsc. reflexivity.
    + unfold Stats.select_last_update. now rewrite Hsc.
    + intros k _. rewrite !getConfigValue_rows, Hsc. reflexivity.
Qed.

Lemma run_stamps_last_manual_update_witness :
  exists resp s',
    GET (Some Examples.secret) (Some Examples.header) Examples.clock 100
        (Fetched Examples.small_batch) None Examples.seeded
    = (resp, Some 8640000000, s') /\
    (forall k, k <> "last_manual_update"%string ->
               fst (getConfigValue k s') = fst (getConfigValue k Examples.seeded)).
Proof.
  destruct (run_stamps_last_manual_update
              (Some Examples.secret) (Some Examples.header) Examples.clock 100
              (Fetched Examples.small_batch) None Examples.seeded
              eq_refl ltac:(discriminate))
    as [resp [s' (E & _ & H)]].
  exists resp, s'. split; assumption.
Defined.

(** The most recent of the completion times read by [getLastUpdateTimestamp]. *)
Lemma getLastUpdateTimestamp_max (s : Store.t) :
  getLastUpdateTimestamp s = (Returned (max_of (completed_updates s)), tick s).
Proof.
  unfold getLastUpdateTimestamp, bind, query_select, ret, select_last_completed,
    completed_updates.
  rewrite hd_error_firstn_1. f_equal. f_equal.
  set (l := filter (fun m => is_success m && is_data_update m) (update_metadata s)).
  destruct (order_by (fun m => - completed_at m) l) as [|x r] eqn:E.
  - assert (Hl : l = []).
    { apply length_zero_iff_nil. rewrite <- (order_by_length (fun m => - completed_at m)).
      now rewrite E. }
    rewrite Hl. reflexivity.
  - cbn [map hd_error]. symmetry. apply max_of_spec. split.
    + apply in_map. apply (order_by_In (fun m => - completed_at m)). rewrite E. now left.
    + intros y Hy. apply in_map_iff in Hy. destruct Hy as [m [<- Hm]].
      pose proof (order_by_head_least _ _ _ _ E m Hm) as H. cbv beta in H. lia.
Qed.

(** X18. The time of the last data update moves on full success only.
    [getLastUpdateTimestamp] returns the latest completion time among the
    logged runs with status [success] (null when there is none).  A run let
    through by both guards adds its own end time to these exactly when it
    answers 200 with no failed record; after a run with failed records
    (status [partial]) or a run answered 500 the function returns what it
    returned before. *)
Theorem last_update_moves_on_full_success_only
    (cronSecret authHeader : option jsstring) (clock : Clock) (today : Z)
    (feed : Fetch) (lastRunTime : option Z) (s : Store.t) :
  Auth.authorize cronSecret authHeader = Auth.Authorized ->
  MIN_INTERVAL_MS <= now clock - match lastRunTime with Some t => t | None => 0 end ->
  exists resp s',
    GET cronSecret authHeader clock today feed lastRunTime s
    = (resp, Some (now clock), s') /\
    fst (getLastUpdateTimestamp s) = Returned (max_of (completed_updates s)) /\
    fst (getLastUpdateTimestamp s') = Returned (max_of (completed_updates s')) /\
    match resp with
    | UpdateDone _ _ failures _ _ =>
        if failures =? 0
        then completed_updates s' = completed_updates s ++ [endTime clock]
        else completed_updates s' = completed_updates s /\
             fst (getLastUpdateTimestamp s') = fst (getLastUpdateTimestamp s)
    | _ =>
        completed_updates s' = completed_updates s /\
        fst (getLastUpdateTimestamp s') = fst (getLastUpdateTimestamp s)
    end.
Proof.
  intros Hauth Hrate.
  assert (Hlt : (now clock - match lastRunTime with Some t => t | None => 0 end
                 <? MIN_INTERVAL_MS) = false) by (apply Z.ltb_ge; exact Hrate).
  destruct (guarded_block_logs_once clock today feed s)
    as [resp [r [row (E & Hm & Hty & _ & Hc & _ & H)]]].
  exists resp, (store r).
  split; [unfold GET; rewrite Hauth, Hlt, E; reflexivity|].
  rewrite !getLastUpdateTimestamp_max. cbn [fst].
  split; [reflexivity|]. split; [reflexivity|].
  assert (Hcu : completed_updates (store r)
                = completed_updates s
                  ++ (if is_success row then [endTime clock] else [])).
  { unfold completed_updates. rewrite Hm, filter_app, map_app. f_equal.
    cbn [filter]. unfold is_data_update. rewrite Hty. cbn [String.eqb Ascii.eqb Bool.eqb orb].
    rewrite andb_true_r. destruct (is_success row); [cbn; now rewrite Hc|reflexivity]. }
  destruct resp as [| | | c u f n t | m c u f |]; try contradiction.
  - destruct H as (Hst & _). unfold is_success in Hcu. rewrite Hst in Hcu.
    destruct (f =? 0); [exact Hcu|].
    rewrite app_nil_r in Hcu. now rewrite Hcu.
  - destruct H as (Hst & _). unfold is_success in Hcu. rewrite Hst in Hcu.
    rewrite app_nil_r in Hcu. now rewrite Hcu.
Qed.

Lemma last_update_moves_on_full_success_only_witness :
  exists resp s',
    GET (Some Examples.secret) (Some Examples.header) Examples.clock 100
        (Fetched Examples.small_batch) None Examples.seeded
    = (resp, Some 8640000000, s') /\
    fst (getLastUpdateTimestamp s') = Returned (max_of (completed_updates s')).
Proof.
  destruct (last_update_moves_on_full_success_only
              (Some Examples.secret) (Some Examples.header) Examples.clock 100
              (Fetched Examples.small_batch) None Examples.seeded
              eq_refl ltac:(discriminate))
    as [resp [s' (E & _ & H & _)]].
  exists resp, s'. split; assumption.
Defined.

(** X19. Recording the access to a data source.  When [getDataSourceByName]
    finds a source, [updateDataSourceAccessed] on its id never fails, and the
    same lookup afterwards returns that source with the same id and name and
    the time of the store as time of last access; no source is added or
    removed, and sources with another id are left as they were. *)
Theorem data_source_access_is_recorded (name : string) (d : DataSource) (s : Store.t) :
  fst (getDataSourceByName name s) = Returned (Some d) ->
  let s' := snd (updateDataSourceAccessed (src_id d) s) in
  fst (updateDataSourceAccessed (src_id d) s) = Returned tt /\
  fst (getDataSourceByName name s')
  = Returned (Some (mkDataSource (src_id d) (src_name d) (Some (current_timestamp s)))) /\
  src_name d = name /\
  map src_id (data_sources s') = map src_id (data_sources s) /\
  map src_name (data_sources s') = map src_name (data_sources s) /\
  (forall other, In other (data_sources s) -> src_id other <> src_id d ->
                 In other (data_sources s')).
Proof.
  unfold getDataSourceByName, bind, query_select, ret. cbn [fst].
  intros [= H]. cbv zeta.
  unfold updateDataSourceAccessed, query_write.
  cbn [fst snd data_sources set_data_sources tick].
  set (g := fun d0 : DataSource =>
              if src_id d0 =? src_id d
              then mkDataSource (src_id d0) (src_name d0) (Some (current_timestamp s))
              else d0).
  destruct (filter (fun d0 => String.eqb (src_name d0) name) (data_sources s))
    as [|x rest] eqn:F; [discriminate|]. cbn in H. injection H as ->.
  assert (Hd : In d (filter (fun d0 => String.eqb (src_name d0) name) (data_sources s)))
    by (rewrite F; now left).
  apply filter_In in Hd. destruct Hd as [_ Hd]. apply String.eqb_eq in Hd.
  split; [reflexivity|]. split; [|split; [exact Hd|split; [|split]]].
  - rewrite (filter_map_commute (fun d0 => String.eqb (src_name d0) name) g).
    + rewrite F. cbn [map hd_error]. unfold g. now rewrite Z.eqb_refl.
    + intros y. unfold g. destruct (src_id y =? src_id d); reflexivity.
  - rewrite map_map. apply map_ext. intros y. unfold g.
    destruct (src_id y =? src_id d); reflexivity.
  - rewrite map_map. apply map_ext. intros y. unfold g.
    destruct (src_id y =? src_id d); reflexivity.
  - intros other Ho Hne. apply in_map_iff. exists other. split; [|exact Ho].
    unfold g. apply Z.eqb_neq in Hne. now rewrite Hne.
Qed.

Lemma data_source_access_is_recorded_witness :
  fst (getDataSourceByName "Forbes Real-Time Billionaires"
         (snd (updateDataSourceAccessed 1 Examples.seeded)))
  = Returned (Some (mkDataSource 1 "Forbes Real-Time Billionaires" (Some 8640000000))).
Proof.
  apply (data_source_access_is_recorded "Forbes Real-Time Billionaires"
           (mkDataSource 1 "Forbes Real-Time Billionaires" None) Examples.seeded
           eq_refl).
Defined.

End ReportFacts.

(* ================================================================= *)
(** ** The retries of [query] *)

Module DbFacts.
Import Db.

Ltac finish_trace :=
  cbn; repeat split;
  try lia; try congruence; try (now left); try (now right);
  try (let i := fresh "i" in let H := fresh "H" in
       intros i H; destruct i as [|[|i]]; try lia; eauto).

(** X20. The retry policy of [query].  Whatever the pool does, [query] calls
    it at least once and at most three times, sleeps 100 ms before the
    second call and 200 ms before the third, and never reaches the [throw]
    placed after the loop.  Every call but the last was rejected with a
    connection error; the last call decides: its result is returned, or its
    error is thrown again, which happens at the third call or as soon as an
    error is not a connection error.  In particular an error of the first
    call that is not a connection error is thrown at once, without retry. *)
Theorem query_retries_connection_errors_only {R : Type} (pool : nat -> Attempt R) :
  (1 <= calls (query pool) <= 3)%nat /\
  waits (query pool) = firstn (calls (query pool) - 1) [100; 200] /\
  (forall i, (i < calls (query pool) - 1)%nat ->
     exists m, pool i = Rejects m /\ isConnectionError m = true) /\
  match settled (query pool) with
  | Fulfilled result => pool (calls (query pool) - 1)%nat = Resolves result
  | Rethrown m =>
      pool (calls (query pool) - 1)%nat = Rejects m /\
      (calls (query pool) = 3%nat \/ isConnectionError m = false)
  | FellThrough _ => False
  end /\
  (forall m, pool 0%nat = Rejects m -> isConnectionError m = false ->
     query pool = mkTrace (Rethrown m) 1 []).
Proof.
  unfold query. cbn [seq attempts maxRetries Nat.eqb orb].
  destruct (pool 0%nat) as [r0|m0] eqn:E0; [now finish_trace|].
  destruct (isConnectionError m0) eqn:C0; cbn [negb]; [|now finish_trace].
  destruct (pool 1%nat) as [r1|m1] eqn:E1; [now finish_trace|].
  destruct (isConnectionError m1) eqn:C1; cbn [negb]; [|now finish_trace].
  destruct (pool 2%nat) as [r2|m2] eqn:E2; now finish_trace.
Qed.

End DbFacts.

(* ================================================================= *)
(** ** Properties of the formatters *)

Module FormatterFacts.
Import JS Formatters.
Local Open Scope string_scope.

Lemma list_ascii_of_string_app (a b : string) :
  list_ascii_of_string (a ++ b) = (list_ascii_of_string a ++ list_ascii_of_string b)%list.
Proof. induction a as [|c a IH]; cbn; [reflexivity|]. now rewrite IH. Qed.

Lemma endsWith_app (a b suffix : string) :
  endsWith b suffix = true -> endsWith (a ++ b) suffix = true.
Proof.
  unfold endsWith. rewrite list_ascii_of_string_app, rev_app_distr.
  generalize (rev (list_ascii_of_string suffix)) as p.
  generalize (rev (list_ascii_of_string b)) as l.
  intros l p. revert l. induction p as [|x p IH]; intros l H; [reflexivity|].
  destruct l as [|y l]; [discriminate|]. cbn in *.
  apply andb_true_iff in H. destruct H as [H1 H2]. rewrite H1. cbn. now apply IH.
Qed.

Lemma endsWith_ies_s (unit : string) :
  endsWith unit "ies" = true -> endsWith unit "s" = true.
Proof.
  unfold endsWith. cbn [list_ascii_of_string rev app].
  destruct (rev (list_ascii_of_string unit)) as [|c l]; [discriminate|].
  cbn. intros H. apply andb_true_iff in H. destruct H as [H _]. now rewrite H.
Qed.

(** X21. [pluralizeUnit].  For a quantity of at most one the unit is
    returned as it is.  For any other quantity (NaN included) the result
    ends in "s": a unit that already ends in "s" is kept, a final "y" is
    replaced by "ies", and "s" is appended otherwise; so pluralising twice
    is pluralising once.  The test for a final "ies" never decides, since
    such a unit ends in "s". *)
Theorem pluralizeUnit_ends_in_s (unit : string) (quantity : number) :
  (le quantity 1 = true -> pluralizeUnit unit quantity = unit) /\
  (le quantity 1 = false ->
   endsWith (pluralizeUnit unit quantity) "s" = true /\
   pluralizeUnit (pluralizeUnit unit quantity) quantity = pluralizeUnit unit quantity /\
   (endsWith unit "s" = true -> pluralizeUnit unit quantity = unit) /\
   (endsWith unit "s" = false -> endsWith unit "y" = true ->
    pluralizeUnit unit quantity = drop_last unit ++ "ies") /\
   (endsWith unit "s" = false -> endsWith unit "y" = false ->
    pluralizeUnit unit quantity = unit ++ "s")) /\
  (endsWith unit "ies" = true -> endsWith unit "s" = true).
Proof.
  split; [|split; [|apply endsWith_ies_s]].
  - intros H. unfold pluralizeUnit. now rewrite H.
  - intros H.
    assert (Hs : endsWith (pluralizeUnit unit quantity) "s" = true).
    { unfold pluralizeUnit. rewrite H.
      destruct (endsWith unit "s") eqn:E1; [exact E1|]. cbn [orb].
      destruct (endsWith unit "ies") eqn:E2; [apply endsWith_ies_s in E2; congruence|].
      destruct (endsWith unit "y"); now apply endsWith_app. }
    split; [exact Hs|]. split; [|split; [|split]].
    + unfold pluralizeUnit at 1. now rewrite H, Hs.
    + intros E. unfold pluralizeUnit. now rewrite H, E.
    + intros E1 E3. unfold pluralizeUnit. rewrite H, E1, E3. cbn [orb].
      destruct (endsWith unit "ies") eqn:E2; [apply endsWith_ies_s in E2; congruence|].
      reflexivity.
    + intros E1 E3. unfold pluralizeUnit. rewrite H, E1, E3. cbn [orb].
      destruct (endsWith unit "ies") eqn:E2; [apply endsWith_ies_s in E2; congruence|].
      reflexivity.
Qed.

Lemma pluralizeUnit_ends_in_s_witness :
  pluralizeUnit "library" (Num 3) = "librar" ++ "ies".
Proof.
  destruct (pluralizeUnit_ends_in_s "library" (Num 3)) as (_ & H & _).
  destruct (H eq_refl) as (_ & _ & _ & Hy & _).
  exact (Hy eq_refl eq_refl).
Defined.

Lemma Qopp_opp (x : Q) : (- - x)%Q = x.
Proof. destruct x as [n d]. unfold Qopp. cbn. now rewrite Z.opp_involutive. Qed.

(** X22. [formatChange] renders the size of a change and drops its
    direction.  Whatever the decimal rendering of the platform is, a gain of
    [x] is rendered as "+" followed by the rendering of [x] as a net worth,
    and a loss of [x] as the rendering of [x] alone, with no minus sign: the
    two texts differ by the leading "+" only.  No change recorded (null) is
    rendered "No change", and a change of zero as a gain. *)
Theorem formatChange_drops_the_sign (toFixed : number -> nat -> string) (x : Q) :
  (0 < x)%Q ->
  formatChange toFixed (Some (Num x)) = "+" ++ formatNetWorth toFixed (Num x) /\
  formatChange toFixed (Some (Num (- x))) = formatNetWorth toFixed (Num x) /\
  formatChange toFixed (Some (Num 0)) = "+" ++ formatNetWorth toFixed (Num 0) /\
  formatChange toFixed None = "No change".
Proof.
  intros Hx. unfold formatChange, ge, Math_abs. repeat split.
  - destruct (Qlt_le_dec x 0) as [H|H]; [lra|reflexivity].
  - destruct (Qlt_le_dec (- x) 0) as [H|H]; [|lra].
    cbn. now rewrite Qopp_opp.
Qed.

Lemma formatChange_drops_the_sign_witness :
  formatChange (fun _ _ => "?") (Some (Num (- (500)))) = formatNetWorth (fun _ _ => "?") (Num 500).
Proof.
  apply (formatChange_drops_the_sign (fun _ _ => "?") 500). reflexivity.
Defined.

End FormatterFacts.

(* ================================================================= *)
(** ** The data of the home page *)

Module HomePageFacts.
Import JS Number Effect Store Text Comparisons Readers ComparisonReaders Stats HomePage.
Import ComparisonFacts HistoryFacts StatsFacts.








(** X24. [getActiveComparisonCosts] reads once, never fails and returns
    exactly the active costs of the catalogue, as many as there are, in
    ascending display order: an inactive cost is never offered to the
    pages. *)
Theorem active_costs_in_display_order (s : Store.t) :
  exists costs,
    getActiveComparisonCosts s = (Returned costs, tick s) /\
    (forall c, In c costs <-> In c (comparison_costs s) /\ active c = true) /\
    List.length costs = List.length (filter active (comparison_costs s)) /\
    Sorted (fun a b => display_order a <= display_order b) costs.
Proof.
  eexists. split; [reflexivity|]. split; [|split].
  - intros c. rewrite (ReaderFacts.order_by_In display_order). apply filter_In.
  - apply order_by_length.
  - apply order_by_sorted.
Qed.




End HomePageFacts.

(* ================================================================= *)
(** ** Edges of the history and of the threshold *)

Module EdgeFacts.
Import JS Number Effect Store Text Billionaires Comparisons Spec Plan.
Import NumberFacts ComparisonFacts BulkFacts HistoryFacts ReaderFacts.

Lemma whole_days_accepted (n : Z) :
  1 <= n <= 365 ->
  (negb (isInteger (of_Z n)) || lt (of_Z n) 1 || gt (of_Z n) 365) = false /\
  days_of (of_Z n) = n.
Proof.
  intros Hn. split.
  - apply validation_accepts_iff. exists n. split; [exact Hn|].
    split; [apply Qfloor_Z|]. exists (inject_Z n). split; reflexivity.
  - apply Qfloor_Z.
Qed.

(** X25. The window of [getBillionaireHistory].  For a whole number of days
    between 1 and 365 the history is read with one statement and holds, in
    ascending order of date, exactly the snapshots of the entity dated
    [CURRENT_DATE - days] or later, each with its date, net worth and rank;
    when snapshots are unique per entity and day and none lies in the
    future, these are at most [days + 1] rows.  Any other value of [days]
    is refused before the store is reached. *)
Theorem history_window (id n : Z) (s : Store.t) :
  (1 <= n <= 365 ->
   exists rows,
     getBillionaireHistory id (of_Z n) s = (Returned rows, tick s) /\
     Sorted (fun a b => h_snapshot_date a <= h_snapshot_date b) rows /\
     (forall row, In row rows <->
        exists ds, In ds (daily_snapshots s) /\ ds_billionaire_id ds = id /\
                   current_date s - n <= snapshot_date ds /\
                   row = mkHistoryRow (snapshot_date ds) (net_worth ds) (rank ds)) /\
     (NoDup (snap_keys s) ->
      (forall ds, In ds (daily_snapshots s) -> snapshot_date ds <= current_date s) ->
      Z.of_nat (List.length rows) <= n + 1)) /\
  (forall days, (negb (isInteger days) || lt days 1 || gt days 365) = true ->
     exists e, getBillionaireHistory id days s = (Thrown e, s)).
Proof.
  split.
  - intros Hn. destruct (whole_days_accepted n Hn) as [Hv Hd].
    destruct (valid_days_history id (of_Z n) s Hv) as (E & Hs & _).
    rewrite Hd in *. exists (select_history id n s).
    split; [exact E|]. split; [exact Hs|]. split.
    + intros row. unfold select_history. rewrite in_map_iff. split.
      * intros [ds [<- Hds]]. apply order_by_In in Hds. apply filter_In in Hds.
        destruct Hds as [Hin Ht]. apply andb_true_iff in Ht. destruct Ht as [H1 H2].
        apply Z.eqb_eq in H1. apply Z.leb_le in H2. exists ds. repeat split; assumption.
      * intros [ds (Hin & H1 & H2 & ->)]. exists ds. split; [reflexivity|].
        apply order_by_In. apply filter_In. split; [exact Hin|].
        apply andb_true_iff. split; [now apply Z.eqb_eq|now apply Z.leb_le].
    + intros Hnd Hpast. apply history_at_most_days_plus_one; [exact Hnd|exact Hpast|lia].
  - intros days Hbad. eexists. now apply invalid_days_rejected_before_query.
Qed.

Lemma history_window_witness :
  exists rows,
    getBillionaireHistory 1 (of_Z 7) Examples.ada_month
    = (Returned rows, tick Examples.ada_month) /\
    Sorted (fun a b => h_snapshot_date a <= h_snapshot_date b) rows.
Proof.
  destruct (history_window 1 7 Examples.ada_month) as [H _].
  destruct (H ltac:(lia)) as [rows (E & Hs & _)].
  exists rows. split; assumption.
Defined.





End EdgeFacts.

(* ================================================================= *)
(** ** Region resolution of the aggregate comparisons *)

Module RegionFacts.
Import JS Number Effect Store Text Comparisons Spec.
Import ComparisonFacts HistoryFacts ReaderFacts RankingFacts.






End RegionFacts.
